(** * delta-go: the local file object store

    A shallow embedding of [storage/filestore/filestore.go] and of the part
    of the Go runtime and of the operating system it runs on, followed by
    the properties of the store that the specification states.

    Definitions:
    - [GoString]:    Go strings as byte strings and the [strings] functions;
    - [GoPath]:      the lexical path functions of [path] and [path/filepath];
    - [GoErrors]:    error values, [errors.Is], [errors.Join], [fmt.Errorf];
    - [Fs]:          a file tree, path resolution and the [os] calls;
    - [Storage]:     the declarations of package [storage] the store uses;
    - [FileStore]:   the functions of [filestore.go], one definition each;
    - [WellFormed]:  the trees a file system can hold;
    - [ListingSpec]: the listing in the words of the specification;
    - [Race]:        two callers of [RenameIfNotExists] interleaved;
    - [Example]:     the stores of the examples of the specification.

    Properties:
    - [FsFacts], [OsFacts]: the tree and the calls of the host;
    - [PathFacts], [ResolveFacts]: cleaned and joined paths;
    - [ListFacts], [StoreFacts]: the functions of the store;
    - [FrameFacts], [ChangeFacts], [ObjectFacts]: what the calls that
      change the tree leave alone;
    - [ConventionFacts]: directories and files in a listing;
    - the statements of the specification, C1 to C10;
    - further properties of the store. *)

From Stdlib Require Import String Ascii List Bool ZArith Lia Arith.
Import ListNotations.
Open Scope string_scope.
Open Scope list_scope.

Set Warnings "-register-all".

(** ** Outcomes of a Go call

    A call returns its results, panics (a run-time error such as a nil
    dereference or an index out of range), or, for the one recursive
    function of the store, exhausts the recursion budget of the model. *)

Inductive outcome (A : Type) : Type :=
| Ret (a : A)
| Panic (reason : string)
| OutOfFuel.

Arguments Ret {A} a.
Arguments Panic {A} reason.
Arguments OutOfFuel {A}.

Definition bind {A B : Type} (m : outcome A) (k : A -> outcome B) : outcome B :=
  match m with
  | Ret a => k a
  | Panic r => Panic r
  | OutOfFuel => OutOfFuel
  end.

Notation "x <- m ;; k" := (bind m (fun x => k))
  (at level 61, m at next level, right associativity).
Notation "' p <- m ;; k" := (bind m (fun x => let p := x in k))
  (at level 61, p pattern, m at next level, right associativity).

Definition nil_dereference : string := "invalid memory address or nil pointer dereference".
Definition index_out_of_range : string := "index out of range".

(** ** Strings *)

Module GoString.

(** [s[len(s)-1]]: the last byte, or an index panic on the empty string. *)
Fixpoint last_byte (s : string) : option ascii :=
  match s with
  | EmptyString => None
  | String c EmptyString => Some c
  | String _ s' => last_byte s'
  end.

Definition index_last (s : string) : outcome ascii :=
  match last_byte s with
  | Some c => Ret c
  | None => Panic index_out_of_range
  end.

(** [strings.HasPrefix(s, prefix)]. *)
Fixpoint HasPrefix (s prefix : string) : bool :=
  match prefix, s with
  | EmptyString, _ => true
  | String _ _, EmptyString => false
  | String p prefix', String c s' => Ascii.eqb c p && HasPrefix s' prefix'
  end.

(** [s[n:]] for [n <= len(s)]. *)
Fixpoint drop (n : nat) (s : string) : string :=
  match n, s with
  | O, _ => s
  | S n', String _ s' => drop n' s'
  | S _, EmptyString => EmptyString
  end.

(** [strings.TrimPrefix(s, prefix)]. *)
Definition TrimPrefix (s prefix : string) : string :=
  if HasPrefix s prefix then drop (String.length prefix) s else s.

(** [strings.Join(elems, sep)]. *)
Fixpoint Join (elems : list string) (sep : string) : string :=
  match elems with
  | [] => EmptyString
  | [x] => x
  | x :: rest => x ++ sep ++ Join rest sep
  end.

End GoString.

(** ** Lexical paths ([path], [path/filepath] on a Unix host) *)

Module GoPath.
Import GoString.

(** [filepath.Separator] and [os.IsPathSeparator] on Unix. *)
Definition Separator : ascii := "/"%char.
Definition IsPathSeparator (c : ascii) : bool := Ascii.eqb c Separator.
Definition SeparatorString : string := String Separator EmptyString.

(** The elements of a path: the pieces between separators, empty pieces
    included, as [strings.Split(p, "/")] gives them. *)
Fixpoint elements (p : string) : list string :=
  match p with
  | EmptyString => [EmptyString]
  | String c p' =>
      if IsPathSeparator c then EmptyString :: elements p'
      else match elements p' with
           | [] => [String c EmptyString]
           | e :: es => String c e :: es
           end
  end.

Definition rooted (p : string) : bool :=
  match p with
  | String c _ => IsPathSeparator c
  | EmptyString => false
  end.

(** One round of the loop of [Clean] on the element [e]; [out] holds the
    elements written so far, last first.  An empty or [.] element is
    skipped; [..] removes the last real element, is dropped at the root,
    and is kept in front of a relative path; any other element is
    written. *)
Definition clean_step (is_rooted : bool) (out : list string) (e : string)
  : list string :=
  if (e =? "") || (e =? ".") then out
  else if e =? ".." then
    match out with
    | [] => if is_rooted then [] else [e]
    | d :: out' => if d =? ".." then e :: out else out'
    end
  else e :: out.

Definition clean_elements (is_rooted : bool) (es : list string) : list string :=
  rev (fold_left (clean_step is_rooted) es []).

(** [path.Clean], which on Unix is also [filepath.Clean]. *)
Definition Clean (p : string) : string :=
  if p =? "" then "."
  else
    let body := GoString.Join (clean_elements (rooted p) (elements p)) SeparatorString in
    if rooted p then SeparatorString ++ body
    else if body =? "" then "." else body.

(** [filepath.Join] and [path.Join]: leading empty elements are ignored,
    the rest are joined by separators and cleaned; the result is empty
    when every element is. *)
Fixpoint Join (elem : list string) : string :=
  match elem with
  | [] => EmptyString
  | e :: rest =>
      if e =? "" then Join rest
      else Clean (GoString.Join elem SeparatorString)
  end.

(** [filepath.Split]: the path up to and including its last separator,
    and what follows it. *)
Fixpoint Split (p : string) : string * string :=
  match p with
  | EmptyString => (EmptyString, EmptyString)
  | String c p' =>
      let '(dir, file) := Split p' in
      if IsPathSeparator c then (String c dir, file)
      else match dir with
           | EmptyString => (EmptyString, String c file)
           | _ => (String c dir, file)
           end
  end.

(** [filepath.Dir]. *)
Definition Dir (p : string) : string := Clean (fst (Split p)).

End GoPath.

(** ** Errors *)

Module GoErrors.

(** The error numbers the calls of the model report. *)
Inductive Errno : Type :=
| ENOENT | ENOTDIR | EISDIR | EEXIST | EINVAL | EFBIG.

(** Modelled from the spec: the error variables of package [storage],
    which is not part of the sources at hand.  Section 6 of the
    specification lists them as the error sentinels callers match on;
    each is a distinct value made by [errors.New]. *)
Inductive ErrorVar : Type :=
| ErrorObjectDoesNotExist
| ErrorObjectIsDir
| ErrorVersionAlreadyExists
| ErrorDeleteObject
| ErrorListObjects.

Definition ErrorVar_eqb (a b : ErrorVar) : bool :=
  match a, b with
  | ErrorObjectDoesNotExist, ErrorObjectDoesNotExist
  | ErrorObjectIsDir, ErrorObjectIsDir
  | ErrorVersionAlreadyExists, ErrorVersionAlreadyExists
  | ErrorDeleteObject, ErrorDeleteObject
  | ErrorListObjects, ErrorListObjects => true
  | _, _ => false
  end.

(** A non-nil error value. *)
Inductive err : Type :=
| ErrorsNew (v : ErrorVar)                     (* the value held by variable v *)
| PathError (op path : string) (e : Errno)     (* *fs.PathError *)
| LinkError (op old new : string) (e : Errno)  (* *os.LinkError *)
| Joined (errs : list err)                     (* errors.Join *)
| Errorf (format : string) (wrapped : err) (args : list string).
                                               (* fmt.Errorf with one %w verb *)

(** The Go type [error]: [None] is [nil]. *)
Definition error : Type := option err.

(** [errors.Is(e, target)] for a target that is one of the variables
    above: the chain is walked through [Unwrap() error] of a wrapped
    error and [Unwrap() []error] of a joined one; the error number inside
    a path or link error is no such variable. *)
Fixpoint Is_err (e : err) (target : ErrorVar) : bool :=
  match e with
  | ErrorsNew v => ErrorVar_eqb v target
  | PathError _ _ _ => false
  | LinkError _ _ _ _ => false
  | Joined errs =>
      (fix any (l : list err) : bool :=
         match l with
         | [] => false
         | x :: l' => Is_err x target || any l'
         end) errs
  | Errorf _ wrapped _ => Is_err wrapped target
  end.

Definition Is (e : error) (target : ErrorVar) : bool :=
  match e with
  | Some x => Is_err x target
  | None => false
  end.

(** [errors.Join(errs...)]: nil values are discarded, and the result is
    nil when nothing is left. *)
Fixpoint non_nil (errs : list error) : list err :=
  match errs with
  | [] => []
  | Some e :: rest => e :: non_nil rest
  | None :: rest => non_nil rest
  end.

Definition Join (errs : list error) : error :=
  match non_nil errs with
  | [] => None
  | l => Some (Joined l)
  end.

(** [os.IsNotExist(e)]: the error, or the error number under a path or
    link error, is [ENOENT].  Joined and wrapped errors are not looked
    into. *)
Definition IsNotExist (e : error) : bool :=
  match e with
  | Some (PathError _ _ ENOENT) => true
  | Some (LinkError _ _ _ ENOENT) => true
  | _ => false
  end.

Definition is_nil (e : error) : bool :=
  match e with None => true | Some _ => false end.

End GoErrors.

(** ** The file system and the [os] calls

    The host is a Unix system without symbolic links and without
    permission failures; its device has room and does not fail, so that
    a write fails only at the file size limit.  A file system is a tree; a location in it is the
    list of names from a node up to the root, deepest name first. *)

Module Fs.
Import GoErrors.

(** Instants, as [time.Time] values on an integer scale. *)
Definition Time : Type := Z.

Inductive node : Type :=
| File (data : list Byte.byte) (mtime : Time)
| Dir (mtime : Time) (entries : list (string * node)).

(** The state of the host: the tree, the working directory of the
    process, the instant stamped on what is written, the length the
    host reports for a directory (system-dependent, 4096 on ext4), and
    the file size limit of the process ([RLIMIT_FSIZE], in bytes; [None]
    when the process has none).  A write that runs past it is the one
    way a write fails on this host after the file has been opened. *)
Record World : Type := mkWorld {
  root : node;
  cwd : list string;
  now : Time;
  dir_size : Z;
  file_limit : option nat
}.

Definition with_root (w : World) (r : node) : World :=
  {| root := r; cwd := cwd w; now := now w; dir_size := dir_size w;
     file_limit := file_limit w |}.

(** *** Directories as lists of entries in file-name order *)

Fixpoint assoc (name : string) (entries : list (string * node)) : option node :=
  match entries with
  | [] => None
  | (d, x) :: rest => if d =? name then Some x else assoc name rest
  end.

Fixpoint set_entry (name : string) (v : node) (entries : list (string * node))
  : list (string * node) :=
  match entries with
  | [] => [(name, v)]
  | (d, x) :: rest =>
      if d =? name then (name, v) :: rest
      else if String.ltb name d then (name, v) :: entries
      else (d, x) :: set_entry name v rest
  end.

Fixpoint del_entry (name : string) (entries : list (string * node))
  : list (string * node) :=
  match entries with
  | [] => []
  | (d, x) :: rest =>
      if d =? name then del_entry name rest else (d, x) :: del_entry name rest
  end.

(** *** Nodes by location *)

Fixpoint find (r : node) (loc : list string) : option node :=
  match loc with
  | [] => Some r
  | name :: up =>
      match find r up with
      | Some (Dir _ entries) => assoc name entries
      | _ => None
      end
  end.

(** The tree with the node at [loc] set to [v]: the entry is created when
    the parent directory has none of that name; nothing changes when
    there is no parent directory. *)
Fixpoint replace (r : node) (loc : list string) (v : node) : node :=
  match loc with
  | [] => v
  | name :: up =>
      match find r up with
      | Some (Dir m entries) => replace r up (Dir m (set_entry name v entries))
      | _ => r
      end
  end.

(** The tree without the node at [loc]. *)
Definition remove (r : node) (loc : list string) : node :=
  match loc with
  | [] => r
  | name :: up =>
      match find r up with
      | Some (Dir m entries) => replace r up (Dir m (del_entry name entries))
      | _ => r
      end
  end.

Definition is_dir (o : option node) : bool :=
  match o with
  | Some (Dir _ _) => true
  | _ => false
  end.

(** *** Path resolution

    The elements of the path are taken in order from the root (rooted
    path) or from the working directory.  Before each element the
    current node has to be a directory: a missing one gives [ENOENT], a
    file [ENOTDIR]; so a separator at the end of a path asks for a
    directory.  The node the last element names need not exist. *)
Fixpoint walk (r : node) (cur : list string) (elems : list string)
  : Errno + list string :=
  match elems with
  | [] => inr cur
  | e :: rest =>
      match find r cur with
      | None => inl ENOENT
      | Some (File _ _) => inl ENOTDIR
      | Some (Dir _ _) =>
          if (e =? "") || (e =? ".") then walk r cur rest
          else if e =? ".." then walk r (tl cur) rest
          else walk r (e :: cur) rest
      end
  end.

Definition start (w : World) (p : string) : list string :=
  if GoPath.rooted p then [] else cwd w.

Definition resolve (w : World) (p : string) : Errno + list string :=
  if p =? "" then inl ENOENT
  else walk (root w) (start w p) (GoPath.elements p).

(** *** [fs.FileInfo] and [fs.DirEntry], the methods the store calls *)

Record FileInfo : Type := mkFileInfo {
  Size : Z;
  ModTime : Time;
  IsDir : bool
}.

Record DirEntry : Type := mkDirEntry {
  Name : string;
  EntryIsDir : bool;
  EntryInfo : FileInfo
}.

Definition info_of (w : World) (n : node) : FileInfo :=
  match n with
  | File data mtime =>
      {| Size := Z.of_nat (length data); ModTime := mtime; IsDir := false |}
  | Dir mtime _ =>
      {| Size := dir_size w; ModTime := mtime; IsDir := true |}
  end.

Definition entry_of (w : World) (e : string * node) : DirEntry :=
  {| Name := fst e;
     EntryIsDir := IsDir (info_of w (snd e));
     EntryInfo := info_of w (snd e) |}.

(** [dirEntry.Info()]: nothing removes the file between the listing and
    this call, so it does not fail. *)
Definition Info (d : DirEntry) : FileInfo * error := (EntryInfo d, None).

(** *** The calls *)

(** [os.Stat(name)]. *)
Definition Stat (w : World) (name : string) : option FileInfo * error :=
  match resolve w name with
  | inl e => (None, Some (PathError "stat" name e))
  | inr loc =>
      match find (root w) loc with
      | None => (None, Some (PathError "stat" name ENOENT))
      | Some n => (Some (info_of w n), None)
      end
  end.

(** [os.ReadFile(name)]. *)
Definition ReadFile (w : World) (name : string) : list Byte.byte * error :=
  match resolve w name with
  | inl e => ([], Some (PathError "open" name e))
  | inr loc =>
      match find (root w) loc with
      | None => ([], Some (PathError "open" name ENOENT))
      | Some (Dir _ _) => ([], Some (PathError "read" name EISDIR))
      | Some (File data _) => (data, None)
      end
  end.

(** [os.ReadDir(name)]: the entries in file-name order. *)
Definition ReadDir (w : World) (name : string) : list DirEntry * error :=
  match resolve w name with
  | inl e => ([], Some (PathError "open" name e))
  | inr loc =>
      match find (root w) loc with
      | None => ([], Some (PathError "open" name ENOENT))
      | Some (File _ _) => ([], Some (PathError "readdirent" name ENOTDIR))
      | Some (Dir _ entries) => (map (entry_of w) entries, None)
      end
  end.

(** [file.Write(data)] on a file just opened and emptied: the bytes the
    file holds afterwards and the error number.  The bytes up to the
    file size limit are stored; when there are more the write after them
    fails with [EFBIG] (the signal [SIGXFSZ] that comes with it is caught
    by the Go runtime and has no effect). *)
Definition written (w : World) (data : list Byte.byte)
  : list Byte.byte * option Errno :=
  match file_limit w with
  | None => (data, None)
  | Some limit =>
      if Nat.leb (length data) limit then (data, None)
      else (firstn limit data, Some EFBIG)
  end.

(** [os.WriteFile(name, data, perm)]: the file is opened with
    [O_WRONLY|O_CREATE|O_TRUNC], which creates it or empties it; then
    [data] is written and the file closed.  An error of the write is
    returned after the file has lost what it held. *)
Definition WriteFile (w : World) (name : string) (data : list Byte.byte)
  : World * error :=
  let write loc :=
    let '(stored, e) := written w data in
    (with_root w (replace (root w) loc (File stored (now w))),
     match e with
     | Some errno => Some (PathError "write" name errno)
     | None => None
     end) in
  match resolve w name with
  | inl e => (w, Some (PathError "open" name e))
  | inr loc =>
      match find (root w) loc, loc with
      | Some (Dir _ _), _ => (w, Some (PathError "open" name EISDIR))
      | Some (File _ _), _ => write loc
      | None, _ :: up =>
          if is_dir (find (root w) up) then write loc
          else (w, Some (PathError "open" name ENOENT))
      | None, [] => (w, Some (PathError "open" name ENOENT))
      end
  end.

(** [os.MkdirAll(path, perm)]: every directory along the path that is
    missing is created; a file in the way gives [ENOTDIR].  [mkdir_walk]
    returns the tree it has built so far with the result. *)
Fixpoint mkdir_walk (t : Time) (r : node) (cur : list string)
  (elems : list string) : node * (Errno + list string) :=
  match elems with
  | [] => (r, inr cur)
  | e :: rest =>
      match find r cur with
      | None => (r, inl ENOENT)
      | Some (File _ _) => (r, inl ENOTDIR)
      | Some (Dir _ entries) =>
          if (e =? "") || (e =? ".") then mkdir_walk t r cur rest
          else if e =? ".." then mkdir_walk t r (tl cur) rest
          else
            match assoc e entries with
            | Some _ => mkdir_walk t r (e :: cur) rest
            | None => mkdir_walk t (replace r (e :: cur) (Dir t [])) (e :: cur) rest
            end
      end
  end.

Definition MkdirAll (w : World) (path : string) : World * error :=
  if path =? "" then (w, Some (PathError "mkdir" path ENOENT))
  else
    match mkdir_walk (now w) (root w) (start w path) (GoPath.elements path) with
    | (r, inl e) => (with_root w r, Some (PathError "mkdir" path e))
    | (r, inr loc) =>
        match find r loc with
        | Some (Dir _ _) => (with_root w r, None)
        | Some (File _ _) => (with_root w r, Some (PathError "mkdir" path ENOTDIR))
        | None => (with_root w r, Some (PathError "mkdir" path ENOENT))
        end
    end.

(** [loc] lies strictly below [anc]. *)
Fixpoint below (anc loc : list string) : bool :=
  match loc with
  | [] => false
  | _ :: up => if list_eq_dec string_dec up anc then true else below anc up
  end.

(** The system call [rename(2)]. *)
Definition sys_rename (w : World) (oldname newname : string) : World * option Errno :=
  match resolve w oldname with
  | inl e => (w, Some e)
  | inr lo =>
      match find (root w) lo with
      | None => (w, Some ENOENT)
      | Some src =>
          match resolve w newname with
          | inl e => (w, Some e)
          | inr ln =>
              if list_eq_dec string_dec lo ln then (w, None)
              else if below lo ln then (w, Some EINVAL)
              else
                match find (root w) ln, src, ln with
                | Some (Dir _ _), File _ _, _ => (w, Some EISDIR)
                | Some (Dir _ []), Dir _ _, _ =>
                    (with_root w (replace (remove (root w) lo) ln src), None)
                | Some (Dir _ (_ :: _)), Dir _ _, _ => (w, Some EEXIST)
                | Some (File _ _), Dir _ _, _ => (w, Some ENOTDIR)
                | Some (File _ _), File _ _, _ =>
                    (with_root w (replace (remove (root w) lo) ln src), None)
                | None, _, _ :: up =>
                    if is_dir (find (root w) up)
                    then (with_root w (replace (remove (root w) lo) ln src), None)
                    else (w, Some ENOENT)
                | None, _, [] => (w, Some ENOENT)
                end
          end
      end
  end.

(** [os.Rename(oldname, newname)] on Unix: a destination that is a
    directory is refused before the system call, unless it is the source
    under another name. *)
Definition Rename (w : World) (oldname newname : string) : World * error :=
  let link e := Some (LinkError "rename" oldname newname e) in
  let refused :=
    match Stat w newname with
    | (Some fi, None) =>
        if IsDir fi then
          match resolve w oldname with
          | inl e => Some e
          | inr lo =>
              match find (root w) lo with
              | None => Some ENOENT
              | Some _ =>
                  if (newname =? oldname)
                     || negb (match resolve w newname with
                              | inr ln => if list_eq_dec string_dec lo ln then true else false
                              | inl _ => false
                              end)
                  then Some EEXIST else None
              end
          end
        else None
    | _ => None
    end in
  match refused with
  | Some e => (w, link e)
  | None =>
      match sys_rename w oldname newname with
      | (w', Some e) => (w', link e)
      | (w', None) => (w', None)
      end
  end.

(** Two trees, or absent trees, with directories at the same locations. *)
Definition same_dirs (a b : option node) : Prop :=
  forall loc,
    is_dir (match a with Some x => find x loc | None => None end)
    = is_dir (match b with Some x => find x loc | None => None end).

(** The last element of a path that is not empty. *)
Definition last_element (p : string) : string :=
  last (filter (fun e => negb (e =? "")) (GoPath.elements p)) "".

(** The system call [unlink(2)]: a file is removed, a directory is not. *)
Definition sys_unlink (w : World) (name : string) : World * option Errno :=
  match resolve w name with
  | inl e => (w, Some e)
  | inr loc =>
      match find (root w) loc with
      | None => (w, Some ENOENT)
      | Some (Dir _ _) => (w, Some EISDIR)
      | Some (File _ _) => (with_root w (remove (root w) loc), None)
      end
  end.

(** The system call [rmdir(2)]: an empty directory is removed.  A path
    that ends in [.] is refused with [EINVAL].  For a directory that is
    not empty POSIX lets the host report [EEXIST] or [ENOTEMPTY]; this
    host reports [EEXIST], as it does for [rename(2)], also for a path
    that ends in [..] and for the root, which is in use. *)
Definition sys_rmdir (w : World) (name : string) : World * option Errno :=
  match resolve w name with
  | inl e => (w, Some e)
  | inr loc =>
      match find (root w) loc with
      | None => (w, Some ENOENT)
      | Some (File _ _) => (w, Some ENOTDIR)
      | Some (Dir _ entries) =>
          if last_element name =? "." then (w, Some EINVAL)
          else if last_element name =? ".." then (w, Some EEXIST)
          else
            match entries, loc with
            | [], _ :: _ => (with_root w (remove (root w) loc), None)
            | _, _ => (w, Some EEXIST)
            end
      end
  end.

(** [os.Remove(name)]: [unlink] is tried, then [rmdir]; when both fail
    the error of [rmdir] is reported, unless it says that the name is no
    directory, and then the error of [unlink]. *)
Definition Remove (w : World) (name : string) : World * error :=
  match sys_unlink w name with
  | (w', None) => (w', None)
  | (_, Some e) =>
      match sys_rmdir w name with
      | (w', None) => (w', None)
      | (_, Some e1) =>
          (w, Some (PathError "remove" name
                      (match e1 with ENOTDIR => e | _ => e1 end)))
      end
  end.

(** What is at a location: nothing, a file with its contents and time,
    or a directory. *)
Inductive kind : Type :=
| Absent
| FileOf (data : list Byte.byte) (mtime : Time)
| Directory.

Definition kind_of (o : option node) : kind :=
  match o with
  | None => Absent
  | Some (File data mtime) => FileOf data mtime
  | Some (Dir _ _) => Directory
  end.

Definition found (o : option node) (loc : list string) : option node :=
  match o with
  | Some r => find r loc
  | None => None
  end.

(** Two trees, or absent trees, that hold the same kind of thing at every
    location outside [holes]. *)
Definition agree_off (holes : list (list string)) (a b : option node) : Prop :=
  forall loc, ~ In loc holes -> kind_of (found a loc) = kind_of (found b loc).

(** Nothing, a file, or an empty directory. *)
Definition leaf (o : option node) : bool :=
  match o with
  | Some (Dir _ (_ :: _)) => false
  | _ => true
  end.

End Fs.

(** ** Package [storage] *)

Module Storage.
Import GoErrors.

(** Modelled from the spec: the type [storage.Path], declared outside
    the sources at hand.  Section 3: a Path wraps a raw string location. *)
Record Path : Type := mkPath { Raw : string }.

(** Modelled from the spec: [storage.NewPath] wraps the raw string. *)
Definition NewPath (raw : string) : Path := {| Raw := raw |}.

(** Modelled from the spec: the method [Join] of [Path].  Section 3:
    joining a Path to a base produces a new Path whose raw string is the
    normalized concatenation. *)
Definition Path_Join (p q : Path) : Path :=
  {| Raw := GoPath.Join [Raw p; Raw q] |}.

(** Modelled from the spec: [storage.ObjectMeta], section 3. *)
Record ObjectMeta : Type := mkObjectMeta {
  Location : Path;
  LastModified : Fs.Time;
  Size : Z
}.

(** Assignments to the fields of an [ObjectMeta]. *)
Definition set_Location (m : ObjectMeta) (l : Path) : ObjectMeta :=
  {| Location := l; LastModified := LastModified m; Size := Size m |}.
Definition set_LastModified (m : ObjectMeta) (t : Fs.Time) : ObjectMeta :=
  {| Location := Location m; LastModified := t; Size := Size m |}.
Definition set_Size (m : ObjectMeta) (n : Z) : ObjectMeta :=
  {| Location := Location m; LastModified := LastModified m; Size := n |}.

(** The zero value of [ObjectMeta]. *)
Definition zeroTime : Fs.Time := 0%Z.
Definition zeroObjectMeta : ObjectMeta :=
  {| Location := {| Raw := "" |}; LastModified := zeroTime; Size := 0%Z |}.

End Storage.

(** ** Package [filestore] *)

Module FileStore.
Import GoErrors Storage.

Record FileObjectStore : Type := mkFileObjectStore { BaseURI : Path }.

Definition New (baseURI : Path) : FileObjectStore := {| BaseURI := baseURI |}.

(** A method call on a [fs.FileInfo] that may be nil. *)
Definition call {A : Type} (info : option Fs.FileInfo) (method : Fs.FileInfo -> A)
  : outcome A :=
  match info with
  | Some i => Ret (method i)
  | None => Panic nil_dereference
  end.

(** [*meta] for a pointer that may be nil. *)
Definition deref {A : Type} (p : option A) : outcome A :=
  match p with
  | Some a => Ret a
  | None => Panic nil_dereference
  end.

Definition Put (s : FileObjectStore) (location : Path) (bytes : list Byte.byte)
  (w : Fs.World) : outcome (error * Fs.World) :=
  let writePath := GoPath.Join [Raw (BaseURI s); Raw location] in
  let '(w1, err) := Fs.MkdirAll w (GoPath.Dir writePath) in
  match err with
  | Some _ => Ret (err, w1)
  | None =>
      let '(w2, err) := Fs.WriteFile w1 writePath bytes in
      Ret (err, w2)
  end.

Definition Get (s : FileObjectStore) (location : Path) (w : Fs.World)
  : outcome (list Byte.byte * error) :=
  let filePath := GoPath.Join [Raw (BaseURI s); Raw location] in
  let '(data, err) := Fs.ReadFile w filePath in
  Ret (data, err).

Definition Head (s : FileObjectStore) (location : Path) (w : Fs.World)
  : outcome (ObjectMeta * error) :=
  let filePath := GoPath.Join [Raw (BaseURI s); Raw location] in
  let meta := zeroObjectMeta in
  let '(info, err) := Fs.Stat w filePath in
  if IsNotExist err then
    Ret (meta, Join [Some (ErrorsNew ErrorObjectDoesNotExist); err])
  else
    size <- call info Fs.Size ;;
    let meta := set_Size meta size in
    let meta := set_Location meta {| Raw := filePath |} in
    mtime <- call info Fs.ModTime ;;
    let meta := set_LastModified meta mtime in
    isDir <- call info Fs.IsDir ;;
    if isDir then Ret (meta, Some (ErrorsNew ErrorObjectIsDir))
    else Ret (meta, None).

Definition Rename (s : FileObjectStore) (from to : Path) (w : Fs.World)
  : outcome (error * Fs.World) :=
  let f := Path_Join (BaseURI s) from in
  let t := Path_Join (BaseURI s) to in
  let '(w', err) := Fs.Rename w (Raw f) (Raw t) in
  match err with
  | Some _ => Ret (Join [Some (ErrorsNew ErrorObjectDoesNotExist); err], w')
  | None => Ret (err, w')
  end.

(** The error of [RenameIfNotExists] for a destination that is there. *)
Definition already_exists (to : Path) : err :=
  Errorf "error %w: Object at location %s already exists"
    (ErrorsNew ErrorVersionAlreadyExists) [Raw to].

Definition RenameIfNotExists (s : FileObjectStore) (from to : Path) (w : Fs.World)
  : outcome (error * Fs.World) :=
  '(_, err) <- Head s to w ;;
  if negb (Is err ErrorObjectDoesNotExist) then
    Ret (Some (already_exists to), w)
  else
    '(err, w') <- Rename s from to w ;;
    match err with
    | Some _ => Ret (err, w')
    | None => Ret (None, w')
    end.

Definition objectMetaFromFileInfo (info : Fs.FileInfo) (name : string)
  (isDir : bool) (parentDir trimPrefix : string)
  : outcome (option ObjectMeta * error) :=
  let lastModified := Fs.ModTime info in
  let location := GoString.TrimPrefix (GoPath.Join [parentDir; name]) trimPrefix in
  '(size, location) <-
    (if isDir then
       c <- GoString.index_last location ;;
       if negb (GoPath.IsPathSeparator c)
       then Ret (0%Z, (location ++ GoPath.SeparatorString)%string)
       else Ret (0%Z, location)
     else Ret (Fs.Size info, location)) ;;
  Ret (Some {| Location := NewPath location; LastModified := lastModified;
               Size := size |}, None).

Definition objectMetaFromDirEntry (dirEntry : Fs.DirEntry)
  (parentDir trimPrefix : string) : outcome (option ObjectMeta * error) :=
  let '(info, err) := Fs.Info dirEntry in
  match err with
  | Some _ => Ret (None, err)
  | None =>
      objectMetaFromFileInfo info (Fs.Name dirEntry) (Fs.EntryIsDir dirEntry)
        parentDir trimPrefix
  end.

(** The [for] loop of [listFilesInDirRecursively] over the entries not
    yet visited; [out] is the slice built so far and [recurse] the
    recursive call on a subdirectory. *)
Fixpoint list_loop (recurse : string -> outcome (list ObjectMeta * error))
  (baseURI dir prefix : string) (results : list Fs.DirEntry)
  (out : list ObjectMeta) : outcome (list ObjectMeta * error) :=
  match results with
  | [] => Ret (out, None)
  | r :: rest =>
      if (prefix =? "") || GoString.HasPrefix (Fs.Name r) prefix then
        '(meta, err) <- objectMetaFromDirEntry r dir baseURI ;;
        match err with
        | Some _ => Ret ([], err)
        | None =>
            m <- deref meta ;;
            let out := out ++ [m] in
            if Fs.EntryIsDir r then
              '(subdirResults, err) <- recurse (GoPath.Join [dir; Fs.Name r]) ;;
              match err with
              | Some _ => Ret ([], err)
              | None => list_loop recurse baseURI dir prefix rest (out ++ subdirResults)
              end
            else list_loop recurse baseURI dir prefix rest out
        end
      else list_loop recurse baseURI dir prefix rest out
  end.

(** [fuel] bounds the depth of the recursion. *)
Fixpoint listFilesInDirRecursively (fuel : nat) (w : Fs.World)
  (baseURI dir prefix : string) : outcome (list ObjectMeta * error) :=
  match fuel with
  | O => OutOfFuel
  | S fuel' =>
      let '(results, err) := Fs.ReadDir w dir in
      if IsNotExist err then Ret ([], None)
      else
        match err with
        | Some _ => Ret ([], err)
        | None =>
            list_loop (fun sub => listFilesInDirRecursively fuel' w baseURI sub "")
              baseURI dir prefix results []
        end
  end.

(** [fuel] is the budget handed to [listFilesInDirRecursively]. *)
Definition List (fuel : nat) (s : FileObjectStore) (prefix : Path) (w : Fs.World)
  : outcome (list ObjectMeta * error) :=
  let '(dir, filePrefix) := GoPath.Split (Raw prefix) in
  let fullDir := GoPath.Join [Raw (BaseURI s); dir] in
  fullDir <-
    (if filePrefix =? "" then
       c <- GoString.index_last fullDir ;;
       if negb (GoPath.IsPathSeparator c)
       then Ret (fullDir ++ GoPath.SeparatorString)%string else Ret fullDir
     else Ret fullDir) ;;
  let baseURI := Raw (BaseURI s) in
  c <- GoString.index_last baseURI ;;
  let baseURI :=
    if negb (GoPath.IsPathSeparator c)
    then (baseURI ++ GoPath.SeparatorString)%string else baseURI in
  '(files, err) <- listFilesInDirRecursively fuel w baseURI fullDir filePrefix ;;
  match err with
  | Some _ => Ret ([], Join [Some (ErrorsNew ErrorListObjects); err])
  | None =>
      if negb (dir =? "") && (filePrefix =? "") then
        let '(info, err) := Fs.Stat w (GoPath.Join [Raw (BaseURI s); dir]) in
        if negb (is_nil err) && negb (IsNotExist err) then
          Ret ([], Join [Some (ErrorsNew ErrorListObjects); err])
        else if is_nil err then
          i <- deref info ;;
          '(meta, err) <- objectMetaFromFileInfo i dir true "" baseURI ;;
          match err with
          | Some _ => Ret ([], Join [Some (ErrorsNew ErrorListObjects); err])
          | None =>
              m <- deref meta ;;
              Ret (files ++ [m], None)
          end
        else Ret (files, None)
      else Ret (files, None)
  end.

Definition Delete (s : FileObjectStore) (location : Path) (w : Fs.World)
  : outcome (error * Fs.World) :=
  let filePath := GoPath.Join [Raw (BaseURI s); Raw location] in
  let '(w', err) := Fs.Remove w filePath in
  match err with
  | Some _ => Ret (Join [Some (ErrorsNew ErrorDeleteObject); err], w')
  | None => Ret (None, w')
  end.

(** What the round trip asks of one store, location, payload and state of
    the host: the Put succeeds and the Get after it returns the payload. *)
Definition round_trip (s : FileObjectStore) (p : Path) (b : list Byte.byte)
  (w : Fs.World) : Prop :=
  exists w', Put s p b w = Ret (None, w') /\ Get s p w' = Ret (b, None).

End FileStore.

(** ** Well-formed trees

    A directory holds each name once, and a name is a non-empty string
    without separator other than [.] and [..]. *)

Module WellFormed.
Import Fs.

Fixpoint has_separator (s : string) : bool :=
  match s with
  | EmptyString => false
  | String c s' => GoPath.IsPathSeparator c || has_separator s'
  end.

Definition valid_name (name : string) : bool :=
  negb ((name =? "") || (name =? ".")) && negb (name =? "..")
  && negb (has_separator name).

(** An element of a path as [Clean] keeps it: not empty, not [.], and
    without separator. *)
Definition kept (e : string) : Prop :=
  e <> "" /\ e <> "." /\ has_separator e = false.

Fixpoint distinct (names : list string) : bool :=
  match names with
  | [] => true
  | x :: rest => negb (existsb (String.eqb x) rest) && distinct rest
  end.

Fixpoint wf_node (n : node) : bool :=
  match n with
  | File _ _ => true
  | Dir _ entries =>
      forallb valid_name (map fst entries)
      && distinct (map fst entries)
      && (fix all (l : list (string * node)) : bool :=
            match l with
            | [] => true
            | e :: rest => (let '(_, child) := e in wf_node child) && all rest
            end) entries
  end.

(** The names of a directory in file-name order, the order in which
    [os.ReadDir] returns the entries. *)
Fixpoint increasing (names : list string) : bool :=
  match names with
  | [] => true
  | x :: rest =>
      match rest with
      | [] => true
      | y :: _ => String.ltb x y && increasing rest
      end
  end.

Fixpoint ordered (n : node) : bool :=
  match n with
  | File _ _ => true
  | Dir _ entries =>
      increasing (map fst entries)
      && (fix all (l : list (string * node)) : bool :=
            match l with
            | [] => true
            | e :: rest => (let '(_, child) := e in ordered child) && all rest
            end) entries
  end.

(** The number of directory levels of a tree. *)
Fixpoint height (n : node) : nat :=
  match n with
  | File _ _ => 0
  | Dir _ entries =>
      S ((fix deepest (l : list (string * node)) : nat :=
            match l with
            | [] => 0
            | e :: rest => Nat.max (let '(_, child) := e in height child) (deepest rest)
            end) entries)
  end.

End WellFormed.

(** ** The listing as section 4.2 of the specification words it

    For every entry of the resolved directory whose name starts with the
    name-prefix (an empty prefix matches everything) an ObjectMeta is
    emitted, a directory with the trailing separator and size 0, and a
    directory is recursed into with no filter below the first level.
    Every emitted location has the base stripped from its front. *)

Module ListingSpec.
Import Fs Storage.

Definition with_separator (location : string) : string :=
  match GoString.last_byte location with
  | Some c => if GoPath.IsPathSeparator c then location
              else (location ++ GoPath.SeparatorString)%string
  | None => GoPath.SeparatorString
  end.

Definition stripped (baseURI path : string) : string :=
  GoString.TrimPrefix path baseURI.

Definition entry_meta (baseURI dir : string) (e : string * node) : ObjectMeta :=
  let path := GoPath.Join [dir; fst e] in
  match snd e with
  | File data mtime =>
      {| Location := NewPath (stripped baseURI path);
         LastModified := mtime;
         Size := Z.of_nat (length data) |}
  | Dir mtime _ =>
      {| Location := NewPath (with_separator (stripped baseURI path));
         LastModified := mtime;
         Size := 0%Z |}
  end.

(** Everything beneath the node [n] whose path is [dir], unfiltered. *)
Fixpoint beneath (baseURI dir : string) (n : node) : list ObjectMeta :=
  match n with
  | File _ _ => []
  | Dir _ entries =>
      (fix each (l : list (string * node)) : list ObjectMeta :=
         match l with
         | [] => []
         | e :: rest =>
             (entry_meta baseURI dir e
                :: (let '(name, child) := e in
                    beneath baseURI (GoPath.Join [dir; name]) child))
               ++ each rest
         end) entries
  end.

Definition matches (prefix : string) (e : string * node) : bool :=
  (prefix =? "") || GoString.HasPrefix (fst e) prefix.

(** The listing of the directory [dir] with entries [entries]. *)
Definition listing (baseURI dir prefix : string) (entries : list (string * node))
  : list ObjectMeta :=
  flat_map
    (fun e => entry_meta baseURI dir e
                :: beneath baseURI (GoPath.Join [dir; fst e]) (snd e))
    (filter (matches prefix) entries).

(** The entry List adds for the directory part [dir] of its prefix. *)
Definition self_meta (baseURI dir : string) (mtime : Time) : ObjectMeta :=
  {| Location := NewPath (with_separator (stripped baseURI (GoPath.Join [""; dir])));
     LastModified := mtime;
     Size := 0%Z |}.

(** The base with a separator behind it, which List strips from the front
    of every path, and the directory List enumerates for the directory
    part [dir] and the name-prefix [filePrefix] of its prefix. *)
Definition stripped_base (base : string) : string := with_separator base.

Definition listed_dir (base dir filePrefix : string) : string :=
  if filePrefix =? "" then with_separator (GoPath.Join [base; dir])
  else GoPath.Join [base; dir].

End ListingSpec.

(** ** Two callers of [RenameIfNotExists] on one store

    A call is two steps on the shared file system: the check [Head(to)],
    then the rename.  A schedule says which caller takes the next step. *)

Module Race.
Import GoErrors Storage FileStore.

Inductive call_state : Type :=
| Start (from to : Path)      (* the call has not begun *)
| Checked (from to : Path)    (* Head reported ObjectDoesNotExist, Rename is next *)
| Returned (err : error)
| Panicked (reason : string).







Definition finished (c : call_state) : bool :=
  match c with Returned _ | Panicked _ => true | _ => false end.




End Race.

(** ** A store to run the examples of the specification on *)

Module Example.
Import GoErrors Storage FileStore.

Definition bytes (s : string) : list Byte.byte := list_byte_of_string s.

(** An empty store directory [/srv/table], listed at instant 7 on a host
    whose directories have length 4096, by a process without file size
    limit. *)
Definition empty : Fs.World :=
  {| Fs.root := Fs.Dir 1%Z [("srv", Fs.Dir 2%Z [("table", Fs.Dir 3%Z [])])];
     Fs.cwd := [];
     Fs.now := 7%Z;
     Fs.dir_size := 4096%Z;
     Fs.file_limit := None |}.

Definition store : FileObjectStore := New (NewPath "/srv/table").

(** The world after [Put(location, data)], whatever the call returned. *)
Definition after_Put (location : string) (data : list Byte.byte) (w : Fs.World)
  : Fs.World :=
  match Put store (NewPath location) data w with
  | Ret (_, w') => w'
  | _ => w
  end.

(** Files [a/x] and [a/b/y]. *)
Definition nested (x y : list Byte.byte) : Fs.World :=
  after_Put "a/b/y" y (after_Put "a/x" x empty).

(** Files [abc.txt], [abd.txt] and [xyz.txt]. *)
Definition flat : Fs.World :=
  after_Put "xyz.txt" (bytes "3")
    (after_Put "abd.txt" (bytes "22") (after_Put "abc.txt" (bytes "1") empty)).

(** Two staged commits and a free commit slot. *)
Definition staged : Fs.World :=
  after_Put "_delta_log/.tmp/B" (bytes "commit of B")
    (after_Put "_delta_log/.tmp/A" (bytes "commit of A") empty).

Definition stagingA : Path := NewPath "_delta_log/.tmp/A".
Definition stagingB : Path := NewPath "_delta_log/.tmp/B".
Definition slot : Path := NewPath "_delta_log/00000000000000000001.json".

(** The same directory as the store [table] of a process that runs in
    [/srv], holding the file [table/x/f]: a directory named like the
    base. *)
Definition relative_store : FileObjectStore := New (NewPath "table").

Definition in_srv : Fs.World :=
  {| Fs.root := Fs.root empty; Fs.cwd := ["srv"]; Fs.now := Fs.now empty;
     Fs.dir_size := Fs.dir_size empty; Fs.file_limit := Fs.file_limit empty |}.

Definition same_name (f : list Byte.byte) : Fs.World :=
  match Put relative_store (NewPath "table/x/f") f in_srv with
  | Ret (_, w') => w'
  | _ => in_srv
  end.

(** The same directory again as the store [./table] of that process,
    holding the file [a/x]: a base that is not in cleaned form. *)
Definition dotted_store : FileObjectStore := New (NewPath "./table").

Definition dotted (x : list Byte.byte) : Fs.World :=
  match Put dotted_store (NewPath "a/x") x in_srv with
  | Ret (_, w') => w'
  | _ => in_srv
  end.

(** The store [./table] again, holding [a/x] and [a/b/y]. *)
Definition dotted_nested (x y : list Byte.byte) : Fs.World :=
  match Put dotted_store (NewPath "a/b/y") y (dotted x) with
  | Ret (_, w') => w'
  | _ => dotted x
  end.

(** The store with the empty BaseURI of a process that runs in
    [/srv/table]: its objects are the files [abc.txt], [abd.txt] and
    [xyz.txt] of [flat]. *)
Definition cwd_store : FileObjectStore := New (NewPath "").

Definition in_table : Fs.World :=
  {| Fs.root := Fs.root flat; Fs.cwd := ["table"; "srv"]; Fs.now := Fs.now flat;
     Fs.dir_size := Fs.dir_size flat; Fs.file_limit := Fs.file_limit flat |}.

(** The files [a/x] and [a/b/y] and a process whose files hold two bytes
    at most. *)
Definition limited (x y : list Byte.byte) : Fs.World :=
  {| Fs.root := Fs.root (nested x y); Fs.cwd := []; Fs.now := 9%Z;
     Fs.dir_size := 4096%Z; Fs.file_limit := Some 2 |}.


End Example.

(** * Properties *)

(** ** The file tree *)

Module FsFacts.
Import GoErrors Fs.

Lemma assoc_set_entry_same (name : string) (v : node) (entries : list (string * node)) :
  assoc name (set_entry name v entries) = Some v.
Proof.
  induction entries as [|[d x] rest IH]; simpl.
  - now rewrite String.eqb_refl.
  - destruct (d =? name) eqn:Hd; simpl.
    + now rewrite String.eqb_refl.
    + destruct (String.ltb name d); simpl.
      * now rewrite String.eqb_refl.
      * now rewrite Hd.
Qed.

Lemma assoc_set_entry_other (name other : string) (v : node)
  (entries : list (string * node)) :
  other <> name ->
  assoc other (set_entry name v entries) = assoc other entries.
Proof.
  intros Hne.
  assert (Hn : (name =? other) = false) by (apply String.eqb_neq; congruence).
  induction entries as [|[d x] rest IH]; simpl.
  - now rewrite Hn.
  - destruct (d =? name) eqn:Hd; simpl.
    + apply String.eqb_eq in Hd. subst d. now rewrite Hn.
    + destruct (String.ltb name d); simpl.
      * now rewrite Hn.
      * now rewrite IH.
Qed.

Lemma assoc_del_entry_same (name : string) (entries : list (string * node)) :
  assoc name (del_entry name entries) = None.
Proof.
  induction entries as [|[d x] rest IH]; simpl; [reflexivity|].
  destruct (d =? name) eqn:Hd; simpl; [assumption|].
  now rewrite Hd.
Qed.

Lemma assoc_del_entry_other (name other : string) (entries : list (string * node)) :
  other <> name ->
  assoc other (del_entry name entries) = assoc other entries.
Proof.
  intros Hne.
  induction entries as [|[d x] rest IH]; simpl; [reflexivity|].
  destruct (d =? name) eqn:Hd; simpl.
  - apply String.eqb_eq in Hd. subst d.
    destruct (name =? other) eqn:Hn; [|assumption].
    apply String.eqb_eq in Hn. congruence.
  - now rewrite IH.
Qed.

(** A location under a location: first the outer part is found, then the
    inner part from there. *)
Lemma find_app (r : node) (inner outer : list string) :
  find r (inner ++ outer) =
  match find r outer with
  | Some x => find x inner
  | None => None
  end.
Proof.
  induction inner as [|name inner IH]; simpl.
  - now destruct (find r outer).
  - rewrite IH. now destruct (find r outer).
Qed.

Lemma find_parent (r : node) (name : string) (up : list string) (x : node) :
  find r (name :: up) = Some x -> is_dir (find r up) = true.
Proof.
  simpl. destruct (find r up) as [[|]|]; simpl; congruence.
Qed.

Lemma find_File (data : list Byte.byte) (t : Time) (loc : list string) :
  is_dir (find (File data t) loc) = false.
Proof.
  destruct loc as [|name up]; [reflexivity|].
  simpl.
  assert (H : forall l, match find (File data t) l with
                        | Some (Dir _ _) => False | _ => True end).
  { induction l as [|n l IH]; simpl; [exact I|].
    destruct (find (File data t) l) as [[|]|]; simpl; tauto. }
  specialize (H up). destruct (find (File data t) up) as [[|]|]; simpl; tauto.
Qed.

Lemma same_dirs_files (a : option node) (data : list Byte.byte) (t : Time) :
  is_dir a = false -> (forall m es, a <> Some (Dir m es)) ->
  same_dirs a (Some (File data t)).
Proof.
  intros _ Ha loc. rewrite find_File.
  destruct a as [[d t'|m es]|]; simpl.
  - apply find_File.
  - exfalso. now apply (Ha m es).
  - reflexivity.
Qed.

Lemma last_split {A : Type} (l : list A) :
  l = [] \/ exists front x, l = front ++ [x].
Proof.
  destruct l as [|a l]; [now left|right].
  destruct (exists_last (l := a :: l)) as (front & x & H); [discriminate|].
  now exists front, x.
Qed.

(** A directory with one entry changed keeps its directories when the
    entry does. *)
Lemma same_dirs_entry (m : Time) (entries entries' : list (string * node))
  (name : string) :
  same_dirs (assoc name entries) (assoc name entries') ->
  (forall other, other <> name -> assoc other entries' = assoc other entries) ->
  same_dirs (Some (Dir m entries)) (Some (Dir m entries')).
Proof.
  intros Hsame Hother loc.
  destruct (last_split loc) as [->|(front & x & ->)]; [reflexivity|].
  rewrite !find_app. simpl.
  destruct (string_dec x name) as [->|Hne].
  - apply (Hsame front).
  - now rewrite Hother.
Qed.

(** Replacing a node by one with the same directories keeps the
    directories of the whole tree. *)
Lemma same_dirs_replace (loc : list string) :
  forall (r : node) (a : option node) (b : node),
    (loc = [] \/ is_dir (find r (tl loc)) = true) ->
    find r loc = a ->
    same_dirs a (Some b) ->
    same_dirs (Some r) (Some (replace r loc b)).
Proof.
  induction loc as [|name up IH]; intros r a b Hpar Hfind Hsame.
  - simpl in *. subst a. exact Hsame.
  - destruct Hpar as [Hnil|Hpar]; [discriminate|]. simpl in Hpar.
    simpl in *. destruct (find r up) as [[|m entries]|] eqn:Hup; try discriminate.
    apply (IH r (Some (Dir m entries))).
    + destruct up as [|n up']; [now left|right].
      eapply find_parent; exact Hup.
    + exact Hup.
    + apply same_dirs_entry with (name := name).
      * rewrite assoc_set_entry_same. now subst a.
      * intros other Hne. now apply assoc_set_entry_other.
Qed.


Lemma find_replace_same (loc : list string) :
  forall (r v : node),
    (loc = [] \/ is_dir (find r (tl loc)) = true) ->
    find (replace r loc v) loc = Some v.
Proof.
  induction loc as [|name up IH]; intros r v Hpar; [reflexivity|].
  destruct Hpar as [Hnil|Hpar]; [discriminate|]. simpl in Hpar.
  simpl. destruct (find r up) as [[|m entries]|] eqn:Hup; try discriminate.
  rewrite IH.
  - apply assoc_set_entry_same.
  - destruct up as [|n up']; [now left|right].
    eapply find_parent; exact Hup.
Qed.

(** A walk that succeeds succeeds alike in a tree with the same
    directories. *)
Lemma walk_same_dirs (r r' : node) (elems : list string) :
  same_dirs (Some r) (Some r') ->
  forall cur loc, walk r cur elems = inr loc -> walk r' cur elems = inr loc.
Proof.
  intros Hsame. induction elems as [|e rest IH]; intros cur loc; simpl; [auto|].
  specialize (Hsame cur). simpl in Hsame.
  destruct (find r cur) as [[|m es]|]; try discriminate.
  simpl in Hsame.
  destruct (find r' cur) as [[|m' es']|]; try discriminate.
  destruct ((e =? "") || (e =? ".")); [apply IH|].
  destruct (e =? ".."); apply IH.
Qed.

Lemma resolve_same_dirs (w : World) (r' : node) (p : string) (loc : list string) :
  same_dirs (Some (root w)) (Some r') ->
  resolve w p = inr loc -> resolve (with_root w r') p = inr loc.
Proof.
  unfold resolve, start. simpl. intros Hsame.
  destruct (p =? ""); [discriminate|].
  now apply walk_same_dirs.
Qed.


(** The walk over two runs of elements is the walk over the first and,
    from where it ends, the walk over the second. *)
Lemma walk_app (r : node) (first second : list string) :
  forall cur,
    walk r cur (first ++ second) =
    match walk r cur first with
    | inr mid => walk r mid second
    | inl e => inl e
    end.
Proof.
  induction first as [|e rest IH]; intros cur; simpl; [reflexivity|].
  destruct (find r cur) as [[|m es]|]; try reflexivity.
  destruct ((e =? "") || (e =? ".")); [apply IH|].
  destruct (e =? ".."); apply IH.
Qed.

End FsFacts.

(** ** The calls of the host *)

Module OsFacts.
Import GoErrors Fs FsFacts.

(** A failed [Stat] returns no [FileInfo]. *)
Lemma Stat_error_nil (w : World) (name : string) (e : err) :
  snd (Stat w name) = Some e -> fst (Stat w name) = None.
Proof.
  unfold Stat. destruct (resolve w name) as [errno|loc]; [reflexivity|].
  destruct (find (root w) loc); [discriminate|reflexivity].
Qed.

Lemma Stat_cases (w : World) (name : string) :
  (exists info, Stat w name = (Some info, None))
  \/ (exists e, Stat w name = (None, Some e)).
Proof.
  unfold Stat. destruct (resolve w name) as [errno|loc]; [right; eauto|].
  destruct (find (root w) loc); [left|right]; eauto.
Qed.

Lemma Stat_found (w : World) (name : string) (loc : list string) (n : node) :
  resolve w name = inr loc -> find (root w) loc = Some n ->
  Stat w name = (Some (info_of w n), None).
Proof. unfold Stat. now intros -> ->. Qed.

Lemma ReadFile_found (w : World) (name : string) (data : list Byte.byte) :
  ReadFile w name = (data, None) ->
  exists loc t, resolve w name = inr loc /\ find (root w) loc = Some (File data t).
Proof.
  unfold ReadFile. destruct (resolve w name) as [errno|loc]; [discriminate|].
  destruct (find (root w) loc) as [[d t|m es]|] eqn:Hf; try discriminate.
  intros [= <-]. now exists loc, t.
Qed.

(** A write without error stored all of the data. *)
Lemma written_all (w : World) (data : list Byte.byte) :
  snd (written w data) = None -> fst (written w data) = data.
Proof.
  unfold written. destruct (file_limit w) as [limit|]; [|reflexivity].
  now destruct (Nat.leb (length data) limit).
Qed.

(** [WriteFile] fails at the open and changes nothing, or puts at the
    place the name resolves to what the write stored. *)
Lemma WriteFile_cases (w w' : World) (name : string) (data : list Byte.byte)
  (e : error) :
  WriteFile w name data = (w', e) ->
  (w' = w /\ exists errno, e = Some (PathError "open" name errno))
  \/ exists loc,
       resolve w name = inr loc
       /\ is_dir (find (root w) loc) = false
       /\ (loc = [] \/ is_dir (find (root w) (tl loc)) = true)
       /\ w' = with_root w (replace (root w) loc
                              (File (fst (written w data)) (now w)))
       /\ e = match snd (written w data) with
              | Some errno => Some (PathError "write" name errno)
              | None => None
              end.
Proof.
  unfold WriteFile.
  destruct (resolve w name) as [errno|loc] eqn:Hres.
  { intros [= <- <-]. left. eauto. }
  assert (Hwrite :
    is_dir (find (root w) loc) = false ->
    (loc = [] \/ is_dir (find (root w) (tl loc)) = true) ->
    (let '(stored, e0) := written w data in
     (with_root w (replace (root w) loc (File stored (now w))),
      match e0 with
      | Some errno => Some (PathError "write" name errno)
      | None => None
      end)) = (w', e) ->
    (w' = w /\ exists errno, e = Some (PathError "open" name errno))
    \/ exists loc0,
         inr loc = @inr Errno _ loc0
         /\ is_dir (find (root w) loc0) = false
         /\ (loc0 = [] \/ is_dir (find (root w) (tl loc0)) = true)
         /\ w' = with_root w (replace (root w) loc0
                                (File (fst (written w data)) (now w)))
         /\ e = match snd (written w data) with
                | Some errno => Some (PathError "write" name errno)
                | None => None
                end).
  { intros Hnodir Hpar. destruct (written w data) as [stored e0].
    intros [= <- <-]. right. exists loc. auto. }
  destruct (find (root w) loc) as [[d t|m es]|] eqn:Hf.
  - apply Hwrite; [reflexivity|].
    destruct loc as [|c up]; [now left|right]. simpl. eapply find_parent; exact Hf.
  - intros [= <- <-]. left. eauto.
  - destruct loc as [|c up]; [intros [= <- <-]; left; eauto|].
    destruct (is_dir (find (root w) up)) eqn:Hup.
    + apply Hwrite; [reflexivity|now right].
    + intros [= <- <-]. left. eauto.
Qed.

(** What [WriteFile] wrote is what [ReadFile] reads. *)
Lemma WriteFile_ReadFile (w w' : World) (name : string) (data : list Byte.byte) :
  WriteFile w name data = (w', None) -> ReadFile w' name = (data, None).
Proof.
  intros Hwrite.
  destruct (WriteFile_cases w w' name data None Hwrite)
    as [(_ & errno & He)|(loc & Hres & Hnodir & Hpar & -> & He)]; [discriminate|].
  rewrite written_all by (now destruct (snd (written w data))).
  unfold ReadFile.
  rewrite (resolve_same_dirs w _ name loc); [| |exact Hres].
  - simpl. now rewrite find_replace_same.
  - assert (Hno : forall m es, find (root w) loc <> Some (Dir m es)).
    { intros m es Hd. rewrite Hd in Hnodir. discriminate. }
    apply (same_dirs_replace loc (root w) (find (root w) loc)); auto.
    now apply same_dirs_files.
Qed.



End OsFacts.

(** ** Lexical paths *)

Module PathFacts.
Import GoString GoPath WellFormed.

Lemma elements_nonempty (p : string) : elements p <> [].
Proof.
  destruct p as [|c p]; simpl; [discriminate|].
  destruct (IsPathSeparator c); [discriminate|].
  destruct (elements p); discriminate.
Qed.

Lemma elements_app (a b : string) :
  elements (a ++ String Separator b)%string = elements a ++ elements b.
Proof.
  induction a as [|c a IH]; simpl.
  - reflexivity.
  - rewrite IH. destruct (IsPathSeparator c); [reflexivity|].
    pose proof (elements_nonempty a) as Hne.
    destruct (elements a) as [|e es]; [contradiction|reflexivity].
Qed.

Lemma elements_no_separator (s : string) :
  has_separator s = false -> elements s = [s].
Proof.
  induction s as [|c s IH]; simpl; [reflexivity|].
  intros H. apply orb_false_elim in H as [Hc Hs].
  rewrite Hc, (IH Hs). reflexivity.
Qed.

Lemma elements_have_no_separator (p : string) :
  Forall (fun e => has_separator e = false) (elements p).
Proof.
  induction p as [|c p IH]; simpl.
  - constructor; [reflexivity|constructor].
  - destruct (IsPathSeparator c) eqn:Hc.
    + constructor; [reflexivity|exact IH].
    + destruct (elements p) as [|e es]; constructor.
      * simpl. now rewrite Hc.
      * constructor.
      * simpl. rewrite Hc. now inversion IH.
      * now inversion IH.
Qed.

Lemma elements_Join (es : list string) :
  es <> [] -> Forall (fun e => has_separator e = false) es ->
  elements (GoString.Join es SeparatorString) = es.
Proof.
  induction es as [|e rest IH]; [congruence|].
  intros _ Hall. inversion Hall as [|? ? He Hrest]; subst.
  destruct rest as [|e' rest'].
  - simpl. now apply elements_no_separator.
  - change (GoString.Join (e :: e' :: rest') SeparatorString)
      with (e ++ String Separator (GoString.Join (e' :: rest') SeparatorString))%string.
    rewrite elements_app, IH by (congruence || assumption).
    now rewrite (elements_no_separator e He).
Qed.

Lemma rooted_app (a b : string) : a <> "" -> rooted (a ++ b)%string = rooted a.
Proof. destruct a; [congruence|reflexivity]. Qed.

Lemma last_byte_app (a : string) (c : ascii) (b : string) :
  last_byte (a ++ String c b)%string = last_byte (String c b).
Proof.
  induction a as [|x a IH]; [reflexivity|].
  cbn [String.append]. revert IH.
  destruct (a ++ String c b)%string as [|y s] eqn:Happ.
  - destruct a; discriminate.
  - intros IH. exact IH.
Qed.

Lemma last_byte_no_separator (s : string) :
  has_separator s = false -> last_byte s <> Some Separator.
Proof.
  induction s as [|c s IH]; simpl; [discriminate|].
  intros H. apply orb_false_elim in H as [Hc Hs].
  destruct s as [|c' s'].
  - intros [= ->]. discriminate.
  - now apply IH.
Qed.

(** The last byte of joined kept elements is no separator. *)
Lemma last_byte_Join (es : list string) :
  es <> [] -> Forall kept es ->
  last_byte (GoString.Join es SeparatorString) <> Some Separator
  /\ GoString.Join es SeparatorString <> "".
Proof.
  induction es as [|e rest IH]; [congruence|].
  intros _ Hall. inversion Hall as [|? ? (Hne & _ & Hsep) Hrest]; subst.
  destruct rest as [|e' rest'].
  - simpl. split; [now apply last_byte_no_separator|assumption].
  - change (GoString.Join (e :: e' :: rest') SeparatorString)
      with (e ++ String Separator (GoString.Join (e' :: rest') SeparatorString))%string.
    destruct IH as [IH1 IH2]; [congruence|assumption|].
    split.
    + rewrite last_byte_app.
      destruct (GoString.Join (e' :: rest') SeparatorString) eqn:HJ; [congruence|].
      exact IH1.
    + destruct e; [congruence|discriminate].
Qed.

Lemma rooted_Join (es : list string) :
  Forall kept es -> rooted (GoString.Join es SeparatorString) = false.
Proof.
  destruct es as [|e rest]; [reflexivity|].
  intros Hall. inversion Hall as [|? ? (Hne & _ & Hsep) Hrest]; subst.
  assert (He : rooted e = false).
  { destruct e as [|c e]; [reflexivity|]. simpl in *.
    now apply orb_false_elim in Hsep as [-> _]. }
  destruct rest as [|e' rest']; [exact He|].
  change (GoString.Join (e :: e' :: rest') SeparatorString)
    with (e ++ String Separator (GoString.Join (e' :: rest') SeparatorString))%string.
  now rewrite rooted_app.
Qed.

(** What a round of [Clean] has written is made of kept elements. *)
Lemma clean_step_kept (is_rooted : bool) (out : list string) (e : string) :
  has_separator e = false -> Forall kept out ->
  Forall kept (clean_step is_rooted out e).
Proof.
  intros Hsep Hout. unfold clean_step.
  destruct (e =? "") eqn:H1; [exact Hout|].
  destruct (e =? ".") eqn:H2; [exact Hout|]. simpl.
  apply String.eqb_neq in H1, H2.
  assert (Hk : kept e) by (repeat split; assumption).
  destruct (e =? "..").
  - destruct out as [|d out'].
    + destruct is_rooted; [constructor|constructor; [exact Hk|constructor]].
    + destruct (d =? ".."); [now constructor|now inversion Hout].
  - now constructor.
Qed.

Lemma fold_clean_kept (is_rooted : bool) (es : list string) :
  Forall (fun e => has_separator e = false) es ->
  forall out, Forall kept out ->
  Forall kept (fold_left (clean_step is_rooted) es out).
Proof.
  induction es as [|e rest IH]; intros Hall out Hout; [exact Hout|].
  inversion Hall; subst. simpl. apply IH; [assumption|].
  now apply clean_step_kept.
Qed.

Lemma clean_elements_kept (p : string) :
  Forall kept (clean_elements (rooted p) (elements p)).
Proof.
  unfold clean_elements. apply Forall_rev.
  apply fold_clean_kept; [apply elements_have_no_separator|constructor].
Qed.

Lemma kept_no_separator (es : list string) :
  Forall kept es -> Forall (fun e => has_separator e = false) es.
Proof. intros H. eapply Forall_impl; [|exact H]. now intros e (_ & _ & He). Qed.

(** The shape of a cleaned path. *)
Lemma Clean_shape (p : string) :
  p <> "" ->
  let es := clean_elements (rooted p) (elements p) in
  Clean p = ((if rooted p then SeparatorString else "")
             ++ (if rooted p then GoString.Join es SeparatorString
                 else match es with
                      | [] => "."
                      | _ => GoString.Join es SeparatorString
                      end))%string.
Proof.
  intros Hp. unfold Clean.
  destruct (p =? "") eqn:Hemp; [apply String.eqb_eq in Hemp; congruence|].
  pose proof (clean_elements_kept p) as Hk. cbv zeta.
  revert Hk. generalize (clean_elements (rooted p) (elements p)). intros es Hk.
  destruct (rooted p); [reflexivity|].
  simpl. destruct es as [|e rest]; [reflexivity|].
  destruct (last_byte_Join (e :: rest)) as [_ Hne]; [discriminate|exact Hk|].
  apply String.eqb_neq in Hne. now rewrite Hne.
Qed.

Lemma Clean_not_empty (p : string) : Clean p <> "".
Proof.
  destruct (string_dec p "") as [->|Hp]; [discriminate|].
  rewrite (Clean_shape p Hp). cbv zeta.
  pose proof (clean_elements_kept p) as Hk.
  revert Hk. generalize (clean_elements (rooted p) (elements p)). intros es Hk.
  destruct (rooted p); [discriminate|]. simpl.
  destruct es as [|e rest]; [discriminate|].
  destruct (last_byte_Join (e :: rest)) as [_ Hne]; [discriminate|exact Hk|exact Hne].
Qed.

Lemma Clean_last_separator (p : string) :
  last_byte (Clean p) = Some Separator -> Clean p = SeparatorString.
Proof.
  destruct (string_dec p "") as [->|Hp]; [discriminate|].
  rewrite (Clean_shape p Hp). cbv zeta.
  pose proof (clean_elements_kept p) as Hk.
  revert Hk. generalize (clean_elements (rooted p) (elements p)). intros es Hk.
  destruct es as [|e rest].
  - destruct (rooted p); [reflexivity|discriminate].
  - destruct (last_byte_Join (e :: rest)) as [Hlast Hne]; [discriminate|exact Hk|].
    destruct (rooted p).
    + destruct (GoString.Join (e :: rest) SeparatorString) as [|c s] eqn:HJ; [congruence|].
      unfold SeparatorString. cbn [String.append]. intros H.
      exfalso. apply Hlast. exact H.
    + intros H. contradiction.
Qed.

Lemma rooted_Clean (p : string) : p <> "" -> rooted (Clean p) = rooted p.
Proof.
  intros Hp. rewrite (Clean_shape p Hp). cbv zeta.
  pose proof (clean_elements_kept p) as Hk.
  revert Hk. generalize (clean_elements (rooted p) (elements p)). intros es Hk.
  destruct (rooted p); [reflexivity|]. simpl.
  destruct es as [|e rest]; [reflexivity|].
  now apply rooted_Join.
Qed.

Lemma elements_Clean (p : string) :
  p <> "" ->
  elements (Clean p) =
  (if rooted p then [""] else [])
  ++ match clean_elements (rooted p) (elements p) with
     | [] => [if rooted p then "" else "."]
     | es => es
     end.
Proof.
  intros Hp. rewrite (Clean_shape p Hp). cbv zeta.
  pose proof (clean_elements_kept p) as Hk.
  revert Hk. generalize (clean_elements (rooted p) (elements p)). intros es Hk.
  destruct (rooted p).
  - change (SeparatorString ++ GoString.Join es SeparatorString)%string
      with ("" ++ String Separator (GoString.Join es SeparatorString))%string.
    rewrite (elements_app "" (GoString.Join es SeparatorString)).
    destruct es as [|e rest]; [reflexivity|].
    rewrite elements_Join; [reflexivity|discriminate|now apply kept_no_separator].
  - simpl. destruct es as [|e rest]; [reflexivity|].
    rewrite elements_Join; [reflexivity|discriminate|now apply kept_no_separator].
Qed.

End PathFacts.

(** ** Resolution of cleaned and joined paths *)

Module ResolveFacts.
Import GoString GoPath WellFormed GoErrors Fs FsFacts PathFacts.

Lemma walk_first_dir (r : node) (cur : list string) (elems : list string)
  (loc : list string) :
  elems <> [] -> walk r cur elems = inr loc -> is_dir (find r cur) = true.
Proof.
  destruct elems as [|e rest]; [congruence|]. intros _. simpl.
  destruct (find r cur) as [[|m es]|]; simpl; congruence.
Qed.

Lemma walk_skip (r : node) (cur : list string) (e : string) :
  is_dir (find r cur) = true -> e = "" \/ e = "." ->
  walk r cur [e] = inr cur.
Proof.
  intros Hdir He. simpl.
  destruct (find r cur) as [[|m es]|]; try discriminate.
  now destruct He as [->| ->].
Qed.

Lemma walk_up (r : node) (cur : list string) :
  is_dir (find r cur) = true -> walk r cur [".."] = inr (tl cur).
Proof.
  intros Hdir. simpl.
  now destruct (find r cur) as [[|m es]|].
Qed.

Lemma walk_down (r : node) (cur : list string) (e : string) :
  is_dir (find r cur) = true -> e <> "" -> e <> "." -> e <> ".." ->
  walk r cur [e] = inr (e :: cur).
Proof.
  intros Hdir H1 H2 H3. simpl.
  destruct (find r cur) as [[|m es]|]; try discriminate.
  apply String.eqb_neq in H1, H2, H3. now rewrite H1, H2, H3.
Qed.

Lemma walk_down_inv (r : node) (mid cur : list string) (e : string) :
  e <> "" -> e <> "." -> e <> ".." ->
  walk r mid [e] = inr cur -> cur = e :: mid.
Proof.
  intros H1 H2 H3. simpl.
  destruct (find r mid) as [[|m es]|]; try discriminate.
  apply String.eqb_neq in H1, H2, H3. rewrite H1, H2, H3. simpl. congruence.
Qed.

(** A walk over the elements [Clean] keeps ends where the walk over all
    the elements ends, when that one succeeds. *)
Lemma walk_fold_clean (r : node) (is_rooted : bool) (st0 : list string) :
  (is_rooted = true -> st0 = []) ->
  forall (elems out cur loc : list string),
    Forall (fun d => d <> "" /\ d <> ".") out ->
    walk r st0 (rev out) = inr cur ->
    walk r cur elems = inr loc ->
    walk r st0 (rev (fold_left (clean_step is_rooted) elems out)) = inr loc.
Proof.
  intros Hroot. induction elems as [|e rest IH]; intros out cur loc Hout Hcur Hwalk.
  - simpl in *. congruence.
  - simpl in Hwalk. cbn [fold_left].
    destruct (find r cur) as [[|m es]|] eqn:Hfind; try discriminate.
    assert (Hdir : is_dir (find r cur) = true) by now rewrite Hfind.
    unfold clean_step at 2.
    destruct ((e =? "") || (e =? ".")) eqn:Hskip.
    + apply (IH out cur loc); assumption.
    + apply orb_false_elim in Hskip as [H1 H2].
      apply String.eqb_neq in H1, H2.
      destruct (e =? "..") eqn:Hup.
      * apply String.eqb_eq in Hup. subst e.
        destruct out as [|d out'].
        -- simpl in Hcur. injection Hcur as <-.
           destruct is_rooted.
           ++ rewrite (Hroot eq_refl) in *. apply (IH [] [] loc); auto.
           ++ apply (IH [".."] (tl st0) loc); [|apply walk_up; exact Hdir|exact Hwalk].
              constructor; [split; discriminate|constructor].
        -- inversion Hout as [|? ? (Hd1 & Hd2) Hout']; subst.
           simpl in Hcur. rewrite walk_app in Hcur.
           destruct (walk r st0 (rev out')) as [errno|mid] eqn:Hmid; [discriminate|].
           destruct (d =? "..") eqn:Hd.
           ++ apply (IH (".." :: d :: out') (tl cur) loc); [| |exact Hwalk].
              ** constructor; [split; discriminate|exact Hout].
              ** change (rev (".." :: d :: out')) with (rev (d :: out') ++ [".."]).
                 rewrite walk_app. simpl rev. rewrite walk_app, Hmid, Hcur.
                 now apply walk_up.
           ++ apply String.eqb_neq in Hd.
              rewrite (walk_down_inv r mid cur d Hd1 Hd2 Hd Hcur) in Hwalk.
              apply (IH out' mid loc); assumption.
      * apply String.eqb_neq in Hup.
        apply (IH (e :: out) (e :: cur) loc); [| |exact Hwalk].
        -- constructor; [now split|exact Hout].
        -- simpl. rewrite walk_app, Hcur. now apply walk_down.
Qed.

(** Cleaning a path that resolves does not change where it resolves. *)
Lemma resolve_Clean (w : World) (p : string) (loc : list string) :
  resolve w p = inr loc -> resolve w (Clean p) = inr loc.
Proof.
  unfold resolve.
  destruct (p =? "") eqn:Hp; [discriminate|]. apply String.eqb_neq in Hp.
  pose proof (Clean_not_empty p) as Hc. apply String.eqb_neq in Hc. rewrite Hc.
  unfold start. rewrite (rooted_Clean p Hp), (elements_Clean p Hp).
  intros Hwalk.
  assert (Hdir : is_dir (find (root w) (if rooted p then [] else cwd w)) = true)
    by (apply (walk_first_dir _ _ (elements p) loc); [apply elements_nonempty|exact Hwalk]).
  assert (Hclean : walk (root w) (if rooted p then [] else cwd w)
                     (clean_elements (rooted p) (elements p)) = inr loc).
  { unfold clean_elements.
    apply (walk_fold_clean (root w) (rooted p) _) with (cur := if rooted p then [] else cwd w).
    - now intros ->.
    - constructor.
    - reflexivity.
    - exact Hwalk. }
  rewrite walk_app.
  assert (Hpre : walk (root w) (if rooted p then [] else cwd w)
                   (if rooted p then [""] else [])
                 = inr (if rooted p then [] else cwd w)).
  { destruct (rooted p); [|reflexivity]. apply walk_skip; [exact Hdir|now left]. }
  rewrite Hpre.
  destruct (clean_elements (rooted p) (elements p)) as [|e rest]; [|exact Hclean].
  simpl in Hclean. injection Hclean as <-.
  apply walk_skip; [exact Hdir|]. destruct (rooted p); [now left|now right].
Qed.

Lemma valid_name_kept (name : string) :
  valid_name name = true -> kept name /\ name <> "..".
Proof.
  unfold valid_name, kept. intros H.
  apply andb_prop in H as [H Hsep]. apply andb_prop in H as [H Hup].
  apply negb_true_iff in H, Hup, Hsep.
  apply orb_false_elim in H as [H1 H2].
  apply String.eqb_neq in H1, H2, Hup. auto.
Qed.

(** The path of an entry resolves to the entry. *)
Lemma resolve_Join (w : World) (dir name : string) (loc : list string) :
  resolve w dir = inr loc ->
  is_dir (find (root w) loc) = true ->
  valid_name name = true ->
  resolve w (GoPath.Join [dir; name]) = inr (name :: loc).
Proof.
  intros Hres Hdir Hname.
  destruct (valid_name_kept name Hname) as [(H1 & H2 & Hsep) H3].
  assert (Hne : dir <> "") by (intros ->; discriminate).
  unfold GoPath.Join. apply String.eqb_neq in Hne as Hne'. rewrite Hne'.
  apply resolve_Clean.
  change (GoString.Join [dir; name] SeparatorString)
    with (dir ++ String Separator name)%string.
  unfold resolve in *. rewrite Hne' in Hres.
  assert (Hcat : (dir ++ String Separator name)%string <> "")
    by (destruct dir; discriminate).
  apply String.eqb_neq in Hcat. rewrite Hcat.
  unfold start in *. rewrite (rooted_app dir _ Hne).
  rewrite elements_app, walk_app, Hres, (elements_no_separator name Hsep).
  now apply walk_down.
Qed.

(** A directory path with a separator behind it resolves to the
    directory. *)
Lemma resolve_trailing_separator (w : World) (dir : string) (loc : list string) :
  resolve w dir = inr loc ->
  is_dir (find (root w) loc) = true ->
  resolve w (dir ++ SeparatorString) = inr loc.
Proof.
  intros Hres Hdir.
  assert (Hne : dir <> "") by (intros ->; discriminate).
  unfold resolve in *. apply String.eqb_neq in Hne as Hne'. rewrite Hne' in Hres.
  assert (Hcat : (dir ++ SeparatorString)%string <> "") by (destruct dir; discriminate).
  apply String.eqb_neq in Hcat. rewrite Hcat.
  unfold start in *. rewrite (rooted_app dir _ Hne).
  unfold SeparatorString. rewrite elements_app, walk_app, Hres.
  apply walk_skip; [exact Hdir|now left].
Qed.

(** The root resolves to the empty location. *)
Lemma resolve_root (w : World) (loc : list string) :
  resolve w SeparatorString = inr loc -> loc = [].
Proof.
  unfold resolve, start. simpl.
  destruct (root w); simpl; congruence.
Qed.

End ResolveFacts.

(** ** The recursive listing *)

Module ListFacts.
Import GoString GoPath WellFormed GoErrors Fs FsFacts PathFacts ResolveFacts.
Import Storage FileStore ListingSpec.

(** *** Well-formed trees *)

Lemma wf_entries (m : Time) (entries : list (string * node)) :
  wf_node (Dir m entries) = true ->
  forall name child, In (name, child) entries ->
    valid_name name = true /\ wf_node child = true
    /\ assoc name entries = Some child.
Proof.
  cbn [wf_node]. intros H.
  apply andb_prop in H as [H Hall]. apply andb_prop in H as [Hvalid Hdist].
  revert Hvalid Hdist Hall.
  induction entries as [|[d x] rest IH]; intros Hvalid Hdist Hall name child Hin;
    [contradiction|].
  cbn [map fst forallb distinct] in *.
  apply andb_prop in Hvalid as [Hd Hvalid].
  apply andb_prop in Hdist as [Hnew Hdist].
  apply andb_prop in Hall as [Hx Hall].
  destruct Hin as [[= -> ->]|Hin].
  - repeat split; try assumption. cbn [assoc]. now rewrite String.eqb_refl.
  - destruct (IH Hvalid Hdist Hall name child Hin) as (H1 & H2 & H3).
    repeat split; try assumption. cbn [assoc].
    destruct (d =? name) eqn:Hdn; [|exact H3].
    apply String.eqb_eq in Hdn. subst d.
    apply negb_true_iff in Hnew.
    assert (Hex : existsb (String.eqb name) (map fst rest) = true).
    { apply existsb_exists. exists name. split; [|apply String.eqb_refl].
      apply in_map_iff. now exists (name, child). }
    congruence.
Qed.

Lemma assoc_In (name : string) (entries : list (string * node)) (child : node) :
  assoc name entries = Some child -> In (name, child) entries.
Proof.
  induction entries as [|[d x] rest IH]; cbn [assoc]; [discriminate|].
  destruct (d =? name) eqn:Hd.
  - apply String.eqb_eq in Hd. intros [= ->]. subst. now left.
  - intros H. right. now apply IH.
Qed.

Lemma wf_find (r : node) (loc : list string) (n : node) :
  wf_node r = true -> find r loc = Some n -> wf_node n = true.
Proof.
  intros Hwf. revert n. induction loc as [|name up IH]; intros n; cbn [find].
  - now intros [= <-].
  - destruct (find r up) as [[|m entries]|]; try discriminate.
    intros Hassoc. apply assoc_In in Hassoc.
    now destruct (wf_entries m entries (IH _ eq_refl) name n Hassoc) as (_ & H & _).
Qed.

Lemma height_entries (m : Time) (entries : list (string * node)) :
  forall name child, In (name, child) entries ->
    height child < height (Dir m entries).
Proof.
  cbn [height]. induction entries as [|[d x] rest IH]; intros name child Hin;
    [contradiction|].
  destruct Hin as [[= -> ->]|Hin].
  - lia.
  - specialize (IH name child Hin). lia.
Qed.

Lemma height_find (r : node) (loc : list string) (n : node) :
  find r loc = Some n -> height n <= height r.
Proof.
  revert n. induction loc as [|name up IH]; intros n; cbn [find].
  - intros [= <-]. lia.
  - destruct (find r up) as [[|m entries]|]; try discriminate.
    intros Hassoc. apply assoc_In in Hassoc.
    pose proof (height_entries m entries name n Hassoc).
    specialize (IH _ eq_refl). lia.
Qed.

(** *** Stripping the base *)

Lemma HasPrefix_drop (prefix : string) :
  forall s, HasPrefix s prefix = true ->
            drop (String.length prefix) s = "" -> s = prefix.
Proof.
  induction prefix as [|p prefix IH]; intros s; cbn [HasPrefix String.length drop].
  - now intros _ ->.
  - destruct s as [|c s]; [discriminate|].
    intros H Hdrop. apply andb_prop in H as [Hc Hrest].
    apply Ascii.eqb_eq in Hc. subst c. f_equal. now apply IH.
Qed.

Lemma Join_cleaned (elem : list string) :
  GoPath.Join elem = "" \/ exists q, GoPath.Join elem = Clean q.
Proof.
  induction elem as [|e rest IH]; [now left|].
  cbn [GoPath.Join]. destruct (e =? ""); [exact IH|right; eauto].
Qed.

(** A cleaned path other than the root keeps something when a prefix
    that ends in a separator is stripped from it. *)
Lemma stripped_not_empty (baseURI path : string) :
  last_byte baseURI = Some Separator ->
  (exists q, path = Clean q) -> path <> SeparatorString ->
  stripped baseURI path <> "".
Proof.
  intros Hlast (q & ->) Hroot. unfold stripped, TrimPrefix.
  destruct (HasPrefix (Clean q) baseURI) eqn:Hpre; [|apply Clean_not_empty].
  intros Hdrop. apply Hroot. apply Clean_last_separator.
  now rewrite (HasPrefix_drop baseURI (Clean q) Hpre Hdrop).
Qed.

Lemma with_separator_last (location : string) :
  last_byte (with_separator location) = Some Separator.
Proof.
  unfold with_separator.
  destruct (last_byte location) as [c|] eqn:Hlast; [|reflexivity].
  destruct (IsPathSeparator c) eqn:Hc.
  - apply Ascii.eqb_eq in Hc. now subst c.
  - unfold SeparatorString. now rewrite last_byte_app.
Qed.

(** *** The metadata of an entry *)

Lemma objectMetaFromFileInfo_dir (info : FileInfo) (name parentDir trimPrefix : string) :
  stripped trimPrefix (GoPath.Join [parentDir; name]) <> "" ->
  objectMetaFromFileInfo info name true parentDir trimPrefix =
  Ret (Some {| Location := NewPath (with_separator
                 (stripped trimPrefix (GoPath.Join [parentDir; name])));
               LastModified := ModTime info;
               Size := 0%Z |}, None).
Proof.
  unfold objectMetaFromFileInfo, stripped, with_separator, index_last.
  intros Hne.
  destruct (last_byte (TrimPrefix (GoPath.Join [parentDir; name]) trimPrefix))
    as [c|] eqn:Hlast.
  - cbn [bind]. now destruct (IsPathSeparator c).
  - exfalso. apply Hne. revert Hlast.
    generalize (TrimPrefix (GoPath.Join [parentDir; name]) trimPrefix).
    intros l. induction l as [|x l IH]; [reflexivity|].
    cbn [last_byte]. destruct l; [discriminate|]. intros H. now specialize (IH H).
Qed.

Lemma objectMetaFromDirEntry_entry (w : World) (baseURI dir : string)
  (e : string * node) (loc : list string) :
  last_byte baseURI = Some Separator ->
  resolve w (GoPath.Join [dir; fst e]) = inr (fst e :: loc) ->
  objectMetaFromDirEntry (entry_of w e) dir baseURI
  = Ret (Some (entry_meta baseURI dir e), None).
Proof.
  intros Hlast Hres. destruct e as [name [data t|t entries]]; cbn [fst snd] in *.
  - reflexivity.
  - unfold objectMetaFromDirEntry, entry_of, Info, entry_meta.
    cbn [fst snd EntryInfo Name EntryIsDir info_of IsDir].
    rewrite objectMetaFromFileInfo_dir; [reflexivity|].
    apply stripped_not_empty; [exact Hlast| |].
    + destruct (Join_cleaned [dir; name]) as [Hemp|Hq]; [|exact Hq].
      rewrite Hemp in Hres. discriminate.
    + intros Heq. rewrite Heq in Hres. apply resolve_root in Hres. discriminate.
Qed.

(** *** The loop and the recursion *)

Lemma beneath_Dir (baseURI dir : string) (m : Time) (entries : list (string * node)) :
  beneath baseURI dir (Dir m entries) = listing baseURI dir "" entries.
Proof.
  unfold listing. cbn [beneath].
  induction entries as [|[name child] rest IH]; [reflexivity|].
  cbn [filter matches String.eqb orb flat_map fst snd].
  now rewrite IH.
Qed.

Lemma listing_cons (baseURI dir prefix : string) (e : string * node)
  (rest : list (string * node)) :
  listing baseURI dir prefix (e :: rest) =
  (if matches prefix e
   then entry_meta baseURI dir e :: beneath baseURI (GoPath.Join [dir; fst e]) (snd e)
   else [])
  ++ listing baseURI dir prefix rest.
Proof.
  unfold listing. cbn [filter]. now destruct (matches prefix e).
Qed.

(** The listing of a directory that resolves is the listing of section
    4.2, given a recursion budget of the height of the directory. *)
Lemma listFilesInDirRecursively_listing (baseURI : string) (w : World) :
  last_byte baseURI = Some Separator ->
  wf_node (root w) = true ->
  forall (fuel : nat) (dir prefix : string) (loc : list string) (m : Time)
         (entries : list (string * node)),
    resolve w dir = inr loc ->
    find (root w) loc = Some (Dir m entries) ->
    height (Dir m entries) <= fuel ->
    listFilesInDirRecursively fuel w baseURI dir prefix
    = Ret (listing baseURI dir prefix entries, None).
Proof.
  intros Hlast Hwf. induction fuel as [|fuel IH];
    intros dir prefix loc m entries Hres Hfind Hheight.
  - cbn [height] in Hheight. lia.
  - cbn [listFilesInDirRecursively]. unfold ReadDir. rewrite Hres, Hfind.
    cbn [IsNotExist].
    pose proof (wf_entries m entries (wf_find _ _ _ Hwf Hfind)) as Hentries.
    pose proof (height_entries m entries) as Hlower.
    assert (Hloop : forall rest out,
      (forall e, In e rest -> In e entries) ->
      list_loop (fun sub => listFilesInDirRecursively fuel w baseURI sub "")
        baseURI dir prefix (map (entry_of w) rest) out
      = Ret (out ++ listing baseURI dir prefix rest, None)).
    { induction rest as [|e rest IHrest]; intros out Hsub.
      - cbn [map list_loop]. unfold listing. cbn [filter flat_map].
        now rewrite app_nil_r.
      - cbn [map list_loop]. rewrite listing_cons.
        change (Name (entry_of w e)) with (fst e).
        change ((prefix =? "") || HasPrefix (fst e) prefix) with (matches prefix e).
        destruct (matches prefix e).
        + destruct e as [name child].
          destruct (Hentries name child (Hsub _ (or_introl eq_refl)))
            as (Hname & Hchild & Hassoc).
          assert (Hdir : is_dir (find (root w) loc) = true) by now rewrite Hfind.
          pose proof (resolve_Join w dir name loc Hres Hdir Hname) as Hsubres.
          rewrite (objectMetaFromDirEntry_entry w baseURI dir (name, child) loc Hlast Hsubres).
          cbn [bind deref fst snd].
          destruct child as [data t|t sub].
          * cbn [entry_of EntryIsDir info_of IsDir snd beneath].
            rewrite IHrest by (intros e He; apply Hsub; now right).
            now rewrite <- app_assoc.
          * cbn [entry_of EntryIsDir info_of IsDir snd fst].
            rewrite (IH (GoPath.Join [dir; name]) "" (name :: loc) t sub Hsubres).
            -- cbn [bind]. rewrite IHrest by (intros e He; apply Hsub; now right).
               rewrite beneath_Dir. now rewrite <- !app_assoc.
            -- cbn [find]. now rewrite Hfind.
            -- pose proof (Hlower name (Dir t sub) (Hsub _ (or_introl eq_refl))). lia.
        + apply IHrest. intros e' He. apply Hsub. now right. }
    now rewrite Hloop.
Qed.

(** *** List *)

Lemma last_byte_some (s : string) : s <> "" -> exists c, last_byte s = Some c.
Proof.
  induction s as [|x s IH]; [congruence|]. intros _.
  destruct s as [|y s]; [now exists x|].
  destruct IH as [c Hc]; [discriminate|]. now exists c.
Qed.

Lemma with_separator_root (base : string) :
  with_separator base = SeparatorString -> base = "" \/ base = SeparatorString.
Proof.
  unfold with_separator.
  destruct (last_byte base) as [c|] eqn:Hlast.
  - destruct (IsPathSeparator c); [now right|].
    destruct base as [|x base]; [now left|].
    destruct base; discriminate.
  - destruct base as [|x base]; [now left|].
    destruct (last_byte_some (String x base)) as [c Hc]; [discriminate|congruence].
Qed.

(** The entry for the directory part of the prefix. *)
Lemma self_entry (info : FileInfo) (base dir : string) :
  base <> "" -> base <> SeparatorString -> dir <> "" ->
  objectMetaFromFileInfo info dir true "" (stripped_base base)
  = Ret (Some (self_meta (stripped_base base) dir (ModTime info)), None).
Proof.
  intros Hbase Hroot Hdir. unfold self_meta.
  apply objectMetaFromFileInfo_dir.
  unfold stripped, TrimPrefix, stripped_base.
  destruct (Join_cleaned [""; dir]) as [Hemp|(q & Hq)].
  - cbn [GoPath.Join String.eqb] in Hemp. apply String.eqb_neq in Hdir.
    rewrite Hdir in Hemp. now apply Clean_not_empty in Hemp.
  - rewrite Hq.
    destruct (HasPrefix (Clean q) (with_separator base)) eqn:Hpre;
      [|apply Clean_not_empty].
    intros Hdrop.
    pose proof (HasPrefix_drop (with_separator base) (Clean q) Hpre Hdrop) as Heq.
    assert (Hsep : Clean q = SeparatorString).
    { apply Clean_last_separator. rewrite Heq. apply with_separator_last. }
    rewrite Hsep in Heq. symmetry in Heq.
    destruct (with_separator_root base Heq); contradiction.
Qed.

(** What List returns for a prefix whose directory part resolves to a
    directory with the entries [entries]. *)
Lemma List_listing (fuel : nat) (s : FileObjectStore) (prefix : Path) (w : World)
  (dir filePrefix : string) (loc : list string) (m : Time)
  (entries : list (string * node)) :
  GoPath.Split (Raw prefix) = (dir, filePrefix) ->
  Raw (BaseURI s) <> "" ->
  Raw (BaseURI s) <> SeparatorString ->
  wf_node (root w) = true ->
  resolve w (GoPath.Join [Raw (BaseURI s); dir]) = inr loc ->
  find (root w) loc = Some (Dir m entries) ->
  height (Dir m entries) <= fuel ->
  List fuel s prefix w =
  Ret (listing (stripped_base (Raw (BaseURI s)))
         (listed_dir (Raw (BaseURI s)) dir filePrefix) filePrefix entries
       ++ (if negb (dir =? "") && (filePrefix =? "")
           then [self_meta (stripped_base (Raw (BaseURI s))) dir m]
           else []),
       None).
Proof.
  intros Hsplit Hbase Hroot Hwf Hres Hfind Hheight.
  unfold List. rewrite Hsplit.
  set (base := Raw (BaseURI s)) in *.
  assert (Hfull : GoPath.Join [base; dir] <> "") by (intros Heq; rewrite Heq in Hres; discriminate).
  destruct (last_byte_some _ Hfull) as [c Hc].
  destruct (last_byte_some _ Hbase) as [b Hb].
  assert (Hdirstep :
    (if filePrefix =? ""
     then c0 <- index_last (GoPath.Join [base; dir]) ;;
          (if negb (IsPathSeparator c0)
           then Ret (GoPath.Join [base; dir] ++ SeparatorString)%string
           else Ret (GoPath.Join [base; dir]))
     else Ret (GoPath.Join [base; dir]))
    = Ret (listed_dir base dir filePrefix)).
  { unfold listed_dir, with_separator, index_last. rewrite Hc. cbn [bind].
    destruct (filePrefix =? ""); [|reflexivity].
    now destruct (IsPathSeparator c). }
  rewrite Hdirstep. cbn [bind].
  unfold index_last at 1. rewrite Hb. cbn [bind].
  assert (Huri : (if negb (IsPathSeparator b)
                  then (base ++ SeparatorString)%string else base)
                 = stripped_base base).
  { unfold stripped_base, with_separator. rewrite Hb.
    now destruct (IsPathSeparator b). }
  rewrite Huri.
  assert (Hdir : is_dir (find (root w) loc) = true) by now rewrite Hfind.
  assert (Hlisted : resolve w (listed_dir base dir filePrefix) = inr loc).
  { unfold listed_dir, with_separator. rewrite Hc.
    destruct (filePrefix =? ""); [|exact Hres].
    destruct (IsPathSeparator c); [exact Hres|].
    now apply resolve_trailing_separator. }
  rewrite (listFilesInDirRecursively_listing (stripped_base base) w
             (with_separator_last base) Hwf fuel _ filePrefix loc m entries
             Hlisted Hfind Hheight).
  cbn [bind].
  destruct (negb (dir =? "") && (filePrefix =? "")) eqn:Hself;
    [|now rewrite app_nil_r].
  rewrite (OsFacts.Stat_found w _ loc (Dir m entries) Hres Hfind).
  cbn [is_nil negb andb deref bind info_of].
  apply andb_prop in Hself as [Hd _]. apply negb_true_iff in Hd.
  apply String.eqb_neq in Hd.
  rewrite (self_entry _ base dir Hbase Hroot Hd).
  reflexivity.
Qed.

(** For a store whose BaseURI is neither empty nor the root of the host:
    whenever the prefix passed to List has a non-empty directory part and
    an empty name-prefix part, and the directory part names a directory
    that exists, List returns what it finds beneath that directory and,
    after it, an entry with size 0, the time the directory was modified,
    and for location the cleaned directory part, the base stripped from
    its front when it starts with it, and a separator behind it. *)
Lemma List_adds_the_directory_itself (fuel : nat) (s : FileObjectStore)
  (prefix : Path) (w : Fs.World) (dir : string) (info : Fs.FileInfo) :
  Raw (BaseURI s) <> "" ->
  Raw (BaseURI s) <> GoPath.SeparatorString ->
  wf_node (Fs.root w) = true ->
  height (Fs.root w) <= fuel ->
  GoPath.Split (Raw prefix) = (dir, "") ->
  dir <> "" ->
  Fs.Stat w (GoPath.Join [Raw (BaseURI s); dir]) = (Some info, None) ->
  Fs.IsDir info = true ->
  exists beneath_it,
    List fuel s prefix w =
    Ret (beneath_it
         ++ [{| Location := NewPath (with_separator
                   (stripped (stripped_base (Raw (BaseURI s))) (GoPath.Clean dir)));
                LastModified := Fs.ModTime info;
                Size := 0%Z |}], None).
Proof.
  intros Hbase Hroot Hwf Hfuel Hsplit Hdir Hstat Hisdir.
  unfold Fs.Stat in Hstat.
  destruct (Fs.resolve w (GoPath.Join [Raw (BaseURI s); dir])) as [e|loc] eqn:Hres;
    [discriminate|].
  destruct (Fs.find (Fs.root w) loc) as [[data t|m entries]|] eqn:Hfind;
    try discriminate; injection Hstat as <-; [discriminate|].
  eexists.
  rewrite (List_listing fuel s prefix w dir "" loc m entries
             Hsplit Hbase Hroot Hwf Hres Hfind).
  - apply String.eqb_neq in Hdir as Hd. rewrite Hd. cbn [negb andb String.eqb].
    unfold self_meta. cbn [GoPath.Join String.eqb]. rewrite Hd.
    reflexivity.
  - pose proof (height_find (Fs.root w) loc _ Hfind). lia.
Qed.

(** The prefix [a/] on the store that holds [a/x] and [a/b/y]. *)
Example List_adds_the_directory_itself_example :
  exists beneath_it,
    List 5 Example.store (NewPath "a/")
      (Example.nested (Example.bytes "x") (Example.bytes "y")) =
    Ret (beneath_it
         ++ [{| Location := NewPath "a/"; LastModified := 7%Z; Size := 0%Z |}], None).
Proof.
  apply (List_adds_the_directory_itself 5 Example.store (NewPath "a/")
           (Example.nested (Example.bytes "x") (Example.bytes "y")) "a/"
           {| Fs.Size := 4096%Z; Fs.ModTime := 7%Z; Fs.IsDir := true |});
    try (vm_compute; reflexivity); discriminate.
Qed.

End ListFacts.


(** ** The store *)

Module StoreFacts.
Import GoErrors Storage FileStore OsFacts.

(** [Head] of an object that is there. *)
Lemma Head_found (s : FileObjectStore) (location : Path) (w : Fs.World)
  (info : Fs.FileInfo) :
  Fs.Stat w (GoPath.Join [Raw (BaseURI s); Raw location]) = (Some info, None) ->
  Head s location w =
  Ret ({| Location := {| Raw := GoPath.Join [Raw (BaseURI s); Raw location] |};
          LastModified := Fs.ModTime info;
          Size := Fs.Size info |},
       if Fs.IsDir info then Some (ErrorsNew ErrorObjectIsDir) else None).
Proof.
  intros Hstat. unfold Head. rewrite Hstat. simpl.
  now destruct (Fs.IsDir info).
Qed.

(** [Head] when [Stat] reports that nothing is there. *)
Lemma Head_missing (s : FileObjectStore) (location : Path) (w : Fs.World) :
  IsNotExist (snd (Fs.Stat w (GoPath.Join [Raw (BaseURI s); Raw location]))) = true ->
  exists e, Head s location w = Ret (zeroObjectMeta, e)
            /\ Is e ErrorObjectDoesNotExist = true.
Proof.
  intros Hne. unfold Head.
  destruct (Fs.Stat w (GoPath.Join [Raw (BaseURI s); Raw location])) as [info e].
  simpl in Hne. rewrite Hne.
  eexists. split; [reflexivity|].
  destruct e as [e|]; [reflexivity|discriminate].
Qed.

(** [Head] when [Stat] fails otherwise. *)
Lemma Head_panics (s : FileObjectStore) (location : Path) (w : Fs.World) (e : err) :
  snd (Fs.Stat w (GoPath.Join [Raw (BaseURI s); Raw location])) = Some e ->
  IsNotExist (Some e) = false ->
  Head s location w = Panic nil_dereference.
Proof.
  intros Herr Hne. unfold Head.
  pose proof (Stat_error_nil _ _ _ Herr) as Hnil.
  destruct (Fs.Stat w (GoPath.Join [Raw (BaseURI s); Raw location])) as [info e'].
  cbn [fst snd] in Herr, Hnil. subst info e'. now rewrite Hne.
Qed.

(** The error of [Get] is the error of [ReadFile]: it matches none of the
    error variables of the store. *)
Lemma Get_error_not_wrapped (s : FileObjectStore) (location : Path) (w : Fs.World)
  (data : list Byte.byte) (e : error) (v : ErrorVar) :
  Get s location w = Ret (data, e) -> Is e v = false.
Proof.
  unfold Get, Fs.ReadFile.
  destruct (Fs.resolve w _) as [errno|loc].
  - intros [= <- <-]. reflexivity.
  - destruct (Fs.find (Fs.root w) loc) as [[d t|m es]|]; intros [= <- <-]; reflexivity.
Qed.

(** The destination is there: the call fails and touches nothing. *)
Lemma RenameIfNotExists_found (s : FileObjectStore) (from to : Path) (w : Fs.World)
  (info : Fs.FileInfo) :
  Fs.Stat w (GoPath.Join [Raw (BaseURI s); Raw to]) = (Some info, None) ->
  RenameIfNotExists s from to w = Ret (Some (already_exists to), w).
Proof.
  intros Hstat. unfold RenameIfNotExists.
  rewrite (Head_found s to w info Hstat). simpl.
  now destruct (Fs.IsDir info).
Qed.

(** [Stat] reports that nothing is at the destination: the call is
    [Rename]. *)
Lemma RenameIfNotExists_missing (s : FileObjectStore) (from to : Path) (w : Fs.World) :
  IsNotExist (snd (Fs.Stat w (GoPath.Join [Raw (BaseURI s); Raw to]))) = true ->
  RenameIfNotExists s from to w = Rename s from to w.
Proof.
  intros Hne. unfold RenameIfNotExists.
  destruct (Head_missing s to w Hne) as (e & -> & He). simpl. rewrite He. simpl.
  unfold Rename.
  destruct (Fs.Rename w _ _) as [w' [e'|]]; reflexivity.
Qed.

(** A call that succeeds found nothing at the destination and renamed. *)
Lemma RenameIfNotExists_succeeded (s : FileObjectStore) (from to : Path)
  (w w' : Fs.World) :
  RenameIfNotExists s from to w = Ret (None, w') ->
  fst (Fs.Stat w (GoPath.Join [Raw (BaseURI s); Raw to])) = None
  /\ Fs.Rename w (GoPath.Join [Raw (BaseURI s); Raw from])
       (GoPath.Join [Raw (BaseURI s); Raw to]) = (w', None).
Proof.
  intros Hok.
  destruct (Stat_cases w (GoPath.Join [Raw (BaseURI s); Raw to]))
    as [(info & Hstat)|(e & Hstat)].
  - rewrite (RenameIfNotExists_found s from to w info Hstat) in Hok. discriminate.
  - split; [now rewrite Hstat|].
    destruct (IsNotExist (Some e)) eqn:Hne.
    + rewrite RenameIfNotExists_missing in Hok by now rewrite Hstat.
      unfold Rename, Path_Join in Hok. simpl in Hok.
      destruct (Fs.Rename w _ _) as [w1 [e1|]]; [discriminate|].
      now injection Hok as <-.
    + unfold RenameIfNotExists in Hok.
      rewrite (Head_panics s to w e) in Hok; [discriminate| |exact Hne].
      now rewrite Hstat.
Qed.



End StoreFacts.

(** ** What a change of the tree leaves alone *)

Module FrameFacts.
Import GoErrors Fs FsFacts OsFacts.

Lemma found_below_leaf (o : option node) (loc : list string) :
  leaf o = true -> loc <> [] -> found o loc = None.
Proof.
  intros Hleaf Hloc.
  destruct (last_split loc) as [->|(front & x & ->)]; [congruence|].
  destruct o as [[d t|m [|e es]]|]; simpl in *; try discriminate;
    try reflexivity; now rewrite find_app.
Qed.

Lemma kind_not_Directory_leaf (o : option node) :
  kind_of o <> Directory -> leaf o = true.
Proof. destruct o as [[d t|m es]|]; simpl; congruence. Qed.

Lemma kind_Directory (o : option node) :
  kind_of o = Directory <-> is_dir o = true.
Proof. destruct o as [[d t|m es]|]; simpl; split; congruence. Qed.

Lemma kind_FileOf (o : option node) (d : list Byte.byte) (t : Time) :
  kind_of o = FileOf d t <-> o = Some (File d t).
Proof. destruct o as [[d' t'|m es]|]; simpl; split; congruence. Qed.

Lemma kind_Absent (o : option node) : kind_of o = Absent <-> o = None.
Proof. destruct o as [[d' t'|m es]|]; simpl; split; congruence. Qed.

Lemma agree_off_refl (holes : list (list string)) (a : option node) :
  agree_off holes a a.
Proof. intros loc _. reflexivity. Qed.

Lemma agree_off_trans (first second : list (list string)) (a b c : option node) :
  agree_off first a b -> agree_off second b c -> agree_off (first ++ second) a c.
Proof.
  intros Hab Hbc loc Hloc.
  rewrite Hab, Hbc; [reflexivity| |]; intro Hin; apply Hloc, in_or_app; auto.
Qed.

Lemma agree_off_at (holes : list (list string)) (r r' : node) (loc : list string) :
  agree_off holes (Some r) (Some r') -> ~ In loc holes ->
  kind_of (find r loc) = kind_of (find r' loc).
Proof. intros Hagree Hout. exact (Hagree loc Hout). Qed.

(** Leaves agree everywhere but at their own place. *)
Lemma agree_off_leaf (a b : option node) :
  leaf a = true -> leaf b = true -> agree_off [[]] a b.
Proof.
  intros Ha Hb loc Hloc.
  assert (Hne : loc <> []) by (intro; apply Hloc; left; congruence).
  now rewrite !found_below_leaf.
Qed.

(** A directory with one entry changed. *)
Lemma agree_off_entry (m m' : Time) (entries entries' : list (string * node))
  (name : string) (holes : list (list string)) :
  agree_off holes (assoc name entries) (assoc name entries') ->
  (forall other, other <> name -> assoc other entries' = assoc other entries) ->
  agree_off (map (fun h => h ++ [name]) holes)
    (Some (Dir m entries)) (Some (Dir m' entries')).
Proof.
  intros Hsame Hother loc Hloc.
  destruct (last_split loc) as [->|(front & x & ->)]; [reflexivity|].
  cbn [found]. rewrite !find_app. cbn [find].
  destruct (string_dec x name) as [->|Hne].
  - apply (Hsame front). intro Hin. apply Hloc.
    apply in_map_iff. now exists front.
  - now rewrite Hother.
Qed.

(** A tree with one node replaced. *)
Lemma agree_off_replace (loc : list string) :
  forall (r : node) (a : option node) (b : node) (holes : list (list string)),
    (loc = [] \/ is_dir (find r (tl loc)) = true) ->
    find r loc = a ->
    agree_off holes a (Some b) ->
    agree_off (map (fun h => h ++ loc) holes) (Some r) (Some (replace r loc b)).
Proof.
  induction loc as [|name up IH]; intros r a b holes Hpar Hfind Hsame.
  - simpl in *. subst a.
    rewrite (map_ext _ (fun h => h) (fun h => app_nil_r h)), map_id. exact Hsame.
  - destruct Hpar as [Hnil|Hpar]; [discriminate|]. simpl in Hpar.
    cbn [replace]. cbn [find] in Hfind.
    destruct (find r up) as [[|m entries]|] eqn:Hup; try discriminate.
    assert (Hmap : map (fun h => h ++ name :: up) holes
                   = map (fun h => h ++ up) (map (fun h => h ++ [name]) holes)).
    { rewrite map_map. apply map_ext. intro h. now rewrite <- app_assoc. }
    rewrite Hmap.
    apply (IH r (Some (Dir m entries))).
    + destruct up as [|n up']; [now left|right].
      eapply find_parent; exact Hup.
    + exact Hup.
    + apply agree_off_entry.
      * rewrite assoc_set_entry_same. now subst a.
      * intros other Hne. now apply assoc_set_entry_other.
Qed.

(** A tree with a file, an empty directory or nothing removed. *)
Lemma agree_off_remove (r : node) (loc : list string) :
  leaf (find r loc) = true ->
  agree_off [loc] (Some r) (Some (remove r loc)).
Proof.
  intros Hleaf.
  destruct loc as [|name up]; [apply agree_off_refl|].
  cbn [remove]. cbn [find] in Hleaf.
  destruct (find r up) as [[|m entries]|] eqn:Hup; try apply agree_off_refl.
  apply (agree_off_replace up r (Some (Dir m entries)) _ [[name]]).
  - destruct up as [|n up']; [now left|right].
    eapply find_parent; exact Hup.
  - exact Hup.
  - apply (agree_off_entry m m entries _ name [[]]).
    + rewrite assoc_del_entry_same. now apply agree_off_leaf.
    + intros other Hne. now apply assoc_del_entry_other.
Qed.

Lemma find_remove_same (r : node) (name : string) (up : list string) :
  find (remove r (name :: up)) (name :: up) = None.
Proof.
  cbn [remove].
  destruct (find r up) as [[|m entries]|] eqn:Hup.
  - cbn [find]. now rewrite Hup.
  - cbn [find]. rewrite find_replace_same.
    + apply assoc_del_entry_same.
    + destruct up as [|n up']; [now left|right].
      eapply find_parent; exact Hup.
  - cbn [find]. now rewrite Hup.
Qed.

(** A walk that succeeds succeeds alike in a tree that keeps the
    directories. *)
Lemma walk_kept (r r' : node) (elems : list string) :
  (forall loc, is_dir (find r loc) = true -> is_dir (find r' loc) = true) ->
  forall cur loc, walk r cur elems = inr loc -> walk r' cur elems = inr loc.
Proof.
  intros Hkept. induction elems as [|e rest IH]; intros cur loc; simpl; [auto|].
  specialize (Hkept cur).
  destruct (find r cur) as [[|m es]|]; try discriminate.
  specialize (Hkept eq_refl).
  destruct (find r' cur) as [[|m' es']|]; try discriminate.
  destruct ((e =? "") || (e =? ".")); [apply IH|].
  destruct (e =? ".."); apply IH.
Qed.

Lemma resolve_kept (w w' : World) (p : string) (loc : list string) :
  cwd w' = cwd w ->
  (forall l, is_dir (find (root w) l) = true -> is_dir (find (root w') l) = true) ->
  resolve w p = inr loc -> resolve w' p = inr loc.
Proof.
  unfold resolve, start. intros -> Hkept.
  destruct (p =? ""); [discriminate|].
  now apply walk_kept.
Qed.

(** Directories outside the holes are kept when no hole was a directory. *)
Lemma agree_off_dirs (holes : list (list string)) (r r' : node) :
  agree_off holes (Some r) (Some r') ->
  (forall h, In h holes -> is_dir (find r h) = false) ->
  forall loc, is_dir (find r loc) = true -> is_dir (find r' loc) = true.
Proof.
  intros Hagree Hholes loc Hdir.
  assert (Hne : ~ In loc holes).
  { intro Hin. rewrite (Hholes loc Hin) in Hdir. discriminate. }
  specialize (Hagree loc Hne). cbn [found] in Hagree.
  apply kind_Directory. rewrite <- Hagree. now apply kind_Directory.
Qed.

(** *** [MkdirAll] keeps what is there *)

Lemma mkdir_walk_keeps (t : Time) (elems : list string) :
  forall (r : node) (cur : list string) (r' : node) (res : Errno + list string),
    mkdir_walk t r cur elems = (r', res) ->
    forall loc, find r loc <> None ->
                kind_of (find r' loc) = kind_of (find r loc).
Proof.
  induction elems as [|e rest IH]; intros r cur r' res; cbn [mkdir_walk].
  - now intros [= <- <-].
  - destruct (find r cur) as [[|m entries]|] eqn:Hcur;
      try (now intros [= <- <-]).
    destruct ((e =? "") || (e =? ".")); [apply IH|].
    destruct (e =? ".."); [apply IH|].
    destruct (assoc e entries) eqn:Hnew; [apply IH|].
    intros Hwalk loc Hloc.
    assert (Hstep : agree_off [e :: cur] (Some r)
                      (Some (replace r (e :: cur) (Dir t [])))).
    { apply (agree_off_replace (e :: cur) r None (Dir t []) [[]]).
      - right. simpl. now rewrite Hcur.
      - cbn [find]. now rewrite Hcur.
      - now apply agree_off_leaf. }
    assert (Hne : ~ In loc [e :: cur]).
    { intros [<-|[]]. apply Hloc. cbn [find]. now rewrite Hcur. }
    specialize (Hstep loc Hne). cbn [found] in Hstep.
    rewrite Hstep. apply (IH _ _ _ _ Hwalk).
    intro Hnone. rewrite Hnone in Hstep. apply Hloc.
    now apply kind_Absent.
Qed.

Lemma MkdirAll_keeps (w w1 : World) (path : string) (e : error) :
  MkdirAll w path = (w1, e) ->
  cwd w1 = cwd w /\ now w1 = now w
  /\ forall loc, find (root w) loc <> None ->
                 kind_of (find (root w1) loc) = kind_of (find (root w) loc).
Proof.
  unfold MkdirAll. destruct (path =? "").
  - intros [= <- <-]. auto.
  - destruct (mkdir_walk (now w) (root w) (start w path) (GoPath.elements path))
      as [r [errno|loc]] eqn:Hwalk.
    + intros [= <- <-]. repeat split. apply (mkdir_walk_keeps _ _ _ _ _ _ Hwalk).
    + assert (Hgoal : cwd (with_root w r) = cwd w /\ now (with_root w r) = now w
                      /\ forall l, find (root w) l <> None ->
                           kind_of (find (root (with_root w r)) l)
                           = kind_of (find (root w) l)).
      { repeat split. apply (mkdir_walk_keeps _ _ _ _ _ _ Hwalk). }
      destruct (find r loc) as [[|]|]; now intros [= <- <-].
Qed.

Lemma MkdirAll_file_limit (w w1 : World) (path : string) (e : error) :
  MkdirAll w path = (w1, e) -> file_limit w1 = file_limit w.
Proof.
  unfold MkdirAll. destruct (path =? ""); [now intros [= <- <-]|].
  destruct (mkdir_walk (now w) (root w) (start w path) (GoPath.elements path))
    as [r [errno|loc]]; [now intros [= <- <-]|].
  destruct (find r loc) as [[|]|]; now intros [= <- <-].
Qed.

(** *** [WriteFile] changes one place *)

(** A [WriteFile] that got past the open, whether the write failed or
    not. *)
Lemma WriteFile_stored (w w' : World) (name : string) (data : list Byte.byte)
  (e : error) :
  WriteFile w name data = (w', e) ->
  (w' = w /\ exists errno, e = Some (PathError "open" name errno))
  \/ exists loc,
       resolve w name = inr loc
       /\ is_dir (find (root w) loc) = false
       /\ resolve w' name = inr loc
       /\ find (root w') loc = Some (File (fst (written w data)) (now w))
       /\ cwd w' = cwd w
       /\ agree_off [loc] (Some (root w)) (Some (root w'))
       /\ e = match snd (written w data) with
              | Some errno => Some (PathError "write" name errno)
              | None => None
              end.
Proof.
  intros Hwrite.
  destruct (WriteFile_cases w w' name data e Hwrite)
    as [Hopen|(loc & Hres & Hnodir & Hpar & -> & He)]; [now left|right].
  exists loc.
  assert (Hagree : agree_off [loc] (Some (root w))
                     (Some (replace (root w) loc
                              (File (fst (written w data)) (now w))))).
  { apply (agree_off_replace loc (root w) (find (root w) loc) _ [[]]);
      [exact Hpar|reflexivity|].
    apply agree_off_leaf; [|reflexivity].
    apply kind_not_Directory_leaf. intro Hk.
    apply kind_Directory in Hk. congruence. }
  repeat split; try assumption.
  - apply (resolve_kept w); [reflexivity| |exact Hres].
    apply (agree_off_dirs [loc]); [exact Hagree|].
    intros h [<-|[]]. exact Hnodir.
  - unfold with_root. cbn [root]. now apply find_replace_same.
Qed.

Lemma WriteFile_frame (w w' : World) (name : string) (data : list Byte.byte) :
  WriteFile w name data = (w', None) ->
  exists loc,
    resolve w name = inr loc
    /\ is_dir (find (root w) loc) = false
    /\ resolve w' name = inr loc
    /\ find (root w') loc = Some (File data (now w))
    /\ cwd w' = cwd w
    /\ agree_off [loc] (Some (root w)) (Some (root w')).
Proof.
  intros Hwrite.
  destruct (WriteFile_stored w w' name data None Hwrite)
    as [(_ & errno & He)|(loc & Hres & Hnodir & Hres' & Hf & Hcwd & Hagree & He)];
    [discriminate|].
  rewrite written_all in Hf by (now destruct (snd (written w data))).
  now exists loc.
Qed.

End FrameFacts.
(** ** Renaming and removing *)

Module ChangeFacts.
Import GoErrors Fs FsFacts OsFacts PathFacts ResolveFacts FrameFacts.

(** A path resolves only in a tree whose root is a directory. *)
Lemma resolve_root_dir (w : World) (p : string) (loc : list string) :
  resolve w p = inr loc -> is_dir (Some (root w)) = true.
Proof.
  unfold resolve. destruct (p =? ""); [discriminate|]. intros Hwalk.
  apply walk_first_dir in Hwalk; [|apply elements_nonempty].
  destruct (root w) as [d t|m es]; [|reflexivity].
  now rewrite find_File in Hwalk.
Qed.




Lemma sys_rename_error (w w' : World) (oldname newname : string) (e : Errno) :
  sys_rename w oldname newname = (w', Some e) -> w' = w.
Proof.
  unfold sys_rename.
  repeat match goal with
         | |- context [match ?x with _ => _ end] => destruct x
         end; congruence.
Qed.

Lemma Rename_error (w w' : World) (oldname newname : string) (e : err) :
  Rename w oldname newname = (w', Some e) -> w' = w.
Proof.
  unfold Rename.
  match goal with
  | |- context [match ?x with Some e => (w, _) | None => _ end] => destruct x
  end; [congruence|].
  destruct (sys_rename w oldname newname) as [w1 [errno|]] eqn:Hsys; [|discriminate].
  intros [= <- _]. now apply sys_rename_error in Hsys.
Qed.

Lemma Rename_sys (w w' : World) (oldname newname : string) :
  Rename w oldname newname = (w', None) ->
  sys_rename w oldname newname = (w', None).
Proof.
  unfold Rename.
  match goal with
  | |- context [match ?x with Some e => (w, _) | None => _ end] => destruct x
  end; [discriminate|].
  destruct (sys_rename w oldname newname) as [w1 [errno|]]; [discriminate|].
  now intros [= <-].
Qed.

(** A successful [rename(2)] of a file: either both names are the file
    and nothing changes, or the file is under the new name, nothing is
    under the old one, and every other place is as before. *)
Lemma sys_rename_frame (w w' : World) (oldname newname : string)
  (data : list Byte.byte) (t : Time) (lo : list string) :
  resolve w oldname = inr lo ->
  find (root w) lo = Some (File data t) ->
  sys_rename w oldname newname = (w', None) ->
  exists ln,
    resolve w newname = inr ln
    /\ ((w' = w /\ ln = lo)
        \/ (ln <> lo
            /\ is_dir (find (root w) ln) = false
            /\ cwd w' = cwd w
            /\ agree_off [lo; ln] (Some (root w)) (Some (root w'))
            /\ find (root w') ln = Some (File data t)
            /\ find (root w') lo = None)).
Proof.
  intros Hlo Hsrc. unfold sys_rename. rewrite Hlo, Hsrc.
  destruct (resolve w newname) as [errno|ln] eqn:Hln; [discriminate|].
  destruct (list_eq_dec string_dec lo ln) as [<-|Hne].
  { intros [= <-]. exists lo. auto. }
  destruct (below lo ln); [discriminate|].
  assert (Hlo_cons : exists name up, lo = name :: up).
  { destruct lo as [|name up]; [|eauto]. exfalso.
    apply resolve_root_dir in Hlo. simpl in Hsrc. injection Hsrc as Hroot.
    rewrite Hroot in Hlo. discriminate. }
  assert (Hmoved :
    is_dir (find (root w) ln) = false ->
    (ln = [] \/ is_dir (find (root w) (tl ln)) = true) ->
    w' = with_root w (replace (remove (root w) lo) ln (File data t)) ->
    exists ln0,
      inr ln = @inr Errno _ ln0
      /\ ((w' = w /\ ln0 = lo)
          \/ (ln0 <> lo
              /\ is_dir (find (root w) ln0) = false
              /\ cwd w' = cwd w
              /\ agree_off [lo; ln0] (Some (root w)) (Some (root w'))
              /\ find (root w') ln0 = Some (File data t)
              /\ find (root w') lo = None))).
  { intros Hnodir Hpar ->. exists ln. split; [reflexivity|right].
    assert (Hrm : agree_off [lo] (Some (root w)) (Some (remove (root w) lo))).
    { apply agree_off_remove. now rewrite Hsrc. }
    assert (Hat : forall l, l <> lo ->
              kind_of (find (remove (root w) lo) l) = kind_of (find (root w) l)).
    { intros l Hl. symmetry. apply (Hrm l). intros [->|[]]. congruence. }
    assert (Hpar' : ln = [] \/ is_dir (find (remove (root w) lo) (tl ln)) = true).
    { destruct Hpar as [->|Hpar]; [now left|right].
      apply kind_Directory. rewrite Hat; [now apply kind_Directory|].
      intros Heq. rewrite Heq, Hsrc in Hpar. discriminate. }
    assert (Hput : agree_off [ln] (Some (remove (root w) lo))
                     (Some (replace (remove (root w) lo) ln (File data t)))).
    { apply (agree_off_replace ln _ (find (remove (root w) lo) ln) _ [[]]);
        [exact Hpar'|reflexivity|].
      apply agree_off_leaf; [|reflexivity].
      apply kind_not_Directory_leaf. rewrite Hat by congruence.
      intro Hk. apply kind_Directory in Hk. congruence. }
    repeat split.
    - congruence.
    - exact Hnodir.
    - apply (agree_off_trans [lo] [ln] _ _ _ Hrm Hput).
    - unfold with_root. cbn [root]. now apply find_replace_same.
    - unfold with_root. cbn [root]. apply kind_Absent.
      assert (Hout : ~ In lo [ln]) by (intros [->|[]]; congruence).
      specialize (Hput lo Hout). cbn [found] in Hput. rewrite <- Hput.
      apply kind_Absent.
      destruct Hlo_cons as (name & up & ->). apply find_remove_same. }
  destruct (find (root w) ln) as [[d' t'|m es]|] eqn:Hn.
  - intros [= <-]. apply Hmoved; [reflexivity| |reflexivity].
    destruct ln as [|c up]; [now left|right]. simpl.
    eapply find_parent; exact Hn.
  - destruct es; discriminate.
  - destruct ln as [|c up]; [discriminate|].
    destruct (is_dir (find (root w) up)) eqn:Hup; [|discriminate].
    intros [= <-]. apply Hmoved; [reflexivity|now right|reflexivity].
Qed.

(** [Remove] of a file. *)
Lemma Remove_file (w : World) (name : string) (loc : list string)
  (data : list Byte.byte) (t : Time) :
  resolve w name = inr loc ->
  find (root w) loc = Some (File data t) ->
  Remove w name = (with_root w (remove (root w) loc), None).
Proof. intros Hres Hf. unfold Remove, sys_unlink. now rewrite Hres, Hf. Qed.

(** A [Remove] that fails changes nothing. *)
Lemma Remove_error (w w' : World) (name : string) (e : err) :
  Remove w name = (w', Some e) ->
  w' = w /\ exists errno, e = PathError "remove" name errno.
Proof.
  unfold Remove.
  destruct (sys_unlink w name) as [w1 [e1|]]; [|discriminate].
  destruct (sys_rmdir w name) as [w2 [e2|]]; [|discriminate].
  intros [= <- <-]. eauto.
Qed.

(** [Remove] where [Stat] reports that nothing is there. *)
Lemma Remove_missing (w : World) (name : string) :
  IsNotExist (snd (Stat w name)) = true ->
  Remove w name = (w, Some (PathError "remove" name ENOENT)).
Proof.
  unfold Stat, Remove, sys_unlink, sys_rmdir.
  destruct (resolve w name) as [errno|loc].
  - simpl. destruct errno; try discriminate. reflexivity.
  - destruct (find (root w) loc); [discriminate|reflexivity].
Qed.

(** [Remove] of a directory that is not empty. *)
Lemma Remove_not_empty (w : World) (name : string) (loc : list string)
  (m : Time) (e : string * node) (entries : list (string * node)) :
  resolve w name = inr loc ->
  find (root w) loc = Some (Dir m (e :: entries)) ->
  exists errno, Remove w name = (w, Some (PathError "remove" name errno)).
Proof.
  intros Hres Hf. unfold Remove, sys_unlink, sys_rmdir. rewrite Hres, Hf.
  destruct (last_element name =? "."); [eauto|].
  destruct (last_element name =? ".."); eauto.
Qed.

(** What a successful [Remove] removed was a file or an empty directory,
    and every other place is as before. *)
Lemma Remove_frame (w w' : World) (name : string) :
  Remove w name = (w', None) ->
  exists loc,
    resolve w name = inr loc
    /\ leaf (find (root w) loc) = true
    /\ find (root w) loc <> None
    /\ cwd w' = cwd w
    /\ agree_off [loc] (Some (root w)) (Some (root w'))
    /\ find (root w') loc = None.
Proof.
  unfold Remove, sys_unlink, sys_rmdir.
  destruct (resolve w name) as [errno|loc] eqn:Hres; [discriminate|].
  destruct (find (root w) loc) as [[d t|m es]|] eqn:Hf; [| |discriminate].
  - intros [= <-]. exists loc. rewrite Hf.
    repeat split; try congruence.
    + apply agree_off_remove. now rewrite Hf.
    + unfold with_root. cbn [root].
      destruct loc as [|c up]; [|apply find_remove_same]. exfalso.
      apply resolve_root_dir in Hres. simpl in Hf. injection Hf as Hroot.
      rewrite Hroot in Hres. discriminate.
  - destruct (last_element name =? "."); [discriminate|].
    destruct (last_element name =? ".."); [discriminate|].
    destruct es as [|e es]; [|discriminate].
    destruct loc as [|c up]; [discriminate|].
    intros [= <-]. exists (c :: up). rewrite Hf.
    repeat split; try congruence.
    + apply agree_off_remove. now rewrite Hf.
    + apply find_remove_same.
Qed.

End ChangeFacts.
(** ** Objects across the calls that change the store *)

Module ObjectFacts.
Import GoErrors Storage FileStore Fs FsFacts OsFacts PathFacts FrameFacts ChangeFacts.

Lemma Get_inv (s : FileObjectStore) (q : Path) (w : World) (d : list Byte.byte) :
  Get s q w = Ret (d, None) ->
  exists loc t, resolve w (GoPath.Join [Raw (BaseURI s); Raw q]) = inr loc
                /\ find (root w) loc = Some (File d t).
Proof.
  unfold Get. destruct (ReadFile w (GoPath.Join [Raw (BaseURI s); Raw q])) as [data e] eqn:Hread.
  intros [= -> ->]. now apply ReadFile_found.
Qed.

Lemma Get_at (s : FileObjectStore) (q : Path) (w : World) (loc : list string)
  (d : list Byte.byte) (t : Time) :
  resolve w (GoPath.Join [Raw (BaseURI s); Raw q]) = inr loc -> find (root w) loc = Some (File d t) ->
  Get s q w = Ret (d, None).
Proof. intros Hres Hf. unfold Get, ReadFile. now rewrite Hres, Hf. Qed.

Lemma Get_absent (s : FileObjectStore) (q : Path) (w : World) (loc : list string) :
  resolve w (GoPath.Join [Raw (BaseURI s); Raw q]) = inr loc -> find (root w) loc = None ->
  Get s q w = Ret ([], Some (PathError "open" (GoPath.Join [Raw (BaseURI s); Raw q]) ENOENT)).
Proof. intros Hres Hf. unfold Get, ReadFile. now rewrite Hres, Hf. Qed.

(** An object [Get] returns is a file for [Stat]. *)
Lemma Get_Stat (s : FileObjectStore) (q : Path) (w : World) (d : list Byte.byte) :
  Get s q w = Ret (d, None) ->
  exists info, Stat w (GoPath.Join [Raw (BaseURI s); Raw q]) = (Some info, None) /\ IsDir info = false.
Proof.
  intros Hget. destruct (Get_inv s q w d Hget) as (loc & t & Hres & Hf).
  exists (info_of w (File d t)). split; [|reflexivity].
  exact (Stat_found w _ loc (File d t) Hres Hf).
Qed.

(** A file outside the holes is read as before, when the path to it
    still resolves. *)
Lemma agree_off_file (holes : list (list string)) (r r' : node)
  (loc : list string) (d : list Byte.byte) (t : Time) :
  agree_off holes (Some r) (Some r') -> ~ In loc holes ->
  find r loc = Some (File d t) -> find r' loc = Some (File d t).
Proof.
  intros Hagree Hout Hf. specialize (Hagree loc Hout). cbn [found] in Hagree.
  apply kind_FileOf. rewrite <- Hagree. now apply kind_FileOf.
Qed.

Lemma Put_inv (s : FileObjectStore) (p : Path) (b : list Byte.byte) (w w' : World) :
  Put s p b w = Ret (None, w') ->
  exists w1, MkdirAll w (GoPath.Dir (GoPath.Join [Raw (BaseURI s); Raw p])) = (w1, None)
             /\ WriteFile w1 (GoPath.Join [Raw (BaseURI s); Raw p]) b = (w', None).
Proof.
  unfold Put.
  destruct (MkdirAll w _) as [w1 [e|]]; [discriminate|].
  destruct (WriteFile w1 _ b) as [w2 e] eqn:Hwrite.
  intros [= -> ->]. now exists w1.
Qed.

(** What a successful [Put] did to the tree. *)
Lemma Put_frame (s : FileObjectStore) (p : Path) (b : list Byte.byte) (w w' : World) :
  Put s p b w = Ret (None, w') ->
  exists lp,
    resolve w' (GoPath.Join [Raw (BaseURI s); Raw p]) = inr lp
    /\ find (root w') lp = Some (File b (now w))
    /\ is_dir (find (root w) lp) = false
    /\ cwd w' = cwd w
    /\ forall loc, loc <> lp -> find (root w) loc <> None ->
                   kind_of (find (root w') loc) = kind_of (find (root w) loc).
Proof.
  intros Hput. destruct (Put_inv s p b w w' Hput) as (w1 & Hmk & Hwrite).
  destruct (MkdirAll_keeps w w1 _ _ Hmk) as (Hcwd1 & Hnow1 & Hkeep).
  destruct (WriteFile_frame w1 w' _ b Hwrite)
    as (lp & Hres1 & Hnodir & Hres & Hf & Hcwd & Hagree).
  exists lp. rewrite Hnow1 in Hf. repeat split; try congruence.
  - destruct (find (root w) lp) as [n|] eqn:Hlp; [|reflexivity].
    assert (Hk := Hkeep lp). rewrite Hlp in Hk. specialize (Hk ltac:(discriminate)).
    destruct n as [d t|m es]; [reflexivity|].
    apply kind_Directory in Hk. congruence.
  - intros loc Hne Hthere. rewrite <- (Hkeep loc Hthere).
    symmetry. apply (Hagree loc). intros [->|[]]. congruence.
Qed.

(** A walk in a tree that lost one place ends as before or finds
    nothing on the way. *)
Lemma walk_removed (r r' : node) (hole : list string) (elems : list string) :
  agree_off [hole] (Some r) (Some r') -> find r' hole = None ->
  forall cur loc,
    walk r cur elems = inr loc ->
    walk r' cur elems = inr loc \/ walk r' cur elems = inl ENOENT.
Proof.
  intros Hagree Hgone.
  induction elems as [|e rest IH]; intros cur loc; simpl; [auto|].
  destruct (find r cur) as [[|m es]|] eqn:Hcur; try discriminate.
  destruct (list_eq_dec string_dec cur hole) as [->|Hne].
  - rewrite Hgone. auto.
  - assert (Hk : kind_of (find r' cur) = Directory).
    { rewrite <- (agree_off_at _ _ _ cur Hagree); [now rewrite Hcur|].
      intros [->|[]]. congruence. }
    apply kind_Directory in Hk.
    destruct (find r' cur) as [[|m' es']|]; try discriminate.
    destruct ((e =? "") || (e =? ".")); [apply IH|].
    destruct (e =? ".."); apply IH.
Qed.

Lemma IsNotExist_open (name : string) :
  IsNotExist (Some (PathError "open" name ENOENT)) = true.
Proof. reflexivity. Qed.

(** The objects after a file has moved from [lo] to [ln]. *)
Lemma Get_after_move (s : FileObjectStore) (from to : Path) (w w' : World)
  (lo ln : list string) (d : list Byte.byte) (t : Time) :
  resolve w (GoPath.Join [Raw (BaseURI s); Raw from]) = inr lo ->
  resolve w (GoPath.Join [Raw (BaseURI s); Raw to]) = inr ln ->
  find (root w) lo = Some (File d t) ->
  ln <> lo ->
  is_dir (find (root w) ln) = false ->
  cwd w' = cwd w ->
  agree_off [lo; ln] (Some (root w)) (Some (root w')) ->
  find (root w') ln = Some (File d t) ->
  find (root w') lo = None ->
  Get s to w' = Ret (d, None)
  /\ Get s from w' = Ret ([], Some (PathError "open" (GoPath.Join [Raw (BaseURI s); Raw from]) ENOENT))
  /\ forall q dq,
       Get s q w = Ret (dq, None) ->
       resolve w (GoPath.Join [Raw (BaseURI s); Raw q]) <> inr lo ->
       resolve w (GoPath.Join [Raw (BaseURI s); Raw q]) <> inr ln ->
       Get s q w' = Ret (dq, None).
Proof.
  intros Hlo Hln Hsrc Hne Hnodir Hcwd Hagree Hnew Hold.
  assert (Hres : forall p loc, resolve w p = inr loc -> resolve w' p = inr loc).
  { intros p loc. apply resolve_kept; [exact Hcwd|].
    apply (agree_off_dirs [lo; ln]); [exact Hagree|].
    intros h [<-|[<-|[]]]; [now rewrite Hsrc|exact Hnodir]. }
  split; [|split].
  - now apply (Get_at s to w' ln d t); [apply Hres|].
  - now apply (Get_absent s from w' lo); [apply Hres|].
  - intros q dq Hget Hqo Hqn.
    destruct (Get_inv s q w dq Hget) as (lq & tq & Hq & Hfq).
    apply (Get_at s q w' lq dq tq); [now apply Hres|].
    apply (agree_off_file [lo; ln] (root w)); [exact Hagree| |exact Hfq].
    intros [Heq|[Heq|[]]]; congruence.
Qed.

(** What a successful [Rename] of an object did. *)
Lemma Rename_frame (s : FileObjectStore) (from to : Path) (w w' : World)
  (d : list Byte.byte) :
  Get s from w = Ret (d, None) ->
  Fs.Rename w (GoPath.Join [Raw (BaseURI s); Raw from]) (GoPath.Join [Raw (BaseURI s); Raw to]) = (w', None) ->
  exists lo ln t,
    resolve w (GoPath.Join [Raw (BaseURI s); Raw from]) = inr lo
    /\ resolve w (GoPath.Join [Raw (BaseURI s); Raw to]) = inr ln
    /\ find (root w) lo = Some (File d t)
    /\ ((w' = w /\ ln = lo)
        \/ (ln <> lo
            /\ is_dir (find (root w) ln) = false
            /\ cwd w' = cwd w
            /\ agree_off [lo; ln] (Some (root w)) (Some (root w'))
            /\ find (root w') ln = Some (File d t)
            /\ find (root w') lo = None)).
Proof.
  intros Hget Hren.
  destruct (Get_inv s from w d Hget) as (lo & t & Hlo & Hsrc).
  apply Rename_sys in Hren.
  destruct (sys_rename_frame w w' _ _ d t lo Hlo Hsrc Hren) as (ln & Hln & Hcases).
  now exists lo, ln, t.
Qed.

Lemma Rename_inv (s : FileObjectStore) (from to : Path) (w w' : World) (e : error) :
  FileStore.Rename s from to w = Ret (e, w') ->
  exists e1, Fs.Rename w (GoPath.Join [Raw (BaseURI s); Raw from]) (GoPath.Join [Raw (BaseURI s); Raw to]) = (w', e1)
             /\ e = match e1 with
                    | Some x => Some (Joined [ErrorsNew ErrorObjectDoesNotExist; x])
                    | None => None
                    end.
Proof.
  unfold FileStore.Rename, Path_Join. cbn [Raw].
  destruct (Fs.Rename w _ _) as [w1 [e1|]]; intros [= <- <-]; eauto.
Qed.

(** [Head] returns an error that matches ObjectDoesNotExist only where
    [Stat] reports that nothing is there. *)
Lemma Head_ObjectDoesNotExist_inv (s : FileObjectStore) (p : Path) (w : World)
  (meta : ObjectMeta) (e : error) :
  Head s p w = Ret (meta, e) -> Is e ErrorObjectDoesNotExist = true ->
  IsNotExist (snd (Stat w (GoPath.Join [Raw (BaseURI s); Raw p]))) = true.
Proof.
  unfold Head. destruct (Stat w (GoPath.Join [Raw (BaseURI s); Raw p])) as [info err]. cbn [snd].
  destruct (IsNotExist err); [reflexivity|].
  destruct info as [info|]; cbn [call bind]; [|discriminate].
  destruct (IsDir info); intros [= <- <-]; discriminate.
Qed.

(** [Head] returns ObjectIsDir only for a directory. *)
Lemma Head_ObjectIsDir_inv (s : FileObjectStore) (p : Path) (w : World)
  (meta : ObjectMeta) :
  Head s p w = Ret (meta, Some (ErrorsNew ErrorObjectIsDir)) ->
  exists loc m entries,
    resolve w (GoPath.Join [Raw (BaseURI s); Raw p]) = inr loc /\ find (root w) loc = Some (Dir m entries).
Proof.
  unfold Head, Stat.
  destruct (resolve w (GoPath.Join [Raw (BaseURI s); Raw p])) as [errno|loc].
  - destruct (IsNotExist _); cbn [call bind]; discriminate.
  - destruct (find (root w) loc) as [[d t|m entries]|] eqn:Hf;
      cbn [IsNotExist call bind].
    + discriminate.
    + intros _. now exists loc, m, entries.
    + discriminate.
Qed.

(** Where [Stat] reports that nothing is there, nothing resolves to a
    node. *)
Lemma Stat_missing (w : World) (name : string) :
  IsNotExist (snd (Stat w name)) = true ->
  resolve w name = inl ENOENT
  \/ exists loc, resolve w name = inr loc /\ find (root w) loc = None.
Proof.
  unfold Stat. destruct (resolve w name) as [errno|loc].
  - destruct errno; try discriminate. now left.
  - destruct (find (root w) loc) eqn:Hf; [discriminate|]. right. eauto.
Qed.

Lemma Delete_inv (s : FileObjectStore) (p : Path) (w w' : World) (e : error) :
  Delete s p w = Ret (e, w') ->
  exists e1, Remove w (GoPath.Join [Raw (BaseURI s); Raw p]) = (w', e1)
             /\ e = match e1 with
                    | Some x => Some (Joined [ErrorsNew ErrorDeleteObject; x])
                    | None => None
                    end.
Proof.
  unfold Delete.
  destruct (Remove w _) as [w1 [e1|]]; intros [= <- <-]; eauto.
Qed.

(** After a successful [Delete] nothing is at the location, and every
    object that was read before is read as before or is gone. *)
Lemma Delete_frame (s : FileObjectStore) (p : Path) (w w' : World) :
  Remove w (GoPath.Join [Raw (BaseURI s); Raw p]) = (w', None) ->
  (exists e, Stat w' (GoPath.Join [Raw (BaseURI s); Raw p]) = (None, Some e) /\ IsNotExist (Some e) = true)
  /\ forall q dq,
       Get s q w = Ret (dq, None) ->
       Get s q w' = Ret (dq, None)
       \/ Get s q w' = Ret ([], Some (PathError "open" (GoPath.Join [Raw (BaseURI s); Raw q]) ENOENT)).
Proof.
  intros Hrm.
  destruct (Remove_frame w w' _ Hrm) as (lp & Hlp & Hleaf & Hthere & Hcwd & Hagree & Hgone).
  assert (Hres : forall name loc,
            resolve w name = inr loc ->
            resolve w' name = inr loc \/ resolve w' name = inl ENOENT).
  { intros name loc. unfold resolve, start. rewrite Hcwd.
    destruct (name =? ""); [discriminate|].
    now apply (walk_removed (root w) (root w') lp). }
  split.
  - unfold Stat. destruct (Hres _ _ Hlp) as [-> | ->].
    + rewrite Hgone. eauto.
    + eauto.
  - intros q dq Hget.
    destruct (Get_inv s q w dq Hget) as (lq & tq & Hq & Hfq).
    unfold Get, ReadFile. destruct (Hres _ _ Hq) as [-> | ->]; [|now right].
    destruct (list_eq_dec string_dec lq lp) as [->|Hne].
    + rewrite Hgone. now right.
    + rewrite (agree_off_file [lp] (root w) (root w') lq dq tq Hagree); auto.
      intros [Heq|[]]. congruence.
Qed.

(** The objects after [MkdirAll]. *)
Lemma Get_after_MkdirAll (s : FileObjectStore) (w w1 : World) (path : string)
  (e : error) (q : Path) (dq : list Byte.byte) :
  MkdirAll w path = (w1, e) ->
  Get s q w = Ret (dq, None) -> Get s q w1 = Ret (dq, None).
Proof.
  intros Hmk Hget.
  destruct (MkdirAll_keeps w w1 _ _ Hmk) as (Hcwd & _ & Hkeep).
  destruct (Get_inv s q w dq Hget) as (lq & tq & Hq & Hfq).
  apply (Get_at s q w1 lq dq tq).
  - apply (resolve_kept w); [exact Hcwd| |exact Hq].
    intros l Hdir. apply kind_Directory. rewrite Hkeep.
    + now apply kind_Directory.
    + intro Hnone. rewrite Hnone in Hdir. discriminate.
  - apply kind_FileOf. rewrite Hkeep; [now apply kind_FileOf|congruence].
Qed.

(** A write that failed stored the bytes up to the file size limit. *)
Lemma written_short (w : World) (data : list Byte.byte) (errno : Errno) :
  snd (written w data) = Some errno ->
  errno = EFBIG
  /\ exists limit, file_limit w = Some limit
                   /\ fst (written w data) = firstn limit data.
Proof.
  unfold written. destruct (file_limit w) as [limit|]; [|discriminate].
  destruct (Nat.leb (length data) limit); [discriminate|].
  intros [= <-]. eauto.
Qed.

(** Whatever [Put] returns, an object is read after it as before,
    unless its location names the file [Put] wrote to: that one holds
    what the write stored. *)
Lemma Put_others (s : FileObjectStore) (p : Path) (b : list Byte.byte)
  (w w' : World) (e : error) :
  Put s p b w = Ret (e, w') ->
  forall q dq,
    Get s q w = Ret (dq, None) ->
    Get s q w' = Ret (dq, None)
    \/ (resolve w' (GoPath.Join [Raw (BaseURI s); Raw q]) = resolve w' (GoPath.Join [Raw (BaseURI s); Raw p])
        /\ Get s q w' = Ret (fst (written w b), None)
        /\ e = match snd (written w b) with
               | Some errno => Some (PathError "write" (GoPath.Join [Raw (BaseURI s); Raw p]) errno)
               | None => None
               end).
Proof.
  unfold Put. destruct (MkdirAll w _) as [w1 e1] eqn:Hmk.
  intros Hput q dq Hget.
  pose proof (Get_after_MkdirAll s w w1 _ e1 q dq Hmk Hget) as Hget1.
  pose proof (MkdirAll_file_limit w w1 _ e1 Hmk) as Hlimit.
  destruct e1 as [e1|]; [injection Hput as _ <-; now left|].
  destruct (WriteFile w1 _ b) as [w2 e2] eqn:Hwrite.
  injection Hput as <- <-.
  destruct (WriteFile_stored w1 w2 _ b e2 Hwrite)
    as [[-> _]|(lp & Hres1 & Hnodir & Hres & Hf & Hcwd & Hagree & He)]; [now left|].
  destruct (Get_inv s q w1 dq Hget1) as (lq & tq & Hq & Hfq).
  assert (Hq' : resolve w2 (GoPath.Join [Raw (BaseURI s); Raw q]) = inr lq).
  { apply (resolve_kept w1); [exact Hcwd| |exact Hq].
    apply (agree_off_dirs [lp]); [exact Hagree|].
    intros h [<-|[]]. exact Hnodir. }
  assert (Hsame : written w1 b = written w b)
    by (unfold written; now rewrite Hlimit).
  rewrite Hsame in *.
  destruct (list_eq_dec string_dec lq lp) as [->|Hne].
  - right. split; [congruence|]. split; [|exact He].
    now apply (Get_at s q w2 lp _ (now w1)).
  - left. apply (Get_at s q w2 lq dq tq); [exact Hq'|].
    apply (agree_off_file [lp] (root w1)); [exact Hagree| |exact Hfq].
    intros [Heq|[]]. congruence.
Qed.

(** [Delete] of an object leaves every other object as it was. *)
Lemma Delete_file_frame (s : FileObjectStore) (p : Path) (w w' : World)
  (dp : list Byte.byte) :
  Get s p w = Ret (dp, None) ->
  Remove w (GoPath.Join [Raw (BaseURI s); Raw p]) = (w', None) ->
  forall q dq,
    Get s q w = Ret (dq, None) ->
    resolve w (GoPath.Join [Raw (BaseURI s); Raw q]) <> resolve w (GoPath.Join [Raw (BaseURI s); Raw p]) ->
    Get s q w' = Ret (dq, None).
Proof.
  intros Hp Hrm q dq Hget Hne.
  destruct (Get_inv s p w dp Hp) as (lp & tp & Hlp & Hfp).
  destruct (Remove_frame w w' _ Hrm)
    as (lp' & Hlp' & Hleaf & Hthere & Hcwd & Hagree & Hgone).
  assert (lp' = lp) by congruence. subst lp'.
  destruct (Get_inv s q w dq Hget) as (lq & tq & Hq & Hfq).
  apply (Get_at s q w' lq dq tq).
  - apply (resolve_kept w); [exact Hcwd| |exact Hq].
    apply (agree_off_dirs [lp]); [exact Hagree|].
    intros h [<-|[]]. now rewrite Hfp.
  - apply (agree_off_file [lp] (root w)); [exact Hagree| |exact Hfq].
    intros [Heq|[]]. apply Hne. congruence.
Qed.


(** *** Listing what is not there *)

Lemma ReadDir_missing (w : World) (name : string) :
  IsNotExist (snd (Stat w name)) = true ->
  IsNotExist (snd (ReadDir w name)) = true.
Proof.
  intros Hmiss. unfold ReadDir.
  destruct (Stat_missing w name Hmiss) as [-> |(loc & -> & ->)]; reflexivity.
Qed.

Lemma ReadDir_missing_separator (w : World) (name : string) :
  name <> "" ->
  IsNotExist (snd (Stat w name)) = true ->
  IsNotExist (snd (ReadDir w (name ++ GoPath.SeparatorString))) = true.
Proof.
  intros Hne Hmiss.
  assert (Hres : resolve w (name ++ GoPath.SeparatorString) = inl ENOENT).
  { assert (Hcat : (name ++ GoPath.SeparatorString)%string <> "")
      by (destruct name; discriminate).
    apply String.eqb_neq in Hne as Hne'. apply String.eqb_neq in Hcat.
    unfold resolve, start in *. rewrite Hcat. rewrite (rooted_app name _ Hne).
    unfold GoPath.SeparatorString. rewrite elements_app, walk_app.
    destruct (Stat_missing w name Hmiss) as [Hr|(loc & Hr & Hf)];
      unfold resolve, start in Hr; rewrite Hne' in Hr; rewrite Hr; [reflexivity|].
    simpl. now rewrite Hf. }
  unfold ReadDir. now rewrite Hres.
Qed.

Lemma Join_not_empty (base : string) (rest : list string) :
  base <> "" -> GoPath.Join (base :: rest) <> "".
Proof.
  intros Hne. cbn [GoPath.Join]. apply String.eqb_neq in Hne. rewrite Hne.
  apply Clean_not_empty.
Qed.

End ObjectFacts.
(** ** Directories and files in a listing *)

Module ConventionFacts.
Import GoString GoPath WellFormed GoErrors Fs FsFacts PathFacts ResolveFacts.
Import Storage FileStore ListingSpec ListFacts.

Lemma last_byte_drop (n : nat) :
  forall (s : string) (c : ascii),
    last_byte (drop n s) = Some c -> last_byte s = Some c.
Proof.
  induction n as [|n IH]; intros s c; [now destruct s|].
  destruct s as [|x s]; cbn [drop]; [discriminate|].
  intros H. specialize (IH s c H). cbn [last_byte].
  destruct s; [discriminate|exact IH].
Qed.

Lemma last_byte_stripped (baseURI path : string) (c : ascii) :
  last_byte (stripped baseURI path) = Some c -> last_byte path = Some c.
Proof.
  unfold stripped, TrimPrefix.
  destruct (HasPrefix path baseURI); [apply last_byte_drop|auto].
Qed.

(** The location of the entry for a node ends in the separator exactly
    when the node is a directory. *)
Lemma entry_meta_separator (w : World) (baseURI dir name : string) (child : node)
  (loc : list string) :
  resolve w (GoPath.Join [dir; name]) = inr (name :: loc) ->
  last_byte (Raw (Location (entry_meta baseURI dir (name, child)))) = Some Separator
  <-> is_dir (Some child) = true.
Proof.
  intros Hres. unfold entry_meta. cbn [fst snd].
  destruct child as [data t|t entries]; cbn [Location Raw NewPath is_dir].
  - split; [|discriminate]. intros Hlast. exfalso.
    apply last_byte_stripped in Hlast.
    destruct (Join_cleaned [dir; name]) as [Hemp|(q & Hq)].
    + rewrite Hemp in Hlast. discriminate.
    + rewrite Hq in Hlast. apply Clean_last_separator in Hlast.
      rewrite <- Hq in Hlast. rewrite Hlast in Hres.
      apply resolve_root in Hres. discriminate.
  - split; [reflexivity|]. intros _. apply with_separator_last.
Qed.

(** Every entry of a listing is the entry for a node of the tree, found
    where the joined path of the entry resolves to. *)
Lemma listing_nodes (baseURI : string) (w : World) :
  wf_node (root w) = true ->
  forall (n : nat) (dir prefix : string) (loc : list string) (m : Time)
         (entries : list (string * node)),
    resolve w dir = inr loc ->
    find (root w) loc = Some (Dir m entries) ->
    height (Dir m entries) <= n ->
    forall x, In x (listing baseURI dir prefix entries) ->
      exists parent name at_loc node,
        resolve w (GoPath.Join [parent; name]) = inr at_loc
        /\ find (root w) at_loc = Some node
        /\ x = entry_meta baseURI parent (name, node)
        /\ (last_byte (Raw (Location x)) = Some Separator
            <-> is_dir (Some node) = true).
Proof.
  intros Hwf. induction n as [|n IH];
    intros dir prefix loc m entries Hres Hfind Hheight x Hin.
  - cbn [height] in Hheight. lia.
  - unfold listing in Hin. apply in_flat_map in Hin as ([name child] & He & Hx).
    apply filter_In in He as [He _]. cbn [fst snd] in Hx.
    destruct (wf_entries m entries (wf_find _ _ _ Hwf Hfind) name child He)
      as (Hname & Hchild & Hassoc).
    assert (Hdir : is_dir (find (root w) loc) = true) by now rewrite Hfind.
    pose proof (resolve_Join w dir name loc Hres Hdir Hname) as Hsub.
    assert (Hat : find (root w) (name :: loc) = Some child).
    { cbn [find]. now rewrite Hfind. }
    destruct Hx as [<-|Hx].
    + exists dir, name, (name :: loc), child.
      repeat split; try assumption;
        now apply (entry_meta_separator w baseURI dir name child loc).
    + destruct child as [data t|t sub]; [contradiction|].
      rewrite beneath_Dir in Hx.
      apply (IH (GoPath.Join [dir; name]) "" (name :: loc) t sub Hsub Hat); [|exact Hx].
      pose proof (height_entries m entries name (Dir t sub) He). lia.
Qed.

(** *** The directory part and the name-prefix part of a prefix *)

Lemma Split_name (file : string) :
  has_separator file = false -> Split file = ("", file).
Proof.
  induction file as [|c file IH]; [reflexivity|].
  cbn [has_separator Split]. intros H. apply orb_false_elim in H as [Hc Hrest].
  rewrite (IH Hrest), Hc. reflexivity.
Qed.

(** [Split] cuts after the last separator. *)
Lemma Split_app (dir file : string) :
  dir = "" \/ last_byte dir = Some Separator ->
  has_separator file = false ->
  Split (dir ++ file) = (dir, file).
Proof.
  intros Hdir Hfile. induction dir as [|c dir IH].
  - now apply Split_name.
  - destruct Hdir as [Hnil|Hlast]; [discriminate|].
    change (String c dir ++ file)%string with (String c (dir ++ file)).
    cbn [Split]. destruct dir as [|c' dir'].
    + cbn [last_byte] in Hlast. injection Hlast as ->.
      cbn [String.append]. rewrite (Split_name file Hfile). reflexivity.
    + rewrite IH by (right; exact Hlast).
      now destruct (IsPathSeparator c).
Qed.

End ConventionFacts.
(** ** The claims of the specification *)

Import GoErrors Storage FileStore.

(** The trees of the examples. *)
Lemma nested_tree (x y : list Byte.byte) :
  Fs.root (Example.nested x y) =
  Fs.Dir 1%Z
    [("srv", Fs.Dir 2%Z
       [("table", Fs.Dir 3%Z
          [("a", Fs.Dir 7%Z
             [("b", Fs.Dir 7%Z [("y", Fs.File y 7%Z)]);
              ("x", Fs.File x 7%Z)])])])].
Proof. vm_compute. reflexivity. Qed.

Lemma same_name_tree (f : list Byte.byte) :
  Fs.root (Example.same_name f) =
  Fs.Dir 1%Z
    [("srv", Fs.Dir 2%Z
       [("table", Fs.Dir 3%Z
          [("table", Fs.Dir 7%Z
             [("x", Fs.Dir 7%Z [("f", Fs.File f 7%Z)])])])])]
  /\ Fs.cwd (Example.same_name f) = ["srv"].
Proof. split; vm_compute; reflexivity. Qed.

Lemma staged_tree :
  Fs.root Example.staged =
  Fs.Dir 1%Z
    [("srv", Fs.Dir 2%Z
       [("table", Fs.Dir 3%Z
          [("_delta_log", Fs.Dir 7%Z
             [(".tmp", Fs.Dir 7%Z
                [("A", Fs.File (Example.bytes "commit of A") 7%Z);
                 ("B", Fs.File (Example.bytes "commit of B") 7%Z)])])])])].
Proof. vm_compute. reflexivity. Qed.

(** C1.  The claim asks RenameIfNotExists to behave exactly like Rename
    whenever no object exists at the destination.  With files [a/x] and
    [a/b/y] in the store, nothing exists at [a/x/new] (Stat fails with
    ENOTDIR, [a/x] being a file); Rename returns an error that matches
    ObjectDoesNotExist and leaves the store as it is, and
    RenameIfNotExists panics, Head having dereferenced the nil FileInfo. *)
Theorem RenameIfNotExists_panics_where_Rename_fails (x y : list Byte.byte) :
  let w := Example.nested x y in
  let from := NewPath "a/b/y" in
  let to := NewPath "a/x/new" in
  Fs.Stat w (GoPath.Join [Raw (BaseURI Example.store); Raw to])
    = (None, Some (PathError "stat" "/srv/table/a/x/new" ENOTDIR))
  /\ Rename Example.store from to w
     = Ret (Some (Joined [ErrorsNew ErrorObjectDoesNotExist;
                          LinkError "rename" "/srv/table/a/b/y" "/srv/table/a/x/new"
                            ENOTDIR]), w)
  /\ RenameIfNotExists Example.store from to w = Panic nil_dereference.
Proof.
  cbv zeta. repeat split; vm_compute; reflexivity.
Qed.




(** C3, as stated, fails: where [a] is a directory of the store, Put to
    [a] fails, and so does the Get after it. *)
Lemma no_round_trip_on_a_directory :
  let w := Example.nested (Example.bytes "x") (Example.bytes "y") in
  Put Example.store (NewPath "a") (Example.bytes "new") w
    = Ret (Some (PathError "open" "/srv/table/a" EISDIR), w)
  /\ Get Example.store (NewPath "a") w
     = Ret ([], Some (PathError "read" "/srv/table/a" EISDIR))
  /\ ~ round_trip Example.store (NewPath "a") (Example.bytes "new") w.
Proof.
  cbv zeta. repeat split; try (vm_compute; reflexivity).
  intros (w' & Hput & _). vm_compute in Hput. discriminate.
Qed.

(** C3, amended.  Whenever Put(p, b) returns no error, the Get(p) that
    follows on the same store returns exactly b. *)
Theorem Put_Get_round_trip (s : FileObjectStore) (p : Path) (b : list Byte.byte)
  (w w' : Fs.World) :
  Put s p b w = Ret (None, w') -> Get s p w' = Ret (b, None).
Proof.
  unfold Put, Get.
  destruct (Fs.MkdirAll w _) as [w1 [e|]]; [discriminate|].
  destruct (Fs.WriteFile w1 _ b) as [w2 e] eqn:Hwrite.
  intros [= -> ->].
  now rewrite (OsFacts.WriteFile_ReadFile _ _ _ _ Hwrite).
Qed.

Lemma Put_Get_round_trip_witness :
  Get Example.store (NewPath "a/x") (Example.after_Put "a/x" (Example.bytes "x") Example.empty)
  = Ret (Example.bytes "x", None).
Proof.
  apply (Put_Get_round_trip Example.store (NewPath "a/x") (Example.bytes "x")
           Example.empty).
  vm_compute. reflexivity.
Defined.

(** C4.  The claim asks for store-relative locations from Head as from
    List.  For the file [a/x] of the store at [/srv/table], List returns
    the location [a/x] and Head the location [/srv/table/a/x], the path on
    the host with the base in front. *)
Theorem Head_location_keeps_the_base (x y : list Byte.byte) :
  let w := Example.nested x y in
  Head Example.store (NewPath "a/x") w
    = Ret ({| Location := NewPath "/srv/table/a/x";
              LastModified := 7%Z;
              Size := Z.of_nat (length x) |}, None)
  /\ GoString.HasPrefix "/srv/table/a/x" (Raw (BaseURI Example.store)) = true
  /\ List 3 Example.store (NewPath "a/x") w
     = Ret ([{| Location := NewPath "a/x";
                LastModified := 7%Z;
                Size := Z.of_nat (length x) |}], None).
Proof.
  cbv zeta. repeat split; vm_compute; reflexivity.
Qed.

(** List strips the base where the base is in cleaned form: for the file
    [a/x] of the store [./table], it returns the locations [table/a/] and
    [table/a/x]. *)
Lemma List_keeps_a_base_not_in_cleaned_form (x : list Byte.byte) (fuel : nat) :
  List (2 + fuel) Example.dotted_store (NewPath "") (Example.dotted x)
  = Ret ([{| Location := NewPath "table/a/"; LastModified := 7%Z; Size := 0%Z |};
          {| Location := NewPath "table/a/x"; LastModified := 7%Z;
             Size := Z.of_nat (length x) |}], None).
Proof.
  vm_compute. reflexivity.
Qed.

(** C5.  The claim asks Get of an absent object to fail with an error
    matching ObjectDoesNotExist.  Get returns the error of os.ReadFile as
    it is: os.IsNotExist recognizes it, errors.Is against the sentinel of
    the store does not. *)
Theorem Get_missing_is_not_ObjectDoesNotExist :
  let absent := PathError "open" "/srv/table/missing" ENOENT in
  Get Example.store (NewPath "missing") Example.empty = Ret ([], Some absent)
  /\ IsNotExist (Some absent) = true
  /\ Is (Some absent) ErrorObjectDoesNotExist = false.
Proof.
  cbv zeta. repeat split.
Qed.

(** C6.  The claim asks for Size 0 in the ObjectMeta Head returns with
    ObjectIsDir.  Head copies the length Stat reports for the directory,
    4096 on this host; Location and LastModified are filled in. *)
Theorem Head_directory_size_is_not_zero (x y : list Byte.byte) :
  Head Example.store (NewPath "a") (Example.nested x y)
  = Ret ({| Location := NewPath "/srv/table/a";
            LastModified := 7%Z;
            Size := 4096%Z |}, Some (ErrorsNew ErrorObjectIsDir)).
Proof.
  vm_compute. reflexivity.
Qed.

(** On the store [/srv/table], a base in cleaned form, the example of
    C7 holds: with files [a/x] and [a/b/y] in the store, whatever they
    hold, List of the prefix [a/] returns entries for [a/x], for the
    directory [a/b/] with size 0 and for [a/b/y], besides the entry for
    [a/] itself; List of the prefix [z/], whose directory does not exist,
    returns an empty result and no error. *)
Lemma List_directory_convention (x y : list Byte.byte) (fuel : nat) :
  let w := Example.nested x y in
  let a_x := {| Location := NewPath "a/x"; LastModified := 7%Z;
                Size := Z.of_nat (length x) |} in
  let a_b := {| Location := NewPath "a/b/"; LastModified := 7%Z; Size := 0%Z |} in
  let a_b_y := {| Location := NewPath "a/b/y"; LastModified := 7%Z;
                  Size := Z.of_nat (length y) |} in
  let a := {| Location := NewPath "a/"; LastModified := 7%Z; Size := 0%Z |} in
  Get Example.store (NewPath "a/x") w = Ret (x, None)
  /\ Get Example.store (NewPath "a/b/y") w = Ret (y, None)
  /\ List (2 + fuel) Example.store (NewPath "a/") w = Ret ([a_b; a_b_y; a_x; a], None)
  /\ List (1 + fuel) Example.store (NewPath "z/") w = Ret ([], None).
Proof.
  cbv zeta. repeat split; vm_compute; reflexivity.
Qed.

(** C7.  The claim asks List of the prefix [a/] for entries for [a/x],
    [a/b/] and [a/b/y] when the files [a/x] and [a/b/y] exist.  In the
    store [./table] of a process that runs in [/srv] both files exist:
    Get returns them.  List of [a/] returns the entries [table/a/b/],
    [table/a/b/y] and [table/a/x], and after them [a/]: the paths List
    joins are in cleaned form and start with [table/], the base it trims
    from their front is [./table/], and nothing is trimmed.  No entry
    has the location [a/x], [a/b/] or [a/b/y]. *)
Theorem List_directory_convention_needs_a_cleaned_base (x y : list Byte.byte)
  (fuel : nat) :
  let w := Example.dotted_nested x y in
  let a_x := {| Location := NewPath "table/a/x"; LastModified := 7%Z;
                Size := Z.of_nat (length x) |} in
  let a_b := {| Location := NewPath "table/a/b/"; LastModified := 7%Z;
                Size := 0%Z |} in
  let a_b_y := {| Location := NewPath "table/a/b/y"; LastModified := 7%Z;
                  Size := Z.of_nat (length y) |} in
  let a := {| Location := NewPath "a/"; LastModified := 7%Z; Size := 0%Z |} in
  Get Example.dotted_store (NewPath "a/x") w = Ret (x, None)
  /\ Get Example.dotted_store (NewPath "a/b/y") w = Ret (y, None)
  /\ List (2 + fuel) Example.dotted_store (NewPath "a/") w
     = Ret ([a_b; a_b_y; a_x; a], None)
  /\ (forall m, In m [a_b; a_b_y; a_x; a] ->
        Raw (Location m) <> "a/x" /\ Raw (Location m) <> "a/b/"
        /\ Raw (Location m) <> "a/b/y").
Proof.
  cbv zeta. repeat split; try (vm_compute; reflexivity);
    destruct H as [<-|[<-|[<-|[<-|[]]]]]; discriminate.
Qed.

(** C8.  The claim asks for an entry for the listed directory itself.
    In the store [table] that holds [table/x/f], List of the prefix
    [table/x/] returns the file as [table/x/f] and, for the directory, an
    entry with the location [x/]: the base has been stripped from the
    directory part of the prefix, a path that was relative to the store
    already.  List of the empty prefix names the same directory
    [table/x/], and the store has nothing at [x/]. *)
Theorem List_strips_the_base_from_the_directory_part (f : list Byte.byte) (fuel : nat) :
  let w := Example.same_name f in
  let file := {| Location := NewPath "table/x/f"; LastModified := 7%Z;
                 Size := Z.of_nat (length f) |} in
  let outer := {| Location := NewPath "table/"; LastModified := 7%Z; Size := 0%Z |} in
  let named := {| Location := NewPath "table/x/"; LastModified := 7%Z; Size := 0%Z |} in
  let misnamed := {| Location := NewPath "x/"; LastModified := 7%Z; Size := 0%Z |} in
  List (1 + fuel) Example.relative_store (NewPath "table/x/") w
    = Ret ([file; misnamed], None)
  /\ List (3 + fuel) Example.relative_store (NewPath "") w
     = Ret ([outer; named; file], None)
  /\ Fs.Stat w (GoPath.Join [Raw (BaseURI Example.relative_store); "x/"])
     = (None, Some (PathError "stat" "table/x" ENOENT)).
Proof.
  cbv zeta. repeat split; vm_compute; reflexivity.
Qed.

(** C9.  The claim asks List of the prefix [ab] over [abc.txt],
    [abd.txt] and [xyz.txt] for the first two.  The store with the empty
    BaseURI of a process that runs in the directory of the three files
    holds them: Get and Head return them.  List of [ab] panics, whatever
    the recursion budget: before it lists anything it indexes the last
    byte of the BaseURI, and the BaseURI is empty. *)
Theorem List_panics_on_an_empty_base (fuel : nat) :
  Get Example.cwd_store (NewPath "abc.txt") Example.in_table
    = Ret (Example.bytes "1", None)
  /\ Get Example.cwd_store (NewPath "abd.txt") Example.in_table
     = Ret (Example.bytes "22", None)
  /\ Get Example.cwd_store (NewPath "xyz.txt") Example.in_table
     = Ret (Example.bytes "3", None)
  /\ Head Example.cwd_store (NewPath "abc.txt") Example.in_table
     = Ret ({| Location := NewPath "abc.txt"; LastModified := 7%Z; Size := 1%Z |},
            None)
  /\ List fuel Example.cwd_store (NewPath "ab") Example.in_table
     = Panic index_out_of_range.
Proof.
  repeat split; vm_compute; reflexivity.
Qed.

(** C10.  Whenever Stat of the resolved path fails with an error that is
    not a not-exist error, Head panics on the nil FileInfo, and so does
    RenameIfNotExists to that destination, from any source. *)
Theorem Head_panics_on_other_stat_errors (s : FileObjectStore) (location : Path)
  (w : Fs.World) (e : err) :
  snd (Fs.Stat w (GoPath.Join [Raw (BaseURI s); Raw location])) = Some e ->
  IsNotExist (Some e) = false ->
  Head s location w = Panic nil_dereference
  /\ forall from, RenameIfNotExists s from location w = Panic nil_dereference.
Proof.
  intros Herr Hne.
  pose proof (StoreFacts.Head_panics s location w e Herr Hne) as Hhead.
  split; [exact Hhead|].
  intros from. unfold RenameIfNotExists. now rewrite Hhead.
Qed.

Lemma Head_panics_on_other_stat_errors_witness :
  Head Example.store (NewPath "a/x/new")
    (Example.nested (Example.bytes "x") (Example.bytes "y"))
  = Panic nil_dereference.
Proof.
  apply (Head_panics_on_other_stat_errors Example.store (NewPath "a/x/new")
           (Example.nested (Example.bytes "x") (Example.bytes "y"))
           (PathError "stat" "/srv/table/a/x/new" ENOTDIR)).
  - vm_compute. reflexivity.
  - reflexivity.
Defined.

(** ** Further properties of the store *)

(** [RenameIfNotExists] onto an object that [Get] can read fails with an
    error that matches VersionAlreadyExists and not ObjectDoesNotExist,
    whatever the source is, and leaves the host as it was. *)
Theorem RenameIfNotExists_keeps_an_existing_object (s : FileObjectStore)
  (from to : Path) (w : Fs.World) (d : list Byte.byte) :
  Get s to w = Ret (d, None) ->
  exists e,
    RenameIfNotExists s from to w = Ret (Some e, w)
    /\ Is (Some e) ErrorVersionAlreadyExists = true
    /\ Is (Some e) ErrorObjectDoesNotExist = false.
Proof.
  intros Hget.
  destruct (ObjectFacts.Get_Stat s to w d Hget) as (info & Hstat & _).
  exists (already_exists to).
  rewrite (StoreFacts.RenameIfNotExists_found s from to w info Hstat).
  repeat split.
Qed.

(** The source is missing and the destination is the staged commit of
    B. *)
Lemma RenameIfNotExists_keeps_an_existing_object_witness :
  exists e,
    RenameIfNotExists Example.store (NewPath "missing") Example.stagingB Example.staged
    = Ret (Some e, Example.staged)
    /\ Is (Some e) ErrorVersionAlreadyExists = true
    /\ Is (Some e) ErrorObjectDoesNotExist = false.
Proof.
  apply (RenameIfNotExists_keeps_an_existing_object Example.store (NewPath "missing")
           Example.stagingB Example.staged (Example.bytes "commit of B")).
  vm_compute. reflexivity.
Defined.

(** Every error [Rename] returns matches ObjectDoesNotExist, whatever made
    the rename fail, and the host is as it was. *)
Theorem Rename_error_is_ObjectDoesNotExist (s : FileObjectStore) (from to : Path)
  (w w' : Fs.World) (e : err) :
  Rename s from to w = Ret (Some e, w') ->
  Is (Some e) ErrorObjectDoesNotExist = true /\ w' = w.
Proof.
  intros Hren.
  destruct (ObjectFacts.Rename_inv s from to w w' _ Hren) as ([e1|] & Hos & He);
    [|discriminate].
  injection He as ->. split; [reflexivity|].
  now apply ChangeFacts.Rename_error in Hos.
Qed.

(** The source [a/x] is a file and the destination [a/b] a directory:
    both are there, and the error matches ObjectDoesNotExist. *)
Lemma Rename_error_is_ObjectDoesNotExist_witness :
  let w := Example.nested (Example.bytes "x") (Example.bytes "y") in
  let e := Joined [ErrorsNew ErrorObjectDoesNotExist;
                   LinkError "rename" "/srv/table/a/x" "/srv/table/a/b" EEXIST] in
  Rename Example.store (NewPath "a/x") (NewPath "a/b") w = Ret (Some e, w)
  /\ Is (Some e) ErrorObjectDoesNotExist = true.
Proof.
  cbv zeta. split; [vm_compute; reflexivity|].
  apply (Rename_error_is_ObjectDoesNotExist Example.store (NewPath "a/x") (NewPath "a/b")
           (Example.nested (Example.bytes "x") (Example.bytes "y"))
           (Example.nested (Example.bytes "x") (Example.bytes "y"))).
  vm_compute. reflexivity.
Defined.

(** Every error [RenameIfNotExists] returns matches VersionAlreadyExists
    or ObjectDoesNotExist, and the host is as it was. *)
Theorem RenameIfNotExists_error (s : FileObjectStore) (from to : Path)
  (w w' : Fs.World) (e : err) :
  RenameIfNotExists s from to w = Ret (Some e, w') ->
  (Is (Some e) ErrorVersionAlreadyExists = true
   \/ Is (Some e) ErrorObjectDoesNotExist = true)
  /\ w' = w.
Proof.
  unfold RenameIfNotExists.
  destruct (Head s to w) as [[meta err]|r|]; cbn [bind]; try discriminate.
  destruct (negb (Is err ErrorObjectDoesNotExist)).
  - intros [= <- <-]. split; [now left|reflexivity].
  - destruct (Rename s from to w) as [[[e1|] w1]|r|] eqn:Hren; cbn [bind];
      try discriminate.
    intros [= <- <-].
    destruct (ObjectFacts.Rename_inv s from to w w1 _ Hren) as ([e2|] & Hos & He);
      [|discriminate].
    injection He as ->. split; [now right|].
    now apply ChangeFacts.Rename_error in Hos.
Qed.

(** The source is missing and the commit slot is free. *)
Lemma RenameIfNotExists_error_witness :
  let e := Joined [ErrorsNew ErrorObjectDoesNotExist;
                   LinkError "rename" "/srv/table/missing"
                     "/srv/table/_delta_log/00000000000000000001.json" ENOENT] in
  RenameIfNotExists Example.store (NewPath "missing") Example.slot Example.staged
  = Ret (Some e, Example.staged)
  /\ (Is (Some e) ErrorVersionAlreadyExists = true
      \/ Is (Some e) ErrorObjectDoesNotExist = true).
Proof.
  cbv zeta. split; [vm_compute; reflexivity|].
  apply (RenameIfNotExists_error Example.store (NewPath "missing") Example.slot
           Example.staged Example.staged).
  vm_compute. reflexivity.
Defined.

(** After a successful [Rename] of an object, [Get] of the destination
    returns what the source held, also where the destination held an
    object before.  Either source and destination resolve to the same
    file, and then nothing changed, or they do not, and then [Get] of
    the source fails with a not-exist error. *)
Theorem Rename_moves_the_object (s : FileObjectStore) (from to : Path)
  (w w' : Fs.World) (d : list Byte.byte) :
  Get s from w = Ret (d, None) ->
  Rename s from to w = Ret (None, w') ->
  Get s to w' = Ret (d, None)
  /\ ((Fs.resolve w (GoPath.Join [Raw (BaseURI s); Raw from]) = Fs.resolve w (GoPath.Join [Raw (BaseURI s); Raw to]) /\ w' = w)
      \/ (Fs.resolve w (GoPath.Join [Raw (BaseURI s); Raw from]) <> Fs.resolve w (GoPath.Join [Raw (BaseURI s); Raw to])
          /\ exists e, Get s from w' = Ret ([], Some e)
                       /\ IsNotExist (Some e) = true)).
Proof.
  intros Hget Hren.
  destruct (ObjectFacts.Rename_inv s from to w w' _ Hren) as ([e1|] & Hos & He);
    [discriminate|].
  destruct (ObjectFacts.Rename_frame s from to w w' d Hget Hos)
    as (lo & ln & t & Hlo & Hln & Hsrc & [[-> ->]|Hmoved]).
  - split; [|left; split; [congruence|reflexivity]].
    now apply (ObjectFacts.Get_at s to w lo d t).
  - destruct Hmoved as (Hne & Hnodir & Hcwd & Hagree & Hnew & Hold).
    destruct (ObjectFacts.Get_after_move s from to w w' lo ln d t
                Hlo Hln Hsrc Hne Hnodir Hcwd Hagree Hnew Hold) as (Hto & Hfrom & _).
    split; [exact Hto|right]. split; [congruence|eauto].
Qed.

(** [a/x] is renamed onto [a/b/y], which held another object. *)
Lemma Rename_moves_the_object_witness :
  let w := Example.nested (Example.bytes "x") (Example.bytes "y") in
  let w' := match Rename Example.store (NewPath "a/x") (NewPath "a/b/y") w with
            | Ret (_, w') => w'
            | _ => w
            end in
  Get Example.store (NewPath "a/b/y") w' = Ret (Example.bytes "x", None)
  /\ ((Fs.resolve w "/srv/table/a/x" = Fs.resolve w "/srv/table/a/b/y" /\ w' = w)
      \/ (Fs.resolve w "/srv/table/a/x" <> Fs.resolve w "/srv/table/a/b/y"
          /\ exists e, Get Example.store (NewPath "a/x") w' = Ret ([], Some e)
                       /\ IsNotExist (Some e) = true)).
Proof.
  cbv zeta.
  apply (Rename_moves_the_object Example.store (NewPath "a/x") (NewPath "a/b/y"));
    vm_compute; reflexivity.
Defined.

(** A successful [Rename] of an object touches no third object: [Get] of
    a location that held an object and resolves neither to the file of
    the source nor to that of the destination returns what it returned
    before. *)
Theorem Rename_leaves_other_objects (s : FileObjectStore) (from to q : Path)
  (w w' : Fs.World) (d dq : list Byte.byte) :
  Get s from w = Ret (d, None) ->
  Rename s from to w = Ret (None, w') ->
  Get s q w = Ret (dq, None) ->
  Fs.resolve w (GoPath.Join [Raw (BaseURI s); Raw q]) <> Fs.resolve w (GoPath.Join [Raw (BaseURI s); Raw from]) ->
  Fs.resolve w (GoPath.Join [Raw (BaseURI s); Raw q]) <> Fs.resolve w (GoPath.Join [Raw (BaseURI s); Raw to]) ->
  Get s q w' = Ret (dq, None).
Proof.
  intros Hget Hren Hq Hqf Hqt.
  destruct (ObjectFacts.Rename_inv s from to w w' _ Hren) as ([e1|] & Hos & He);
    [discriminate|].
  destruct (ObjectFacts.Rename_frame s from to w w' d Hget Hos)
    as (lo & ln & t & Hlo & Hln & Hsrc & [[-> ->]|Hmoved]).
  - exact Hq.
  - destruct Hmoved as (Hne & Hnodir & Hcwd & Hagree & Hnew & Hold).
    destruct (ObjectFacts.Get_after_move s from to w w' lo ln d t
                Hlo Hln Hsrc Hne Hnodir Hcwd Hagree Hnew Hold) as (_ & _ & Hothers).
    apply (Hothers q dq Hq); congruence.
Qed.

(** [a/x] is renamed to [a/z]; [a/b/y] holds what it held. *)
Lemma Rename_leaves_other_objects_witness :
  let w := Example.nested (Example.bytes "x") (Example.bytes "y") in
  let w' := match Rename Example.store (NewPath "a/x") (NewPath "a/z") w with
            | Ret (_, w') => w'
            | _ => w
            end in
  Get Example.store (NewPath "a/z") w' = Ret (Example.bytes "x", None)
  /\ Get Example.store (NewPath "a/b/y") w' = Ret (Example.bytes "y", None).
Proof.
  cbv zeta. split; [vm_compute; reflexivity|].
  apply (Rename_leaves_other_objects Example.store (NewPath "a/x") (NewPath "a/z")
           (NewPath "a/b/y") (Example.nested (Example.bytes "x") (Example.bytes "y"))
           _ (Example.bytes "x"));
    try (vm_compute; reflexivity); vm_compute; discriminate.
Defined.

(** After a successful [RenameIfNotExists] of an object, [Get] of the
    destination returns what the source held and [Get] of the source
    fails with a not-exist error. *)
Theorem RenameIfNotExists_moves_the_object (s : FileObjectStore) (from to : Path)
  (w w' : Fs.World) (d : list Byte.byte) :
  Get s from w = Ret (d, None) ->
  RenameIfNotExists s from to w = Ret (None, w') ->
  Get s to w' = Ret (d, None)
  /\ exists e, Get s from w' = Ret ([], Some e) /\ IsNotExist (Some e) = true.
Proof.
  intros Hget Hok.
  destruct (StoreFacts.RenameIfNotExists_succeeded s from to w w' Hok) as [Hfree Hos].
  destruct (ObjectFacts.Rename_frame s from to w w' d Hget Hos)
    as (lo & ln & t & Hlo & Hln & Hsrc & [[-> ->]|Hmoved]).
  - rewrite (OsFacts.Stat_found w _ lo _ Hln Hsrc) in Hfree. discriminate.
  - destruct Hmoved as (Hne & Hnodir & Hcwd & Hagree & Hnew & Hold).
    destruct (ObjectFacts.Get_after_move s from to w w' lo ln d t
                Hlo Hln Hsrc Hne Hnodir Hcwd Hagree Hnew Hold) as (Hto & Hfrom & _).
    split; [exact Hto|]. eauto.
Qed.

(** The staged commit of A is renamed into the free commit slot. *)
Lemma RenameIfNotExists_moves_the_object_witness :
  let w' := match RenameIfNotExists Example.store Example.stagingA Example.slot
                    Example.staged with
            | Ret (_, w') => w'
            | _ => Example.staged
            end in
  Get Example.store Example.slot w' = Ret (Example.bytes "commit of A", None)
  /\ exists e, Get Example.store Example.stagingA w' = Ret ([], Some e)
               /\ IsNotExist (Some e) = true.
Proof.
  cbv zeta.
  apply (RenameIfNotExists_moves_the_object Example.store Example.stagingA Example.slot
           Example.staged);
    vm_compute; reflexivity.
Defined.

(** Where [Get] returns an object, [Head] returns no error, the path of
    the object on the host as its location, and the number of bytes
    [Get] returns as its size. *)
Theorem Head_of_an_object (s : FileObjectStore) (p : Path) (w : Fs.World)
  (d : list Byte.byte) :
  Get s p w = Ret (d, None) ->
  exists t,
    Head s p w =
    Ret ({| Location := {| Raw := GoPath.Join [Raw (BaseURI s); Raw p] |};
            LastModified := t;
            Size := Z.of_nat (length d) |}, None).
Proof.
  intros Hget.
  destruct (ObjectFacts.Get_inv s p w d Hget) as (loc & t & Hres & Hf).
  exists t.
  now rewrite (StoreFacts.Head_found s p w _ (OsFacts.Stat_found w _ loc _ Hres Hf)).
Qed.

Lemma Head_of_an_object_witness :
  exists t,
    Head Example.store (NewPath "abd.txt") Example.flat =
    Ret ({| Location := {| Raw := "/srv/table/abd.txt" |};
            LastModified := t;
            Size := 2%Z |}, None).
Proof.
  apply (Head_of_an_object Example.store (NewPath "abd.txt") Example.flat
           (Example.bytes "22")).
  vm_compute. reflexivity.
Defined.

(** Where [Head] reports a directory, [Get] fails with an error that is
    no not-exist error and matches none of the errors of the store. *)
Theorem Get_of_a_directory (s : FileObjectStore) (p : Path) (w : Fs.World)
  (meta : ObjectMeta) :
  Head s p w = Ret (meta, Some (ErrorsNew ErrorObjectIsDir)) ->
  exists e,
    Get s p w = Ret ([], Some e)
    /\ IsNotExist (Some e) = false
    /\ forall v, Is (Some e) v = false.
Proof.
  intros Hhead.
  destruct (ObjectFacts.Head_ObjectIsDir_inv s p w meta Hhead)
    as (loc & m & entries & Hres & Hf).
  exists (PathError "read" (GoPath.Join [Raw (BaseURI s); Raw p]) EISDIR).
  unfold Get, Fs.ReadFile. rewrite Hres, Hf. repeat split.
Qed.

Lemma Get_of_a_directory_witness :
  exists e,
    Get Example.store (NewPath "a/b")
      (Example.nested (Example.bytes "x") (Example.bytes "y")) = Ret ([], Some e)
    /\ IsNotExist (Some e) = false
    /\ forall v, Is (Some e) v = false.
Proof.
  apply (Get_of_a_directory Example.store (NewPath "a/b")
           (Example.nested (Example.bytes "x") (Example.bytes "y"))
           {| Location := {| Raw := "/srv/table/a/b" |};
              LastModified := 7%Z; Size := 4096%Z |}).
  vm_compute. reflexivity.
Defined.

(** After a successful [Put], [Head] of the location returns no error,
    the path on the host as location, the instant of the write as time
    of modification and the number of bytes written as size. *)
Theorem Put_then_Head (s : FileObjectStore) (p : Path) (b : list Byte.byte)
  (w w' : Fs.World) :
  Put s p b w = Ret (None, w') ->
  Head s p w' =
  Ret ({| Location := {| Raw := GoPath.Join [Raw (BaseURI s); Raw p] |};
          LastModified := Fs.now w;
          Size := Z.of_nat (length b) |}, None).
Proof.
  intros Hput.
  destruct (ObjectFacts.Put_frame s p b w w' Hput) as (lp & Hres & Hf & _).
  now rewrite (StoreFacts.Head_found s p w' _ (OsFacts.Stat_found w' _ lp _ Hres Hf)).
Qed.

Lemma Put_then_Head_witness :
  Head Example.store (NewPath "a/x")
    (Example.after_Put "a/x" (Example.bytes "x") Example.empty)
  = Ret ({| Location := {| Raw := "/srv/table/a/x" |};
            LastModified := 7%Z;
            Size := 1%Z |}, None).
Proof.
  apply (Put_then_Head Example.store (NewPath "a/x") (Example.bytes "x") Example.empty).
  vm_compute. reflexivity.
Defined.

(** A successful [Put] changes no other object: [Get] of a location that
    held an object and does not resolve to the file just written returns
    what it returned before. *)
Theorem Put_leaves_other_objects (s : FileObjectStore) (p q : Path)
  (b dq : list Byte.byte) (w w' : Fs.World) :
  Put s p b w = Ret (None, w') ->
  Get s q w = Ret (dq, None) ->
  Fs.resolve w' (GoPath.Join [Raw (BaseURI s); Raw q]) <> Fs.resolve w' (GoPath.Join [Raw (BaseURI s); Raw p]) ->
  Get s q w' = Ret (dq, None).
Proof.
  intros Hput Hget Hne.
  destruct (ObjectFacts.Put_others s p b w w' None Hput q dq Hget)
    as [Hsame|(Heq & _)]; [exact Hsame|contradiction].
Qed.

(** [a/b/y] is written where [a/x] is. *)
Lemma Put_leaves_other_objects_witness :
  Get Example.store (NewPath "a/x")
    (Example.nested (Example.bytes "x") (Example.bytes "y"))
  = Ret (Example.bytes "x", None).
Proof.
  apply (Put_leaves_other_objects Example.store (NewPath "a/b/y") (NewPath "a/x")
           (Example.bytes "y") (Example.bytes "x")
           (Example.after_Put "a/x" (Example.bytes "x") Example.empty));
    try (vm_compute; reflexivity); vm_compute; discriminate.
Defined.

(** A [Put] that fails may have made directories, and it may have
    emptied the file it wrote to: the write failed at the file size
    limit, after the open, and the file holds the bytes up to the limit.
    [Get] of every location that held an object returns what it returned
    before, unless the location resolves to that file. *)
Theorem Put_error_keeps_the_other_objects (s : FileObjectStore) (p q : Path)
  (b dq : list Byte.byte) (w w' : Fs.World) (e : err) :
  Put s p b w = Ret (Some e, w') ->
  Get s q w = Ret (dq, None) ->
  Get s q w' = Ret (dq, None)
  \/ (Fs.resolve w' (GoPath.Join [Raw (BaseURI s); Raw q]) = Fs.resolve w' (GoPath.Join [Raw (BaseURI s); Raw p])
      /\ e = PathError "write" (GoPath.Join [Raw (BaseURI s); Raw p]) EFBIG
      /\ exists limit,
           Fs.file_limit w = Some limit
           /\ Get s q w' = Ret (firstn limit b, None)).
Proof.
  intros Hput Hget.
  destruct (ObjectFacts.Put_others s p b w w' _ Hput q dq Hget)
    as [Hsame|(Heq & Hstored & He)]; [now left|right].
  destruct (snd (Fs.written w b)) as [errno|] eqn:Hw; [|discriminate].
  destruct (ObjectFacts.written_short w b errno Hw) as (-> & limit & Hlimit & Hfst).
  injection He as ->. rewrite Hfst in Hstored.
  split; [exact Heq|split; [reflexivity|eauto]].
Qed.

(** Three bytes are put to [a/x] by a process whose files hold two: the
    Put fails, [a/x] holds the first two bytes, and [a/b/y] what it
    held. *)
Lemma Put_error_keeps_the_other_objects_witness :
  let w := Example.limited (Example.bytes "x") (Example.bytes "y") in
  let w' := match Put Example.store (NewPath "a/x") (Example.bytes "new") w with
            | Ret (_, w') => w'
            | _ => w
            end in
  Put Example.store (NewPath "a/x") (Example.bytes "new") w
  = Ret (Some (PathError "write" "/srv/table/a/x" EFBIG), w')
  /\ Get Example.store (NewPath "a/x") w' = Ret (Example.bytes "ne", None)
  /\ (Get Example.store (NewPath "a/b/y") w' = Ret (Example.bytes "y", None)
      \/ (Fs.resolve w' "/srv/table/a/b/y" = Fs.resolve w' "/srv/table/a/x"
          /\ PathError "write" "/srv/table/a/x" EFBIG
             = PathError "write" "/srv/table/a/x" EFBIG
          /\ exists limit,
               Fs.file_limit w = Some limit
               /\ Get Example.store (NewPath "a/b/y") w'
                  = Ret (firstn limit (Example.bytes "new"), None))).
Proof.
  cbv zeta. split; [vm_compute; reflexivity|]. split; [vm_compute; reflexivity|].
  apply (Put_error_keeps_the_other_objects Example.store (NewPath "a/x")
           (NewPath "a/b/y") (Example.bytes "new") (Example.bytes "y")
           (Example.limited (Example.bytes "x") (Example.bytes "y")));
    vm_compute; reflexivity.
Defined.

(** [Delete] of an object that [Get] can read succeeds; after it [Get]
    of the location fails with a not-exist error and [Head] returns an
    error that matches ObjectDoesNotExist. *)
Theorem Delete_removes_an_object (s : FileObjectStore) (p : Path) (w : Fs.World)
  (d : list Byte.byte) :
  Get s p w = Ret (d, None) ->
  exists w',
    Delete s p w = Ret (None, w')
    /\ (exists e, Get s p w' = Ret ([], Some e) /\ IsNotExist (Some e) = true)
    /\ (exists e, Head s p w' = Ret (zeroObjectMeta, e)
                  /\ Is e ErrorObjectDoesNotExist = true).
Proof.
  intros Hget.
  destruct (ObjectFacts.Get_inv s p w d Hget) as (loc & t & Hres & Hf).
  pose proof (ChangeFacts.Remove_file w _ loc d t Hres Hf) as Hrm.
  exists (Fs.with_root w (Fs.remove (Fs.root w) loc)).
  destruct (ObjectFacts.Delete_frame s p w _ Hrm) as ((e & Hstat & Hne) & Hothers).
  split; [|split].
  - unfold Delete. now rewrite Hrm.
  - destruct (Hothers p d Hget) as [Hstill|Hgone]; [|eauto].
    destruct (ObjectFacts.Get_Stat s p _ d Hstill) as (info & Hthere & _).
    congruence.
  - apply StoreFacts.Head_missing. now rewrite Hstat.
Qed.

Lemma Delete_removes_an_object_witness :
  exists w',
    Delete Example.store (NewPath "a/x")
      (Example.nested (Example.bytes "x") (Example.bytes "y")) = Ret (None, w')
    /\ (exists e, Get Example.store (NewPath "a/x") w' = Ret ([], Some e)
                  /\ IsNotExist (Some e) = true)
    /\ (exists e, Head Example.store (NewPath "a/x") w' = Ret (zeroObjectMeta, e)
                  /\ Is e ErrorObjectDoesNotExist = true).
Proof.
  apply (Delete_removes_an_object Example.store (NewPath "a/x")
           (Example.nested (Example.bytes "x") (Example.bytes "y")) (Example.bytes "x")).
  vm_compute. reflexivity.
Defined.

(** Every error [Delete] returns matches ErrorDeleteObject and is not
    itself a not-exist error, and the host is as it was. *)
Theorem Delete_error_changes_nothing (s : FileObjectStore) (p : Path)
  (w w' : Fs.World) (e : err) :
  Delete s p w = Ret (Some e, w') ->
  Is (Some e) ErrorDeleteObject = true
  /\ IsNotExist (Some e) = false
  /\ w' = w.
Proof.
  intros Hdel.
  destruct (ObjectFacts.Delete_inv s p w w' _ Hdel) as ([e1|] & Hrm & He);
    [|discriminate].
  injection He as ->.
  destruct (ChangeFacts.Remove_error w w' _ e1 Hrm) as [-> _].
  repeat split.
Qed.

(** [Delete] of [a/zz], which is not there. *)
Lemma Delete_error_changes_nothing_witness :
  let w := Example.nested (Example.bytes "x") (Example.bytes "y") in
  let e := Joined [ErrorsNew ErrorDeleteObject;
                   PathError "remove" "/srv/table/a/zz" ENOENT] in
  Delete Example.store (NewPath "a/zz") w = Ret (Some e, w)
  /\ Is (Some e) ErrorDeleteObject = true
  /\ IsNotExist (Some e) = false.
Proof.
  cbv zeta. split; [vm_compute; reflexivity|].
  destruct (Delete_error_changes_nothing Example.store (NewPath "a/zz")
              (Example.nested (Example.bytes "x") (Example.bytes "y"))
              (Example.nested (Example.bytes "x") (Example.bytes "y"))
              (Joined [ErrorsNew ErrorDeleteObject;
                       PathError "remove" "/srv/table/a/zz" ENOENT]))
    as (Hmatch & Hnot & _); [vm_compute; reflexivity|].
  split; assumption.
Defined.

(** Where [Head] returns an error that matches ObjectDoesNotExist,
    [Delete] fails with an error that matches ErrorDeleteObject and not
    ObjectDoesNotExist, and changes nothing. *)
Theorem Delete_of_a_missing_object_fails (s : FileObjectStore) (p : Path)
  (w : Fs.World) (meta : ObjectMeta) (e : error) :
  Head s p w = Ret (meta, e) ->
  Is e ErrorObjectDoesNotExist = true ->
  exists e',
    Delete s p w = Ret (Some e', w)
    /\ Is (Some e') ErrorDeleteObject = true
    /\ Is (Some e') ErrorObjectDoesNotExist = false.
Proof.
  intros Hhead He.
  pose proof (ObjectFacts.Head_ObjectDoesNotExist_inv s p w meta e Hhead He) as Hmiss.
  exists (Joined [ErrorsNew ErrorDeleteObject;
                  PathError "remove" (GoPath.Join [Raw (BaseURI s); Raw p]) ENOENT]).
  unfold Delete. rewrite (ChangeFacts.Remove_missing w _ Hmiss). repeat split.
Qed.

Lemma Delete_of_a_missing_object_fails_witness :
  exists e',
    Delete Example.store Example.slot Example.staged = Ret (Some e', Example.staged)
    /\ Is (Some e') ErrorDeleteObject = true
    /\ Is (Some e') ErrorObjectDoesNotExist = false.
Proof.
  apply (Delete_of_a_missing_object_fails Example.store Example.slot Example.staged
           zeroObjectMeta
           (Some (Joined [ErrorsNew ErrorObjectDoesNotExist;
                          PathError "stat"
                            "/srv/table/_delta_log/00000000000000000001.json" ENOENT])));
    vm_compute; reflexivity.
Defined.

(** [Delete] of an object changes no other object: [Get] of a location
    that held an object and does not resolve to the file deleted returns
    what it returned before. *)
Theorem Delete_leaves_other_objects (s : FileObjectStore) (p q : Path)
  (w w' : Fs.World) (dp dq : list Byte.byte) :
  Get s p w = Ret (dp, None) ->
  Delete s p w = Ret (None, w') ->
  Get s q w = Ret (dq, None) ->
  Fs.resolve w (GoPath.Join [Raw (BaseURI s); Raw q]) <> Fs.resolve w (GoPath.Join [Raw (BaseURI s); Raw p]) ->
  Get s q w' = Ret (dq, None).
Proof.
  intros Hp Hdel Hget Hne.
  destruct (ObjectFacts.Delete_inv s p w w' _ Hdel) as ([e1|] & Hrm & He);
    [discriminate|].
  exact (ObjectFacts.Delete_file_frame s p w w' dp Hp Hrm q dq Hget Hne).
Qed.

(** [a/x] is deleted; [a/b/y] holds what it held. *)
Lemma Delete_leaves_other_objects_witness :
  let w := Example.nested (Example.bytes "x") (Example.bytes "y") in
  let w' := match Delete Example.store (NewPath "a/x") w with
            | Ret (_, w') => w'
            | _ => w
            end in
  Get Example.store (NewPath "a/b/y") w' = Ret (Example.bytes "y", None).
Proof.
  cbv zeta.
  apply (Delete_leaves_other_objects Example.store (NewPath "a/x") (NewPath "a/b/y")
           (Example.nested (Example.bytes "x") (Example.bytes "y"))
           _ (Example.bytes "x"));
    try (vm_compute; reflexivity); vm_compute; discriminate.
Defined.

(** [Delete] of a directory that has an entry fails with an error that
    matches ErrorDeleteObject and changes nothing. *)
Theorem Delete_keeps_a_directory_that_is_not_empty (s : FileObjectStore) (p : Path)
  (w : Fs.World) (loc : list string) (m : Fs.Time) (entry : string * Fs.node)
  (entries : list (string * Fs.node)) :
  Fs.resolve w (GoPath.Join [Raw (BaseURI s); Raw p]) = inr loc ->
  Fs.find (Fs.root w) loc = Some (Fs.Dir m (entry :: entries)) ->
  exists e,
    Delete s p w = Ret (Some e, w) /\ Is (Some e) ErrorDeleteObject = true.
Proof.
  intros Hres Hf.
  destruct (ChangeFacts.Remove_not_empty w _ loc m entry entries Hres Hf)
    as (errno & Hrm).
  eexists. unfold Delete. rewrite Hrm. split; reflexivity.
Qed.

Lemma Delete_keeps_a_directory_that_is_not_empty_witness :
  let w := Example.nested (Example.bytes "x") (Example.bytes "y") in
  exists e,
    Delete Example.store (NewPath "a/b") w = Ret (Some e, w)
    /\ Is (Some e) ErrorDeleteObject = true.
Proof.
  cbv zeta.
  apply (Delete_keeps_a_directory_that_is_not_empty Example.store (NewPath "a/b")
           (Example.nested (Example.bytes "x") (Example.bytes "y"))
           ["b"; "a"; "table"; "srv"] 7%Z
           ("y", Fs.File (Example.bytes "y") 7%Z) []);
    vm_compute; reflexivity.
Defined.

(** [Delete] removes a directory that is empty, when the path on the
    host ends in its name: after it [Head] returns an error that matches
    ObjectDoesNotExist. *)
Theorem Delete_removes_an_empty_directory (s : FileObjectStore) (p : Path)
  (w : Fs.World) (name : string) (up : list string) (m : Fs.Time) :
  Fs.resolve w (GoPath.Join [Raw (BaseURI s); Raw p]) = inr (name :: up) ->
  Fs.find (Fs.root w) (name :: up) = Some (Fs.Dir m []) ->
  Fs.last_element (GoPath.Join [Raw (BaseURI s); Raw p]) = name ->
  name <> "." -> name <> ".." ->
  exists w',
    Delete s p w = Ret (None, w')
    /\ exists e, Head s p w' = Ret (zeroObjectMeta, e)
                 /\ Is e ErrorObjectDoesNotExist = true.
Proof.
  intros Hres Hf Hlast Hdot Hup.
  assert (Hrm : Fs.Remove w (GoPath.Join [Raw (BaseURI s); Raw p])
                = (Fs.with_root w (Fs.remove (Fs.root w) (name :: up)), None)).
  { unfold Fs.Remove, Fs.sys_unlink, Fs.sys_rmdir. rewrite Hres, Hf, Hlast.
    apply String.eqb_neq in Hdot, Hup. now rewrite Hdot, Hup. }
  eexists. split; [unfold Delete; now rewrite Hrm|].
  destruct (ObjectFacts.Delete_frame s p w _ Hrm) as ((e & Hstat & Hne) & _).
  apply StoreFacts.Head_missing. now rewrite Hstat.
Qed.

(** The empty location of an empty store names its base directory, and
    [Delete] removes it. *)
Lemma Delete_removes_an_empty_directory_witness :
  exists w',
    Delete Example.store (NewPath "") Example.empty = Ret (None, w')
    /\ exists e, Head Example.store (NewPath "") w' = Ret (zeroObjectMeta, e)
                 /\ Is e ErrorObjectDoesNotExist = true.
Proof.
  apply (Delete_removes_an_empty_directory Example.store (NewPath "") Example.empty
           "table" ["srv"] 3%Z);
    try (vm_compute; reflexivity); discriminate.
Defined.

(** [List] under a directory that is not there returns no entry and no
    error. *)
Theorem List_of_a_missing_directory (fuel : nat) (s : FileObjectStore)
  (prefix : Path) (w : Fs.World) (dir filePrefix : string) :
  Raw (BaseURI s) <> "" ->
  GoPath.Split (Raw prefix) = (dir, filePrefix) ->
  IsNotExist (snd (Fs.Stat w (GoPath.Join [Raw (BaseURI s); dir]))) = true ->
  List (S fuel) s prefix w = Ret ([], None).
Proof.
  intros Hbase Hsplit Hmiss. unfold List. rewrite Hsplit.
  pose proof (ObjectFacts.Join_not_empty (Raw (BaseURI s)) [dir] Hbase) as Hfull.
  destruct (ListFacts.last_byte_some _ Hfull) as (c & Hc).
  destruct (ListFacts.last_byte_some _ Hbase) as (cb & Hcb).
  assert (Hlist : forall base full,
            full = GoPath.Join [Raw (BaseURI s); dir]
            \/ full = (GoPath.Join [Raw (BaseURI s); dir] ++ GoPath.SeparatorString)%string ->
            listFilesInDirRecursively (S fuel) w base full filePrefix = Ret ([], None)).
  { intros base full Hcases. cbn [listFilesInDirRecursively].
    assert (Hread : IsNotExist (snd (Fs.ReadDir w full)) = true).
    { destruct Hcases as [-> | ->].
      - now apply ObjectFacts.ReadDir_missing.
      - now apply ObjectFacts.ReadDir_missing_separator. }
    destruct (Fs.ReadDir w full) as [results err]. cbn [snd] in Hread.
    now rewrite Hread. }
  assert (Hself :
    (let '(info, err) := Fs.Stat w (GoPath.Join [Raw (BaseURI s); dir]) in
     if negb (is_nil err) && negb (IsNotExist err)
     then Ret ([], Join [Some (ErrorsNew ErrorListObjects); err])
     else if is_nil err
          then i <- deref info ;;
               ' (meta, err0) <- objectMetaFromFileInfo i dir true ""
                                   (if negb (GoPath.IsPathSeparator cb)
                                    then (Raw (BaseURI s) ++ GoPath.SeparatorString)%string
                                    else Raw (BaseURI s)) ;;
               match err0 with
               | Some _ => Ret ([], Join [Some (ErrorsNew ErrorListObjects); err0])
               | None => m <- deref meta ;; Ret (@nil ObjectMeta ++ [m], None)
               end
          else Ret (@nil ObjectMeta, None)) = Ret ([], None)).
  { destruct (Fs.Stat w _) as [info [e|]]; cbn [snd] in Hmiss; [|discriminate].
    rewrite Hmiss. reflexivity. }
  unfold GoString.index_last. rewrite Hc, Hcb. cbn [bind].
  destruct (filePrefix =? ""); cbn [bind].
  - destruct (negb (GoPath.IsPathSeparator c)); cbn [bind];
      (rewrite Hlist; [|auto]); cbn [bind];
      (destruct (negb (dir =? "")); cbn [andb]; [exact Hself|reflexivity]).
  - rewrite Hlist by auto. cbn [bind].
    now rewrite andb_false_r.
Qed.

(** The store holds [a/x] and [a/b/y], and no directory [c]. *)
Lemma List_of_a_missing_directory_witness :
  List 1 Example.store (NewPath "c/d/")
    (Example.nested (Example.bytes "x") (Example.bytes "y")) = Ret ([], None).
Proof.
  apply (List_of_a_missing_directory 0 Example.store (NewPath "c/d/")
           (Example.nested (Example.bytes "x") (Example.bytes "y")) "c/d/" "");
    try (vm_compute; reflexivity); discriminate.
Defined.

(** Every error [List] returns matches ErrorListObjects and comes with
    no entry. *)
Theorem List_error_is_ErrorListObjects (fuel : nat) (s : FileObjectStore)
  (prefix : Path) (w : Fs.World) (files : list ObjectMeta) (e : err) :
  List fuel s prefix w = Ret (files, Some e) ->
  Is (Some e) ErrorListObjects = true /\ files = [].
Proof.
  unfold List.
  destruct (GoPath.Split (Raw prefix)) as [dir filePrefix].
  match goal with
  | |- bind ?m _ = _ -> _ => destruct m as [fullDir|r|]
  end; cbn [bind]; try discriminate.
  destruct (GoString.index_last (Raw (BaseURI s))) as [c|r|]; cbn [bind];
    try discriminate.
  match goal with
  | |- bind ?m _ = _ -> _ => destruct m as [[listed [e1|]]|r|]
  end; cbn [bind]; try discriminate.
  - intros [= <- <-]. split; reflexivity.
  - destruct (negb (dir =? "") && (filePrefix =? "")); [|discriminate].
    destruct (Fs.Stat w _) as [info [e2|]]; cbn [is_nil negb andb].
    + destruct (negb (IsNotExist (Some e2))); [|discriminate].
      intros [= <- <-]. split; reflexivity.
    + destruct info as [i|]; cbn [deref bind]; [|discriminate].
      match goal with
      | |- bind ?m _ = _ -> _ => destruct m as [[meta [e3|]]|r|]
      end; cbn [bind]; try discriminate.
      * intros [= <- <-]. split; reflexivity.
      * destruct meta; cbn [deref bind]; discriminate.
Qed.

(** The directory part [a/x] of the prefix is a file. *)
Lemma List_error_is_ErrorListObjects_witness :
  let w := Example.nested (Example.bytes "x") (Example.bytes "y") in
  let e := Joined [ErrorsNew ErrorListObjects;
                   PathError "open" "/srv/table/a/x/" ENOTDIR] in
  List 1 Example.store (NewPath "a/x/") w = Ret ([], Some e)
  /\ Is (Some e) ErrorListObjects = true.
Proof.
  cbv zeta. split; [vm_compute; reflexivity|].
  apply (List_error_is_ErrorListObjects 1 Example.store (NewPath "a/x/")
           (Example.nested (Example.bytes "x") (Example.bytes "y")) []).
  vm_compute. reflexivity.
Defined.

(** Whatever [objectMetaFromFileInfo] returns, it returns no error and
    the time of modification of the file; for a directory the size 0 and
    a location that ends in the separator; for a file the size of the
    file and the joined path without the prefix. *)
Theorem objectMetaFromFileInfo_convention (info : Fs.FileInfo)
  (name parentDir trimPrefix : string) (isDir : bool)
  (meta : option ObjectMeta) (e : error) :
  objectMetaFromFileInfo info name isDir parentDir trimPrefix = Ret (meta, e) ->
  e = None
  /\ exists m,
       meta = Some m
       /\ LastModified m = Fs.ModTime info
       /\ (if isDir
           then Size m = 0%Z
                /\ GoString.last_byte (Raw (Location m)) = Some GoPath.Separator
           else Size m = Fs.Size info
                /\ Raw (Location m)
                   = GoString.TrimPrefix (GoPath.Join [parentDir; name]) trimPrefix).
Proof.
  unfold objectMetaFromFileInfo. destruct isDir.
  - unfold GoString.index_last.
    destruct (GoString.last_byte _) as [c|] eqn:Hlast; cbn [bind]; [|discriminate].
    destruct (GoPath.IsPathSeparator c) eqn:Hc; cbn [negb bind];
      intros [= <- <-]; (split; [reflexivity|]); eexists;
      (split; [reflexivity|]); cbn [LastModified Size Location Raw NewPath];
      repeat split.
    + apply Ascii.eqb_eq in Hc. now subst c.
    + unfold GoPath.SeparatorString. now rewrite PathFacts.last_byte_app.
  - cbn [bind]. intros [= <- <-]. split; [reflexivity|]. eexists.
    repeat split.
Qed.

Lemma objectMetaFromFileInfo_convention_witness :
  exists m,
    Some {| Location := NewPath "a/b/"; LastModified := 7%Z; Size := 0%Z |} = Some m
    /\ LastModified m = 7%Z
    /\ Size m = 0%Z
    /\ GoString.last_byte (Raw (Location m)) = Some GoPath.Separator.
Proof.
  exact (proj2 (objectMetaFromFileInfo_convention
                  {| Fs.Size := 4096%Z; Fs.ModTime := 7%Z; Fs.IsDir := true |}
                  "b" "/srv/table/a" "/srv/table/" true
                  (Some {| Location := NewPath "a/b/"; LastModified := 7%Z;
                           Size := 0%Z |})
                  None ltac:(vm_compute; reflexivity))).
Defined.

(** For a directory whose joined path is the prefix to strip, or is
    empty, [objectMetaFromFileInfo] panics on the index into the empty
    location. *)
Theorem objectMetaFromFileInfo_panics_on_an_empty_location (info : Fs.FileInfo)
  (name parentDir trimPrefix : string) :
  GoString.TrimPrefix (GoPath.Join [parentDir; name]) trimPrefix = "" ->
  objectMetaFromFileInfo info name true parentDir trimPrefix
  = Panic index_out_of_range.
Proof.
  intros Hempty. unfold objectMetaFromFileInfo. rewrite Hempty. reflexivity.
Qed.

(** The root directory listed by a store whose base is the root. *)
Lemma objectMetaFromFileInfo_panics_on_an_empty_location_witness :
  objectMetaFromFileInfo {| Fs.Size := 4096%Z; Fs.ModTime := 1%Z; Fs.IsDir := true |}
    "/" true "" "/"
  = Panic index_out_of_range.
Proof.
  apply (objectMetaFromFileInfo_panics_on_an_empty_location
           {| Fs.Size := 4096%Z; Fs.ModTime := 1%Z; Fs.IsDir := true |} "/" "" "/").
  vm_compute. reflexivity.
Defined.

(** [Rename] makes no directories: where the path of the destination
    does not resolve, it fails with an error that matches
    ObjectDoesNotExist, though the source may be there, and changes
    nothing. *)
Theorem Rename_makes_no_directories (s : FileObjectStore) (from to : Path)
  (w : Fs.World) (errno : Errno) :
  Fs.resolve w (GoPath.Join [Raw (BaseURI s); Raw to]) = inl errno ->
  exists e,
    Rename s from to w = Ret (Some e, w)
    /\ Is (Some e) ErrorObjectDoesNotExist = true.
Proof.
  intros Hto.
  assert (Hos : exists e1,
            Fs.Rename w (GoPath.Join [Raw (BaseURI s); Raw from])
              (GoPath.Join [Raw (BaseURI s); Raw to]) = (w, Some e1)).
  { unfold Fs.Rename, Fs.Stat, Fs.sys_rename. rewrite Hto.
    destruct (Fs.resolve w (GoPath.Join [Raw (BaseURI s); Raw from])) as [e0|lo];
      [eauto|].
    destruct (Fs.find (Fs.root w) lo); eauto. }
  destruct Hos as (e1 & Hos).
  eexists. unfold Rename, Path_Join. cbn [Raw]. rewrite Hos. split; reflexivity.
Qed.

(** The store holds [a/x] and no directory [c]: [Rename] of [a/x] to
    [c/d/z] fails, where [Put] to [c/d/z] succeeds. *)
Lemma Rename_makes_no_directories_witness :
  let w := Example.nested (Example.bytes "x") (Example.bytes "y") in
  (exists w', Put Example.store (NewPath "c/d/z") (Example.bytes "z") w = Ret (None, w'))
  /\ exists e,
       Rename Example.store (NewPath "a/x") (NewPath "c/d/z") w = Ret (Some e, w)
       /\ Is (Some e) ErrorObjectDoesNotExist = true.
Proof.
  cbv zeta. split; [eexists; vm_compute; reflexivity|].
  apply (Rename_makes_no_directories Example.store (NewPath "a/x") (NewPath "c/d/z")
           (Example.nested (Example.bytes "x") (Example.bytes "y")) ENOENT).
  vm_compute. reflexivity.
Defined.

(** For a store whose BaseURI is neither empty nor the root of the host,
    on a well-formed tree, with a recursion budget of the height of the
    tree: where the directory part of the prefix names a directory,
    [List] returns no error, and every entry it returns is the entry
    either for a node of the tree, found where the joined path of the
    entry resolves to, or for the listed directory itself; the location
    of the entry ends in the separator exactly when the node is a
    directory. *)
Theorem List_marks_directories_only (fuel : nat) (s : FileObjectStore)
  (prefix : Path) (w : Fs.World) (dir filePrefix : string) (loc : list string)
  (m : Fs.Time) (entries : list (string * Fs.node)) :
  Raw (BaseURI s) <> "" ->
  Raw (BaseURI s) <> GoPath.SeparatorString ->
  WellFormed.wf_node (Fs.root w) = true ->
  WellFormed.height (Fs.root w) <= fuel ->
  GoPath.Split (Raw prefix) = (dir, filePrefix) ->
  Fs.resolve w (GoPath.Join [Raw (BaseURI s); dir]) = inr loc ->
  Fs.find (Fs.root w) loc = Some (Fs.Dir m entries) ->
  let baseURI := ListingSpec.stripped_base (Raw (BaseURI s)) in
  exists files,
    List fuel s prefix w = Ret (files, None)
    /\ forall x, In x files ->
         (exists parent name at_loc node,
            Fs.resolve w (GoPath.Join [parent; name]) = inr at_loc
            /\ Fs.find (Fs.root w) at_loc = Some node
            /\ x = ListingSpec.entry_meta baseURI parent (name, node)
            /\ (GoString.last_byte (Raw (Location x)) = Some GoPath.Separator
                <-> Fs.is_dir (Some node) = true))
         \/ (x = ListingSpec.self_meta baseURI dir m
             /\ GoString.last_byte (Raw (Location x)) = Some GoPath.Separator).
Proof.
  intros Hbase Hroot Hwf Hfuel Hsplit Hres Hfind baseURI.
  pose proof (ListFacts.height_find (Fs.root w) loc _ Hfind) as Hheight.
  eexists. split.
  - apply (ListFacts.List_listing fuel s prefix w dir filePrefix loc m entries
             Hsplit Hbase Hroot Hwf Hres Hfind). lia.
  - intros x Hin. apply in_app_or in Hin as [Hin|Hin].
    + left.
      assert (Hfull : GoPath.Join [Raw (BaseURI s); dir] <> "")
        by (intros Heq; rewrite Heq in Hres; discriminate).
      destruct (ListFacts.last_byte_some _ Hfull) as [c Hc].
      assert (Hlisted : Fs.resolve w
                (ListingSpec.listed_dir (Raw (BaseURI s)) dir filePrefix) = inr loc).
      { unfold ListingSpec.listed_dir, ListingSpec.with_separator. rewrite Hc.
        destruct (filePrefix =? ""); [|exact Hres].
        destruct (GoPath.IsPathSeparator c); [exact Hres|].
        apply ResolveFacts.resolve_trailing_separator; [exact Hres|].
        now rewrite Hfind. }
      apply (ConventionFacts.listing_nodes _ w Hwf
               (WellFormed.height (Fs.Dir m entries)) _ filePrefix loc m entries
               Hlisted Hfind (le_n _) x Hin).
    + right.
      destruct (negb (dir =? "") && (filePrefix =? "")); [|contradiction].
      destruct Hin as [<-|[]]. split; [reflexivity|].
      apply ListFacts.with_separator_last.
Qed.

(** The prefix [a/] over the files [a/x] and [a/b/y]. *)
Lemma List_marks_directories_only_witness :
  let w := Example.nested (Example.bytes "x") (Example.bytes "y") in
  exists files,
    List 5 Example.store (NewPath "a/") w = Ret (files, None)
    /\ forall x, In x files ->
         (exists parent name at_loc node,
            Fs.resolve w (GoPath.Join [parent; name]) = inr at_loc
            /\ Fs.find (Fs.root w) at_loc = Some node
            /\ x = ListingSpec.entry_meta "/srv/table/" parent (name, node)
            /\ (GoString.last_byte (Raw (Location x)) = Some GoPath.Separator
                <-> Fs.is_dir (Some node) = true))
         \/ (x = ListingSpec.self_meta "/srv/table/" "a/" 7%Z
             /\ GoString.last_byte (Raw (Location x)) = Some GoPath.Separator).
Proof.
  exact (List_marks_directories_only 5 Example.store (NewPath "a/")
           (Example.nested (Example.bytes "x") (Example.bytes "y"))
           "a/" "" ["a"; "table"; "srv"] 7%Z
           [("b", Fs.Dir 7%Z [("y", Fs.File (Example.bytes "y") 7%Z)]);
            ("x", Fs.File (Example.bytes "x") 7%Z)]
           ltac:(discriminate) ltac:(discriminate)
           ltac:(vm_compute; reflexivity) ltac:(vm_compute; lia)
           ltac:(vm_compute; reflexivity) ltac:(vm_compute; reflexivity)
           ltac:(vm_compute; reflexivity)).
Defined.

(** For a store whose BaseURI is neither empty nor the root of the
    host, on a well-formed tree whose directories are in file-name
    order, with a recursion budget of the height of the tree: the prefix
    is cut after its last separator into a directory part and a
    name-prefix part; where the directory part resolves to a directory
    with the entries [entries], [List] returns, for each entry whose name
    starts with the name-prefix part (every entry when that part is
    empty) and for no other entry, the metadata of the entry followed,
    when the entry is a directory, by everything beneath it, unfiltered;
    then the entry for the directory part itself, when List adds one. *)
Theorem List_filters_the_top_level_only (fuel : nat) (s : FileObjectStore)
  (prefix : Path) (w : Fs.World) (dir filePrefix : string) (loc : list string)
  (m : Fs.Time) (entries : list (string * Fs.node)) :
  Raw (BaseURI s) <> "" ->
  Raw (BaseURI s) <> GoPath.SeparatorString ->
  WellFormed.wf_node (Fs.root w) = true ->
  WellFormed.ordered (Fs.root w) = true ->
  WellFormed.height (Fs.root w) <= fuel ->
  Raw prefix = (dir ++ filePrefix)%string ->
  dir = "" \/ GoString.last_byte dir = Some GoPath.Separator ->
  WellFormed.has_separator filePrefix = false ->
  Fs.resolve w (GoPath.Join [Raw (BaseURI s); dir]) = inr loc ->
  Fs.find (Fs.root w) loc = Some (Fs.Dir m entries) ->
  let baseURI := ListingSpec.stripped_base (Raw (BaseURI s)) in
  let listed := ListingSpec.listed_dir (Raw (BaseURI s)) dir filePrefix in
  List fuel s prefix w =
  Ret (flat_map
         (fun e => ListingSpec.entry_meta baseURI listed e
                   :: ListingSpec.beneath baseURI (GoPath.Join [listed; fst e]) (snd e))
         (filter (fun e => (filePrefix =? "") || GoString.HasPrefix (fst e) filePrefix)
            entries)
       ++ (if negb (dir =? "") && (filePrefix =? "")
           then [ListingSpec.self_meta baseURI dir m] else []),
       None).
Proof.
  intros Hbase Hroot Hwf _ Hfuel Hprefix Hdir Hfile Hres Hfind baseURI listed.
  assert (Hsplit : GoPath.Split (Raw prefix) = (dir, filePrefix)).
  { rewrite Hprefix. now apply ConventionFacts.Split_app. }
  apply (ListFacts.List_listing fuel s prefix w dir filePrefix loc m entries
           Hsplit Hbase Hroot Hwf Hres Hfind).
  pose proof (ListFacts.height_find (Fs.root w) loc _ Hfind). lia.
Qed.

(** The prefix [a/b] over the files [a/x] and [a/b/y]: the directory
    [a/b/] and, beneath it, [a/b/y], whose name does not start with [b];
    not [a/x]. *)
Lemma List_filters_the_top_level_only_witness :
  List 5 Example.store (NewPath "a/b")
    (Example.nested (Example.bytes "x") (Example.bytes "y")) =
  Ret ([{| Location := NewPath "a/b/"; LastModified := 7%Z; Size := 0%Z |};
        {| Location := NewPath "a/b/y"; LastModified := 7%Z; Size := 1%Z |}], None).
Proof.
  exact (List_filters_the_top_level_only 5 Example.store (NewPath "a/b")
           (Example.nested (Example.bytes "x") (Example.bytes "y"))
           "a/" "b" ["a"; "table"; "srv"] 7%Z
           [("b", Fs.Dir 7%Z [("y", Fs.File (Example.bytes "y") 7%Z)]);
            ("x", Fs.File (Example.bytes "x") 7%Z)]
           ltac:(discriminate) ltac:(discriminate)
           ltac:(vm_compute; reflexivity) ltac:(vm_compute; reflexivity)
           ltac:(vm_compute; lia)
           ltac:(reflexivity) ltac:(right; reflexivity) ltac:(reflexivity)
           ltac:(vm_compute; reflexivity) ltac:(vm_compute; reflexivity)).
Defined.
